(** * nanoparticle_generator: shape recipes, placement and scene composition

    A shallow embedding of [nanoparticle_generator/blender.py],
    [shapes/basic.py], [shapes/fcc.py], [shapes/randomized/fcc.py] and
    [scene_building.py].

    Conventions of the embedding.
    - Python and numpy floats are idealised as real numbers ([R]).  A
      division by zero on Python floats raises [ZeroDivisionError].  A
      division by zero in numpy raises nothing: the source gets inf or nan,
      warns, goes on with it and returns.  No real number stands for such a
      float, so the model ends the run there with [non_finite], which is not
      an exception; a run that ends in [Ok] is a run in which no such float
      arose.
    - The Mesh Engine ([bpy]) is outside the repository.  Its geometry
      kernels (primitives, bevel, boolean, weld, extrude, resize, the action
      of a rotation on a point) are the fields of a record [Engine] and every
      theorem holds for all engines.  The operators that create an entity,
      change its mesh data or bake its transform are also appended to a
      chronological call log.  The operators that only change the mode or
      the selection ([bpy.ops.object.mode_set], [bpy.ops.object.select_all],
      [bpy.ops.mesh.select_mode], [bpy.ops.mesh.select_all]) are not logged:
      their effect on the [select] flags is part of the state.
    - Random draws ([np.random.uniform], [random.choice]) are read from an
      oracle carried in the state.
    - A method of [BlenderObjectReference] is a computation over the entity
      the reference points to.  The source invokes every operator either
      right after creating the entity or inside [self.selected(...)], which
      makes [self] the active entity and restores the previous selection on
      exit, so operators always act on [self]; the object-level selection is
      therefore not part of the state.  The per-vertex and per-edge [select]
      flags are. *)

From Stdlib Require Import Reals List Lra Lia Bool.
Import ListNotations.
Open Scope R_scope.

(** ** Numbers and vectors *)

Definition BLENDER_EPS : R := 1e-5.

Definition ltb (a b : R) : bool := if Rlt_dec a b then true else false.
Definition eqb0 (a : R) : bool := if Req_dec_T a 0 then true else false.

(** [mathutils.Vector] with three components. *)
Record Vector := vec { vx : R; vy : R; vz : R }.

Definition vadd (a b : Vector) : Vector := vec (vx a + vx b) (vy a + vy b) (vz a + vz b).
Definition vsub (a b : Vector) : Vector := vec (vx a - vx b) (vy a - vy b) (vz a - vz b).
Definition vmul (a b : Vector) : Vector := vec (vx a * vx b) (vy a * vy b) (vz a * vz b).
Definition vdiv (a : Vector) (k : R) : Vector := vec (vx a / k) (vy a / k) (vz a / k).
Definition vscale (k : R) (a : Vector) : Vector := vec (k * vx a) (k * vy a) (k * vz a).

(** [Vector.length] *)
Definition length (a : Vector) : R := sqrt (vx a * vx a + vy a * vy a + vz a * vz a).

(** [np.hypot], also the length of a two-component vector. *)
Definition hypot (a b : R) : R := sqrt (a * a + b * b).

(** Python's [max] over the three components of a vector. *)
Definition max3 (a : Vector) : R := Rmax (vx a) (Rmax (vy a) (vz a)).

(** Largest and smallest element of a non-empty sequence [a :: l]. *)
Definition max_of (a : R) (l : list R) : R := fold_right Rmax a l.
Definition min_of (a : R) (l : list R) : R := fold_right Rmin a l.

(** Indices of the elements of [l] that satisfy [p], in order. *)
Fixpoint indices_from {A : Type} (i : nat) (p : A -> bool) (l : list A) : list nat :=
  match l with
  | [] => []
  | a :: l' => if p a then i :: indices_from (S i) p l' else indices_from (S i) p l'
  end.
Definition indices_where {A : Type} (p : A -> bool) (l : list A) : list nat :=
  indices_from 0%nat p l.

(** ** Mesh data *)

Record MeshVertex := mkVertex { co : Vector; select : bool }.
Record MeshEdge := mkEdge { edge_vertices : nat * nat; edge_select : bool }.
Record Mesh := mkMesh {
  vertices : list MeshVertex;
  edges : list MeshEdge;
  polygons : list (list nat)
}.

Definition coords (m : Mesh) : list Vector := map co (vertices m).

Definition map_co (f : Vector -> Vector) (m : Mesh) : Mesh :=
  mkMesh (map (fun v => mkVertex (f (co v)) (select v)) (vertices m))
         (edges m) (polygons m).

Definition selected_vertices (m : Mesh) : list nat := indices_where select (vertices m).
Definition selected_edges (m : Mesh) : list nat := indices_where edge_select (edges m).

(** ** Entities of the engine *)

Inductive RotationMode := XYZ | QUATERNION.

(** Orientation of an entity, as last assigned.  The engine converts the
    stored values when [rotation_mode] changes, so the orientation itself
    does not depend on the mode. *)
Inductive Rotation :=
| rotation_euler (angles : Vector)
| rotation_quaternion (w qx qy qz : R).

Definition identity_rotation : Rotation := rotation_euler (vec 0 0 0).

Record BlenderObject := mkObject {
  data : Mesh;
  ob_location : Vector;
  rotation_mode : RotationMode;
  ob_rotation : Rotation;
  ob_scale : Vector
}.

Definition new_object (m : Mesh) : BlenderObject :=
  mkObject m (vec 0 0 0) XYZ identity_rotation (vec 1 1 1).

Definition with_data (m : Mesh) (o : BlenderObject) : BlenderObject :=
  mkObject m (ob_location o) (rotation_mode o) (ob_rotation o) (ob_scale o).
Definition with_location (v : Vector) (o : BlenderObject) : BlenderObject :=
  mkObject (data o) v (rotation_mode o) (ob_rotation o) (ob_scale o).
Definition with_rotation_mode (r : RotationMode) (o : BlenderObject) : BlenderObject :=
  mkObject (data o) (ob_location o) r (ob_rotation o) (ob_scale o).
Definition with_rotation (r : Rotation) (o : BlenderObject) : BlenderObject :=
  mkObject (data o) (ob_location o) (rotation_mode o) r (ob_scale o).
Definition with_scale (v : Vector) (o : BlenderObject) : BlenderObject :=
  mkObject (data o) (ob_location o) (rotation_mode o) (ob_rotation o) v.

(** The local transform is the identity. *)
Definition transform_is_identity (o : BlenderObject) : Prop :=
  ob_location o = vec 0 0 0 /\ ob_rotation o = identity_rotation /\ ob_scale o = vec 1 1 1.

(** ** Operator settings *)

Inductive OffsetType := OFFSET | WIDTH | DEPTH | PERCENT | ABSOLUTE.
Inductive Affect := VERTICES | EDGES.
Inductive BooleanOperation := INTERSECT | DIFFERENCE | UNION.

(** Settings of a bevel modifier; [None] is a property the source leaves at
    the engine's default. *)
Record BevelModifier := mkBevelModifier {
  offset_type : option OffsetType;
  width : option R;
  width_pct : option R;
  segments : option nat
}.

(** Keyword arguments of [bpy.ops.mesh.bevel]; [None] is an argument the
    source does not pass. *)
Record BevelOperator := mkBevelOperator {
  bo_affect : option Affect;
  bo_offset_type : option OffsetType;
  bo_offset : option R;
  bo_offset_pct : option R;
  bo_segments : option nat;
  bo_clamp_overlap : option bool
}.

(** One entry of the call log.  Edit-mode operators record the indices of
    the vertices and edges that were selected when they ran, and
    [transform_apply] the local transform it baked. *)
Inductive Call :=
| primitive_ico_sphere_add (subdivisions : nat) (radius : R)
| primitive_cube_add (size : R)
| primitive_cylinder_add (n_vertices : nat) (radius depth : R)
| primitive_circle_add (n_vertices : nat) (radius : R)
| object_transform_apply (location : Vector) (rotation : Rotation) (scale : Vector)
| object_modifier_bevel (settings : BevelModifier)
| object_modifier_boolean (operation : BooleanOperation) (other : Mesh)
| object_duplicate
| mesh_bevel (sel_vertices sel_edges : list nat) (settings : BevelOperator)
| mesh_remove_doubles
| mesh_extrude_region_move (sel_vertices : list nat) (value : Vector)
| transform_translate (sel_vertices : list nat) (value : Vector)
| transform_resize (sel_vertices : list nat) (value : Vector).

(** ** The Mesh Engine

    Modelled from the spec: section 6 lists the capabilities the core
    consumes from the Mesh Engine, which is not part of the repository.  The
    kernels below are left abstract; [rotate_vector_identity] is the one law
    assumed of them. *)
Record Engine := mkEngine {
  ico_sphere : nat -> R -> Mesh;
  cube : R -> Mesh;
  cylinder : nat -> R -> R -> Mesh;
  circle : nat -> R -> Mesh;
  rotate_vector : Rotation -> Vector -> Vector;
  rotate_vector_identity : forall v, rotate_vector identity_rotation v = v;
  bevel_modifier : BevelModifier -> Mesh -> Mesh;
  boolean_modifier : BooleanOperation -> Mesh -> Mesh -> Mesh;
  bevel : BevelOperator -> Mesh -> Mesh;
  remove_doubles : Mesh -> Mesh;
  extrude_region : Vector -> Mesh -> Mesh;
  resize : Vector -> Mesh -> Mesh
}.

(** ** State, exceptions and the monad *)

Inductive Exception :=
| ZeroDivisionError   (* Python float division by zero *)
| ValueError          (* max() of an empty sequence *)
| IndexError          (* index out of range, choice from an empty sequence *)
| ReferenceError.     (* handle of an entity that is not in the scene *)

(** Why a run of the model ends without a result.
    - [raised e]: the source raises [e] at this point.
    - [non_finite]: numpy divided by zero.  The source raises nothing: it
      gets inf or nan, goes on and returns a shape with such coordinates.
      The model, whose numbers are reals, does not follow the run further.
    - [out_of_draws]: the oracle is exhausted.  The source's generator never
      runs out; a loop of the source that rejects every draw, and so never
      ends, shows as this on every oracle. *)
Inductive Halt :=
| raised (e : Exception)
| non_finite
| out_of_draws.

(** The state: what the computation is focused on (one entity for a method
    of [BlenderObjectReference], all entities of the scene for [Scene]), the
    call log and the random oracle. *)
Record World (X : Type) := mkWorld {
  focus : X;
  calls : list Call;
  uniforms : list R;    (* pending draws of [random_sample], each in [0,1) *)
  choices : list nat    (* pending draws of [random.choice] *)
}.
Arguments mkWorld {X}.
Arguments focus {X}.
Arguments calls {X}.
Arguments uniforms {X}.
Arguments choices {X}.

Inductive Outcome (X A : Type) :=
| Ok (a : A) (w : World X)
| Stop (h : Halt).
Arguments Ok {X A}.
Arguments Stop {X A}.

Definition M (X A : Type) : Type := World X -> Outcome X A.

Definition ret {X A : Type} (a : A) : M X A := fun w => Ok a w.
Definition bind {X A B : Type} (c : M X A) (k : A -> M X B) : M X B :=
  fun w => match c w with
           | Ok a w' => k a w'
           | Stop h => Stop h
           end.
Definition raise {X A : Type} (e : Exception) : M X A := fun _ => Stop (raised e).
Definition leave_reals {X A : Type} : M X A := fun _ => Stop non_finite.

Notation "x <- c1 ;; c2" := (bind c1 (fun x => c2))
  (at level 61, c1 at next level, right associativity).
Notation "c1 ;; c2" := (bind c1 (fun _ => c2))
  (at level 61, right associativity).

Definition get {X : Type} : M X X := fun w => Ok (focus w) w.
Definition modify {X : Type} (f : X -> X) : M X unit :=
  fun w => Ok tt (mkWorld (f (focus w)) (calls w) (uniforms w) (choices w)).
Definition log {X : Type} (c : Call) : M X unit :=
  fun w => Ok tt (mkWorld (focus w) (calls w ++ [c]) (uniforms w) (choices w)).

(** One draw of [random_sample]. *)
Definition random_sample {X : Type} : M X R :=
  fun w => match uniforms w with
           | u :: rest => Ok u (mkWorld (focus w) (calls w) rest (choices w))
           | [] => Stop out_of_draws
           end.

(** [np.random.uniform(low, high)] on scalars: [low + (high - low) * u]. *)
Definition uniform {X : Type} (low high : R) : M X R :=
  u <- random_sample ;; ret (low + (high - low) * u).

(** [np.random.uniform(low, high)] on three-component vectors. *)
Definition uniform_of (low high : Vector) (u1 u2 u3 : R) : Vector :=
  vec (vx low + (vx high - vx low) * u1)
      (vy low + (vy high - vy low) * u2)
      (vz low + (vz high - vz low) * u3).
Definition uniform3 {X : Type} (low high : Vector) : M X Vector :=
  u1 <- random_sample ;; u2 <- random_sample ;; u3 <- random_sample ;;
  ret (uniform_of low high u1 u2 u3).

(** [random.choice(seq)] *)
Definition choice {X A : Type} (seq : list A) : M X A :=
  fun w => match seq with
           | [] => Stop (raised IndexError)
           | a :: _ =>
               match choices w with
               | n :: rest =>
                   Ok (nth (n mod List.length seq) seq a)
                      (mkWorld (focus w) (calls w) (uniforms w) rest)
               | [] => Stop out_of_draws
               end
           end.

(** [a / b] on Python floats: [ZeroDivisionError] on a zero divisor. *)
Definition pydiv {X : Type} (a b : R) : M X R :=
  if eqb0 b then raise ZeroDivisionError else ret (a / b).
(** [a / b] where [b] is a numpy float: on a zero divisor the source gets
    inf or nan and goes on; the model leaves the reals. *)
Definition npdiv {X : Type} (a b : R) : M X R :=
  if eqb0 b then leave_reals else ret (a / b).

(** ** blender.py: [BlenderObjectReference] *)

Module blender.
Section WithEngine.
Variable E : Engine.

(** A method of a reference: a computation over the referenced entity. *)
Definition ObjM (A : Type) : Type := M BlenderObject A.

(** Modelled from the spec: the engine's [bound_box], the axis-aligned box
    around the vertices in the local frame (section 3).  The two opposite
    corners first; an entity without vertices is given a box at the
    origin. *)
Definition bound_min (o : BlenderObject) : Vector :=
  match coords (data o) with
  | [] => vec 0 0 0
  | p :: ps => vec (min_of (vx p) (map vx ps)) (min_of (vy p) (map vy ps))
                   (min_of (vz p) (map vz ps))
  end.
Definition bound_max (o : BlenderObject) : Vector :=
  match coords (data o) with
  | [] => vec 0 0 0
  | p :: ps => vec (max_of (vx p) (map vx ps)) (max_of (vy p) (map vy ps))
                   (max_of (vz p) (map vz ps))
  end.

(** [bounding_box]: the eight corners, in the engine's order. *)
Definition bounding_box (o : BlenderObject) : list Vector :=
  let a := bound_min o in
  let b := bound_max o in
  [ vec (vx a) (vy a) (vz a); vec (vx a) (vy a) (vz b);
    vec (vx a) (vy b) (vz b); vec (vx a) (vy b) (vz a);
    vec (vx b) (vy a) (vz a); vec (vx b) (vy a) (vz b);
    vec (vx b) (vy b) (vz b); vec (vx b) (vy b) (vz a) ].

(** Modelled from the spec: the engine's [dimensions], the extents of the
    bounding box (section 3). *)
Definition dimensions (o : BlenderObject) : Vector :=
  vsub (bound_max o) (bound_min o).

(** [location]: bounding box center. *)
Definition location (o : BlenderObject) : Vector :=
  vadd (nth 0 (bounding_box o) (vec 0 0 0)) (vdiv (dimensions o) 2).

(** Modelled from the spec: [bpy.ops.object.transform_apply] bakes location,
    rotation and scale into the vertex coordinates and resets the local
    transform (section 6, transform application). *)
Definition transform_apply (o : BlenderObject) : BlenderObject :=
  mkObject
    (map_co (fun p => vadd (ob_location o)
                        (rotate_vector E (ob_rotation o) (vmul (ob_scale o) p)))
            (data o))
    (vec 0 0 0) (rotation_mode o) identity_rotation (vec 1 1 1).

Definition apply_all_transforms : ObjM unit :=
  o <- get ;;
  log (object_transform_apply (ob_location o) (ob_rotation o) (ob_scale o)) ;;
  modify transform_apply.

Definition translate (transation_vector : Vector) : ObjM unit :=
  modify (with_location transation_vector) ;;
  apply_all_transforms.

Definition rotate (euler_angles : option Vector)
    (quaternion : option (R * R * R * R)) : ObjM unit :=
  o <- get ;;
  let rotation_mode_init := rotation_mode o in
  match euler_angles, quaternion with
  | Some angles, _ =>
      modify (with_rotation_mode XYZ) ;;
      modify (with_rotation (rotation_euler angles))
  | None, Some (w, qx, qy, qz) =>
      modify (with_rotation_mode QUATERNION) ;;
      modify (with_rotation (rotation_quaternion w qx qy qz))
  | None, None => ret tt
  end ;;
  modify (with_rotation_mode rotation_mode_init) ;;
  apply_all_transforms.

(** The argument of [scale]: a number or a vector. *)
Inductive ScaleVector := scalar (s : R) | vector (v : Vector).

Definition scale (scale_vector : ScaleVector) : ObjM unit :=
  let scale_vector :=
    match scale_vector with
    | scalar s => vec s s s
    | vector v => v
    end in
  modify (with_scale scale_vector) ;;
  apply_all_transforms.

Definition enclosing_sphere_diameter : ObjM R :=
  o <- get ;;
  let distances :=
    map (fun v => length (vsub (co v) (location o))) (vertices (data o)) in
  match distances with
  | [] => raise ValueError
  | d :: ds => ret (2 * max_of d ds)
  end.

(** Redrawing the shift until the object fits: the [while] loop of
    [position_randomly], three draws per round. *)
Fixpoint redraw (fits : Vector -> bool) (low high shift : Vector)
    (draws : list R) : option (Vector * list R) :=
  if fits shift then Some (shift, draws)
  else match draws with
       | u1 :: u2 :: u3 :: rest => redraw fits low high (uniform_of low high u1 u2 u3) rest
       | _ => None
       end.

Definition point_fits_in_cylinder (cylinder_axis : R * R) (cylinder_radius : R)
    (point : Vector) : bool :=
  ltb (hypot (vy point - fst cylinder_axis) (vz point - snd cylinder_axis))
      cylinder_radius.

Definition position_randomly (bounding_box : R * R * R * R * R * R)
    (fit_in_cylinder : bool) : ObjM Vector :=
  let '(x_min, x_max, y_min, y_max, z_min, z_max) := bounding_box in
  o <- get ;;
  let min_shift := vsub (vec x_min y_min z_min)
                        (vsub (location o) (vdiv (dimensions o) 2)) in
  let max_shift := vsub (vec x_max y_max z_max)
                        (vadd (location o) (vdiv (dimensions o) 2)) in
  shift <- uniform3 min_shift max_shift ;;
  shift <- (if fit_in_cylinder then
              let cylinder_radius := Rmax (y_max - y_min) (z_max - z_min) in
              let cylinder_axis := ((y_min + y_max) / 2, (z_min + z_max) / 2) in
              let objects_fits_in_cylinder shift :=
                forallb (fun v => point_fits_in_cylinder cylinder_axis cylinder_radius
                                    (vadd (co v) shift))
                        (vertices (data o)) in
              fun w =>
                match redraw objects_fits_in_cylinder min_shift max_shift shift
                        (uniforms w) with
                | Some (shift, rest) =>
                    Ok shift (mkWorld (focus w) (calls w) rest (choices w))
                | None => Stop out_of_draws
                end
            else ret shift) ;;
  translate shift ;;
  ret shift.

(** [rotation_quaternion /= np.linalg.norm(rotation_quaternion)] is a numpy
    division.  On four zero draws the source gets a quaternion of nan,
    rotates by it and returns it; the model leaves the reals there. *)
Definition apply_random_rotation : ObjM (R * R * R * R) :=
  w <- uniform 0 1 ;; qx <- uniform 0 1 ;; qy <- uniform 0 1 ;; qz <- uniform 0 1 ;;
  let norm := sqrt (w * w + qx * qx + qy * qy + qz * qz) in
  if eqb0 norm then leave_reals
  else
    let rotation_quaternion := (w / norm, qx / norm, qy / norm, qz / norm) in
    rotate None (Some rotation_quaternion) ;;
    ret rotation_quaternion.

(** [bpy.ops.mesh.select_all] in edit mode. *)
Definition mesh_select_all (flag : bool) (m : Mesh) : Mesh :=
  mkMesh (map (fun v => mkVertex (co v) flag) (vertices m))
         (map (fun e => mkEdge (edge_vertices e) flag) (edges m))
         (polygons m).

Definition clear_selection : ObjM unit :=
  modify (fun o => with_data (mesh_select_all false (data o)) o).

(** [bpy.ops.mesh.select_mode(type='VERT')] and
    [bpy.ops.mesh.select_all(action='DESELECT')] change flags only: they
    show in the state and not in the call log. *)
Definition select_vertices (criterion_func : MeshVertex -> bool) : ObjM unit :=
  modify (fun o => with_data (mesh_select_all false (data o)) o) ;;
  modify (fun o =>
    with_data
      (mkMesh (map (fun vertex => if criterion_func vertex
                                  then mkVertex (co vertex) true else vertex)
                   (vertices (data o)))
              (edges (data o)) (polygons (data o)))
      o).

(** The loop of [select_edges]; the criterion may raise [IndexError]. *)
Fixpoint mark_edges (criterion_func : MeshEdge -> option bool)
    (l : list MeshEdge) : option (list MeshEdge) :=
  match l with
  | [] => Some []
  | edge :: l' =>
      match criterion_func edge with
      | None => None
      | Some b =>
          match mark_edges criterion_func l' with
          | None => None
          | Some r => Some ((if b then mkEdge (edge_vertices edge) true else edge) :: r)
          end
      end
  end.

(** The criterion is a closure over [self]: it is given the entity.
    [bpy.ops.mesh.select_mode(type='EDGE')] and
    [bpy.ops.mesh.select_all(action='DESELECT')] change flags only: they
    show in the state and not in the call log. *)
Definition select_edges (criterion_func : BlenderObject -> MeshEdge -> option bool)
    : ObjM unit :=
  modify (fun o => with_data (mesh_select_all false (data o)) o) ;;
  o <- get ;;
  match mark_edges (criterion_func o) (edges (data o)) with
  | None => raise IndexError
  | Some marked =>
      modify (fun o => with_data (mkMesh (vertices (data o)) marked (polygons (data o))) o)
  end.

Definition remove_duplicate_vertices : ObjM unit :=
  modify (fun o => with_data (mesh_select_all true (data o)) o) ;;
  log mesh_remove_doubles ;;
  modify (fun o => with_data (remove_doubles E (data o)) o).

(** [smooth_edges(degree=0.05, n_segments=3)]; every caller passes [degree]
    and leaves [n_segments] at 3. *)
Definition smooth_edges (degree : R) (n_segments : nat) : ObjM unit :=
  o <- get ;;
  let bevel_width := degree * max3 (dimensions o) in
  if ltb bevel_width BLENDER_EPS then ret tt
  else
    let settings := mkBevelModifier None (Some bevel_width) None (Some n_segments) in
    log (object_modifier_bevel settings) ;;
    modify (fun o => with_data (bevel_modifier E settings (data o)) o).

(** [apply_boolean(other, operation)]; [other] is the entity the other
    reference points to at the time of the call. *)
Definition apply_boolean (other : BlenderObject) (operation : BooleanOperation)
    : ObjM unit :=
  log (object_modifier_boolean operation (data other)) ;;
  modify (fun o => with_data (boolean_modifier E operation (data o) (data other)) o).

End WithEngine.
End blender.

(** ** The operators of [bpy.ops] the recipes call directly *)

Module ops.
Section WithEngine.
Variable E : Engine.

Definition ObjM := blender.ObjM.

(** [bpy.ops.mesh.primitive_*_add(...)] followed by
    [BlenderObjectReference.__init__(self, bpy.context.object)]: the
    reference now points to the fresh entity. *)
Definition primitive_add (c : Call) (m : Mesh) : ObjM unit :=
  log c ;;
  modify (fun _ => new_object m).

(** [modifier_add(type='BEVEL')], the assignments to its properties and
    [modifier_apply], as one step. *)
Definition modifier_bevel (settings : BevelModifier) : ObjM unit :=
  log (object_modifier_bevel settings) ;;
  modify (fun o => with_data (bevel_modifier E settings (data o)) o).

(** [bpy.ops.mesh.bevel(...)] on the current selection. *)
Definition mesh_bevel (settings : BevelOperator) : ObjM unit :=
  o <- get ;;
  log (mesh_bevel (selected_vertices (data o)) (selected_edges (data o)) settings) ;;
  modify (fun o => with_data (bevel E settings (data o)) o).

(** [bpy.ops.mesh.extrude_region_move(TRANSFORM_OT_translate={'value': v})] *)
Definition extrude_region_move (value : Vector) : ObjM unit :=
  o <- get ;;
  log (mesh_extrude_region_move (selected_vertices (data o)) value) ;;
  modify (fun o => with_data (extrude_region E value (data o)) o).

(** [bpy.ops.transform.translate(value=v)] in edit mode: the selected
    vertices move by [v]. *)
Definition translate_selected (value : Vector) (m : Mesh) : Mesh :=
  mkMesh (map (fun v => if select v then mkVertex (vadd (co v) value) true else v)
              (vertices m))
         (edges m) (polygons m).
Definition transform_translate (value : Vector) : ObjM unit :=
  o <- get ;;
  log (transform_translate (selected_vertices (data o)) value) ;;
  modify (fun o => with_data (translate_selected value (data o)) o).

(** [bpy.ops.transform.resize(value=v)] in edit mode. *)
Definition transform_resize (value : Vector) : ObjM unit :=
  o <- get ;;
  log (transform_resize (selected_vertices (data o)) value) ;;
  modify (fun o => with_data (resize E value (data o)) o).

End WithEngine.
End ops.

(** ** shapes/basic.py *)

Module basic.
Section WithEngine.
Variable E : Engine.

Import blender.
Definition ObjM := blender.ObjM.

Definition Ellipsoid (dimensions : ScaleVector) (subdivisions : nat) : ObjM unit :=
  let dimensions :=
    match dimensions with
    | scalar d => vector (vec d d d)
    | vector v => vector v
    end in
  ops.primitive_add (primitive_ico_sphere_add subdivisions 0.5)
                    (ico_sphere E subdivisions 0.5) ;;
  scale E dimensions.

Definition Box (dimensions : ScaleVector) : ObjM unit :=
  let dimensions :=
    match dimensions with
    | scalar d => vector (vec d d d)
    | vector v => vector v
    end in
  ops.primitive_add (primitive_cube_add 1) (cube E 1) ;;
  scale E dimensions.

Definition Cylinder (diameter height : R) (n_vertices : nat) : ObjM unit :=
  ops.primitive_add (primitive_cylinder_add n_vertices (diameter / 2) height)
                    (cylinder E n_vertices (diameter / 2) height).

Definition SphericallyCappedCylinder (diameter middle_section_height : R)
    (subdivisions : nat) : ObjM unit :=
  Ellipsoid (scalar diameter) subdivisions ;;
  (* Extrude upper cap *)
  select_vertices (fun v => ltb (- BLENDER_EPS) (vz (co v))) ;;
  ops.extrude_region_move E (vec 0 0 (middle_section_height / 2)) ;;
  (* Move lower cap *)
  select_vertices (fun v => ltb (vz (co v)) BLENDER_EPS) ;;
  ops.transform_translate (vec 0 0 (- middle_section_height / 2)).

Definition Octahedron (size truncation_degree : R) : ObjM unit :=
  ops.primitive_add (primitive_cube_add 1) (cube E 1) ;;
  ops.modifier_bevel E (mkBevelModifier (Some PERCENT) None (Some 100) None) ;;
  remove_duplicate_vertices E ;;
  (if ltb 0 truncation_degree then
     let truncation_degree := truncation_degree / 3 in
     ops.modifier_bevel E
       (mkBevelModifier (Some PERCENT) None (Some (100 * truncation_degree)) None) ;;
     remove_duplicate_vertices E
   else ret tt) ;;
  (* Adjust object size after truncation *)
  d <- enclosing_sphere_diameter ;;
  k <- pydiv size d ;;
  scale E (scalar k).

Definition Icosahedron (size : R) : ObjM unit :=
  ops.primitive_add (primitive_ico_sphere_add 1 (size / 2))
                    (ico_sphere E 1 (size / 2)).

(** The closure [is_edge_vertical] of [Prism.__init__]; [None] is an
    [IndexError] on [self.vertices]. *)
Definition is_edge_vertical (self : BlenderObject) (edge : MeshEdge) : option bool :=
  let (v1_id, v2_id) := edge_vertices edge in
  match nth_error (vertices (data self)) v1_id with
  | None => None
  | Some v1 =>
      match nth_error (vertices (data self)) v2_id with
      | None => None
      | Some v2 =>
          Some (ltb (Rabs (vx (co v2) - vx (co v1))) BLENDER_EPS
                && ltb (Rabs (vy (co v2) - vy (co v1))) BLENDER_EPS)
      end
  end.

Definition Prism (n_sides : nat) (size height truncation_degree
    tips_smoothing_degree edges_smoothing_degree : R)
    (smoothing_bevel_segments : nat) : ObjM unit :=
  ops.primitive_add (primitive_cylinder_add n_sides (size / 2) height)
                    (cylinder E n_sides (size / 2) height) ;;
  (if ltb 0 truncation_degree then
     select_edges is_edge_vertical ;;
     let truncation_degree := truncation_degree * 0.5 in
     ops.mesh_bevel E
       (mkBevelOperator None (Some PERCENT) None (Some (100 * truncation_degree))
                        None (Some true)) ;;
     remove_duplicate_vertices E
   else ret tt) ;;
  (* Smooth tips and horizontal edges separately because of high anisotropy *)
  (if ltb 0 tips_smoothing_degree then
     select_edges is_edge_vertical ;;
     o <- get ;;
     ops.mesh_bevel E
       (mkBevelOperator None None (Some (tips_smoothing_degree * vx (dimensions o)))
                        None (Some smoothing_bevel_segments) (Some true)) ;;
     remove_duplicate_vertices E
   else ret tt) ;;
  (if ltb 0 edges_smoothing_degree then
     select_edges (fun self x => option_map negb (is_edge_vertical self x)) ;;
     o <- get ;;
     ops.mesh_bevel E
       (mkBevelOperator None None (Some (edges_smoothing_degree * vz (dimensions o)))
                        None (Some smoothing_bevel_segments) (Some true)) ;;
     remove_duplicate_vertices E
   else ret tt) ;;
  (* Adjust object size after truncation *)
  o <- get ;;
  k <- npdiv size (hypot (vx (dimensions o)) (vy (dimensions o))) ;;
  scale E (scalar k).

Definition is_vertex_out_of_plane (vertex : MeshVertex) : bool :=
  ltb BLENDER_EPS (Rabs (vz (co vertex))).

Definition Bipyramid (n_sides : nat) (diameter height tips_truncation_degree : R)
    : ObjM unit :=
  ops.primitive_add (primitive_circle_add n_sides (diameter / 2))
                    (circle E n_sides (diameter / 2)) ;;
  modify (fun o => with_data (mesh_select_all true (data o)) o) ;;
  (* Upper half *)
  ops.extrude_region_move E (vec 0 0 (height / 2)) ;;
  (* Bring all extruded vertices together on the axis *)
  ops.transform_resize E (vec 0 0 0) ;;
  (* Lower half *)
  select_vertices (fun v => ltb (vz (co v)) BLENDER_EPS) ;;
  ops.extrude_region_move E (vec 0 0 (- height / 2)) ;;
  ops.transform_resize E (vec 0 0 0) ;;
  remove_duplicate_vertices E ;;
  if ltb 0 tips_truncation_degree then
    select_vertices is_vertex_out_of_plane ;;
    o <- get ;;
    let bevel_width := tips_truncation_degree * max3 (dimensions o) in
    if ltb bevel_width BLENDER_EPS then ret tt
    else
      ops.mesh_bevel E
        (mkBevelOperator (Some VERTICES) (Some WIDTH) (Some bevel_width) None
                         (Some 1%nat) (Some true)) ;;
      remove_duplicate_vertices E
  else ret tt.

End WithEngine.
End basic.

(** ** shapes/fcc.py *)

Module fcc.
Section WithEngine.
Variable E : Engine.

Import blender.
Definition ObjM := blender.ObjM.

Definition Sphere (diameter : R) : ObjM unit :=
  basic.Ellipsoid E (scalar diameter) 5.

Definition Cube (size smoothing_degree : R) : ObjM unit :=
  basic.Box E (scalar size) ;;
  smooth_edges E smoothing_degree 3 ;;
  o <- get ;;
  k <- pydiv size (max3 (dimensions o)) ;;
  scale E (scalar k).

Definition Rod (height diameter : R) : ObjM unit :=
  let middle_section_height := height - diameter in
  basic.SphericallyCappedCylinder E diameter middle_section_height 5.

Definition Octahedron (size smoothing_degree : R) : ObjM unit :=
  basic.Octahedron E size 0 ;;
  smooth_edges E smoothing_degree 3 ;;
  d <- enclosing_sphere_diameter ;;
  k <- pydiv size d ;;
  scale E (scalar k).

Definition TruncatedOctahedron (size truncation_degree smoothing_degree : R)
    : ObjM unit :=
  basic.Octahedron E size truncation_degree ;;
  smooth_edges E smoothing_degree 3 ;;
  d <- enclosing_sphere_diameter ;;
  k <- pydiv size d ;;
  scale E (scalar k).

Definition Icosahedron (size smoothing_degree : R) : ObjM unit :=
  basic.Icosahedron E size ;;
  smooth_edges E smoothing_degree 3 ;;
  d <- enclosing_sphere_diameter ;;
  k <- pydiv size d ;;
  scale E (scalar k).

Definition Triangle (size height tips_smoothing_degree edges_smoothing_degree : R)
    : ObjM unit :=
  let n_sides := 3%nat in
  let truncation_degree := 0 in
  basic.Prism E n_sides size height truncation_degree tips_smoothing_degree
              edges_smoothing_degree 3 ;;
  o <- get ;;
  k <- npdiv size (hypot (vx (dimensions o)) (vy (dimensions o))) ;;
  scale E (scalar k).

Definition TruncatedTriangle (size height truncation_degree tips_smoothing_degree
    edges_smoothing_degree : R) : ObjM unit :=
  let n_sides := 3%nat in
  basic.Prism E n_sides size height truncation_degree tips_smoothing_degree
              edges_smoothing_degree 3.

Definition Square (size height truncation_degree tips_smoothing_degree
    edges_smoothing_degree : R) : ObjM unit :=
  let n_sides := 4%nat in
  basic.Prism E n_sides size height truncation_degree tips_smoothing_degree
              edges_smoothing_degree 3.

Definition Hexagon (size height truncation_degree tips_smoothing_degree
    edges_smoothing_degree : R) : ObjM unit :=
  let n_sides := 6%nat in
  basic.Prism E n_sides size height truncation_degree tips_smoothing_degree
              edges_smoothing_degree 3.

(** Oblate pentagonal bipyramid defined by {111} FCC lattice planes. *)
Definition Decahedron (size smoothing_degree : R) : ObjM unit :=
  let n_sides := 5%nat in
  let height := 1.547 * size / 2 in
  basic.Bipyramid E n_sides size height 0 ;;
  smooth_edges E smoothing_degree 3 ;;
  o <- get ;;
  k <- npdiv size (hypot (vx (dimensions o)) (vy (dimensions o))) ;;
  scale E (scalar k).

(** Typical Au pentagonal bipyramid (tip angle ~30 deg). *)
Definition Bipyramid (height tips_truncation_degree smoothing_degree : R)
    : ObjM unit :=
  let n_sides := 5%nat in
  let diameter := height / 3.7321 in
  basic.Bipyramid E n_sides diameter height tips_truncation_degree ;;
  smooth_edges E smoothing_degree 3 ;;
  o <- get ;;
  k <- pydiv height (vz (dimensions o)) ;;
  scale E (scalar k).

End WithEngine.
End fcc.

(** A shape package: the two tuples of zero-argument constructors a module
    of shapes exports. *)
Record ShapePackage := mkShapePackage {
  ALL_SHAPES : list (blender.ObjM unit);
  CORE_SHELL_SUITABLE_SHAPES : list (blender.ObjM unit)
}.

(** ** shapes/randomized/fcc.py *)

Module randomized.
Section WithEngine.
Variable E : Engine.

Definition ObjM := blender.ObjM.

Definition Sphere : ObjM unit :=
  fcc.Sphere E 1.0.

Definition Cube : ObjM unit :=
  let size := 1.0 in
  smoothing_degree <- uniform 0.0 0.1 ;;
  fcc.Cube E size smoothing_degree.

Definition Rod : ObjM unit :=
  let height := 1.0 in
  diameter <- uniform 0.25 1.0 ;;
  fcc.Rod E height diameter.

Definition Octahedron : ObjM unit :=
  let size := 1.0 in
  smoothing_degree <- uniform 0.0 0.1 ;;
  fcc.Octahedron E size smoothing_degree.

Definition TruncatedOctahedron : ObjM unit :=
  let size := 1.0 in
  truncation_degree <- uniform 0.0 1.0 ;;
  smoothing_degree <- uniform 0.0 0.1 ;;
  fcc.TruncatedOctahedron E size truncation_degree smoothing_degree.

Definition Icosahedron : ObjM unit :=
  let size := 1.0 in
  smoothing_degree <- uniform 0.0 0.1 ;;
  fcc.Icosahedron E size smoothing_degree.

Definition Triangle : ObjM unit :=
  let size := 1.0 in
  height <- uniform 0.1 0.3 ;;
  tips_smoothing_degree <- uniform 0.0 0.1 ;;
  edges_smoothing_degree <- uniform 0.0 0.1 ;;
  fcc.Triangle E size height tips_smoothing_degree edges_smoothing_degree.

Definition TruncatedTriangle : ObjM unit :=
  let size := 1.0 in
  height <- uniform 0.1 0.3 ;;
  truncation_degree <- uniform 0.0 1.0 ;;
  tips_smoothing_degree <- uniform 0.0 0.1 ;;
  edges_smoothing_degree <- uniform 0.0 0.1 ;;
  fcc.TruncatedTriangle E size height truncation_degree tips_smoothing_degree
                        edges_smoothing_degree.

Definition Square : ObjM unit :=
  let size := 1.0 in
  height <- uniform 0.1 0.3 ;;
  let truncation_degree := 0.0 in
  tips_smoothing_degree <- uniform 0.0 0.1 ;;
  edges_smoothing_degree <- uniform 0.0 0.1 ;;
  fcc.Square E size height truncation_degree tips_smoothing_degree
             edges_smoothing_degree.

Definition Hexagon : ObjM unit :=
  let size := 1.0 in
  height <- uniform 0.1 0.3 ;;
  let truncation_degree := 0.0 in
  tips_smoothing_degree <- uniform 0.0 0.1 ;;
  edges_smoothing_degree <- uniform 0.0 0.1 ;;
  fcc.Hexagon E size height truncation_degree tips_smoothing_degree
              edges_smoothing_degree.

Definition Decahedron : ObjM unit :=
  let size := 1.0 in
  smoothing_degree <- uniform 0.0 0.1 ;;
  fcc.Decahedron E size smoothing_degree.

Definition Bipyramid : ObjM unit :=
  let height := 1.0 in
  smoothing_degree <- uniform 0.0 0.1 ;;
  fcc.Bipyramid E height smoothing_degree smoothing_degree.

Definition package : ShapePackage :=
  mkShapePackage
    [Sphere; Cube; Rod; Octahedron; TruncatedOctahedron; Icosahedron;
     Triangle; TruncatedTriangle; Square; Hexagon; Decahedron; Bipyramid]
    [Sphere; Cube; Rod; Octahedron; TruncatedOctahedron; Icosahedron;
     Decahedron; Bipyramid].

End WithEngine.
End randomized.

(** ** scene_building.py *)

Module scene_building.
Section WithEngine.
Variable E : Engine.

Import blender.

(** A method of [Scene]: a computation over the entities of the engine's
    scene.  A [BlenderObjectReference] held in a local variable is the index
    of its entity. *)
Definition SceneM (A : Type) : Type := M (list BlenderObject) A.

Record Scene := mkScene { extent : R * R * R * R * R * R }.

(** [Cls()]: the constructor runs on a reference of its own and leaves a new
    entity in the scene. *)
Definition construct (cls : ObjM unit) : SceneM nat :=
  fun w =>
    match cls (mkWorld (new_object (mkMesh [] [] [])) (calls w) (uniforms w) (choices w)) with
    | Ok _ w' =>
        Ok (List.length (focus w))
           (mkWorld (focus w ++ [focus w']) (calls w') (uniforms w') (choices w'))
    | Stop h => Stop h
    end.

(** Replace the entity at index [h]. *)
Fixpoint store (h : nat) (o : BlenderObject) (l : list BlenderObject)
    : list BlenderObject :=
  match l, h with
  | [], _ => []
  | _ :: l', O => o :: l'
  | a :: l', S h' => a :: store h' o l'
  end.

(** [ref.method(...)]: run a method on the entity of the reference [h]. *)
Definition on {A : Type} (h : nat) (method : ObjM A) : SceneM A :=
  fun w =>
    match nth_error (focus w) h with
    | None => Stop (raised ReferenceError)
    | Some o =>
        match method (mkWorld o (calls w) (uniforms w) (choices w)) with
        | Ok a w' =>
            Ok a (mkWorld (store h (focus w') (focus w)) (calls w') (uniforms w')
                          (choices w'))
        | Stop h => Stop h
        end
    end.

(** The entity a reference points to. *)
Definition entity (h : nat) : SceneM BlenderObject :=
  fun w =>
    match nth_error (focus w) h with
    | None => Stop (raised ReferenceError)
    | Some o => Ok o w
    end.

(** [BlenderObjectReference.copy]: [bpy.ops.object.duplicate()] adds a
    duplicate to the scene; the result refers to it. *)
Definition copy (h : nat) : SceneM nat :=
  o <- entity h ;;
  log object_duplicate ;;
  l <- get ;;
  modify (fun l => l ++ [o]) ;;
  ret (List.length l).

(** [[0.95*x for x in self.extent]] *)
Definition shrunk (extent : R * R * R * R * R * R) : R * R * R * R * R * R :=
  let '(x_min, x_max, y_min, y_max, z_min, z_max) := extent in
  (0.95 * x_min, 0.95 * x_max, 0.95 * y_min, 0.95 * y_max, 0.95 * z_min, 0.95 * z_max).

Definition add_random_shape (self : Scene) (shape_package : ShapePackage)
    : SceneM nat :=
  cls <- choice (ALL_SHAPES shape_package) ;;
  shape <- construct cls ;;
  on shape (apply_random_rotation E) ;;
  scale_factor <- uniform 0.75 0.9 ;;
  on shape (o <- get ;;
            k <- pydiv scale_factor (max3 (dimensions o)) ;;
            scale E (scalar k)) ;;
  on shape (position_randomly E (shrunk (extent self)) true) ;;
  ret shape.

Definition add_random_core_shell_shape (self : Scene) (shape_package : ShapePackage)
    : SceneM (nat * nat) :=
  cls <- choice (CORE_SHELL_SUITABLE_SHAPES shape_package) ;;
  shell_shape <- construct cls ;;
  shell_rotation_quaternion <- on shell_shape (apply_random_rotation E) ;;
  shell_scale_factor <- uniform 0.75 0.9 ;;
  on shell_shape (o <- get ;;
                  k <- pydiv shell_scale_factor (max3 (dimensions o)) ;;
                  scale E (scalar k)) ;;
  shell_shift <- on shell_shape (position_randomly E (shrunk (extent self)) true) ;;

  cls <- choice (CORE_SHELL_SUITABLE_SHAPES shape_package) ;;
  core_shape <- construct cls ;;
  on core_shape (rotate E None (Some shell_rotation_quaternion)) ;;
  core_scale_factor <- uniform 0.5 0.9 ;;
  shell_diameter <- on shell_shape enclosing_sphere_diameter ;;
  core_diameter <- on core_shape enclosing_sphere_diameter ;;
  k <- pydiv (core_scale_factor * shell_diameter) core_diameter ;;
  on core_shape (scale E (scalar k)) ;;
  on core_shape (translate E shell_shift) ;;

  (* Subtract shapes from each other. Use core copy to avoid boundary artifacts *)
  core_shape_copy <- copy core_shape ;;
  other <- entity shell_shape ;;
  on core_shape (apply_boolean E other INTERSECT) ;;
  other <- entity core_shape_copy ;;
  on shell_shape (apply_boolean E other DIFFERENCE) ;;
  (* del core_shape_copy: the local name is unbound, the entity stays *)
  ret (core_shape, shell_shape).

End WithEngine.
End scene_building.

(** ** A small concrete engine

    A stand-in for the Mesh Engine on which the theorems are exercised.  Its
    primitives are coarse (the "icosphere" has six vertices, every
    "cylinder" and "circle" has four sides, faces are left out), rotations
    do not move anything and bevel, weld and boolean return the mesh
    unchanged. *)

Module toy.

Definition vertex (x y z : R) : MeshVertex := mkVertex (vec x y z) false.
Definition edge (a b : nat) : MeshEdge := mkEdge (a, b) false.

Definition cube (size : R) : Mesh :=
  let h := size / 2 in
  mkMesh
    [ vertex (- h) (- h) (- h); vertex (- h) (- h) h; vertex (- h) h (- h);
      vertex (- h) h h; vertex h (- h) (- h); vertex h (- h) h;
      vertex h h (- h); vertex h h h ]
    [ edge 0 1; edge 2 3; edge 4 5; edge 6 7; edge 0 2; edge 1 3; edge 4 6;
      edge 5 7; edge 0 4; edge 1 5; edge 2 6; edge 3 7 ]
    [].

Definition ico_sphere (subdivisions : nat) (radius : R) : Mesh :=
  mkMesh
    [ vertex 0 0 (- radius); vertex radius 0 0; vertex 0 radius 0;
      vertex (- radius) 0 0; vertex 0 (- radius) 0; vertex 0 0 radius ]
    [ edge 0 1; edge 0 2; edge 0 3; edge 0 4; edge 1 2; edge 2 3; edge 3 4;
      edge 4 1; edge 5 1; edge 5 2; edge 5 3; edge 5 4 ]
    [].

Definition cylinder (n_vertices : nat) (radius depth : R) : Mesh :=
  let h := depth / 2 in
  mkMesh
    [ vertex 0 radius (- h); vertex 0 radius h;
      vertex radius 0 (- h); vertex radius 0 h;
      vertex 0 (- radius) (- h); vertex 0 (- radius) h;
      vertex (- radius) 0 (- h); vertex (- radius) 0 h ]
    [ edge 0 1; edge 2 3; edge 4 5; edge 6 7;
      edge 0 2; edge 2 4; edge 4 6; edge 6 0;
      edge 1 3; edge 3 5; edge 5 7; edge 7 1 ]
    [].

Definition circle (n_vertices : nat) (radius : R) : Mesh :=
  mkMesh
    [ vertex 0 radius 0; vertex radius 0 0; vertex 0 (- radius) 0;
      vertex (- radius) 0 0 ]
    [ edge 0 1; edge 1 2; edge 2 3; edge 3 0 ]
    [].

(** The selected vertices are duplicated, the duplicates move by [value]
    and stay selected. *)
Definition extrude_region (value : Vector) (m : Mesh) : Mesh :=
  mkMesh
    (map (fun v => mkVertex (co v) false) (vertices m)
     ++ map (fun v => mkVertex (vadd (co v) value) true)
            (filter select (vertices m)))
    (edges m) (polygons m).

(** The selected vertices are scaled in the plane. *)
Definition resize (value : Vector) (m : Mesh) : Mesh :=
  mkMesh
    (map (fun v => if select v
                   then mkVertex (vec (vx (co v) * vx value) (vy (co v) * vy value)
                                      (vz (co v))) true
                   else v)
         (vertices m))
    (edges m) (polygons m).

Definition engine : Engine :=
  mkEngine ico_sphere cube cylinder circle
           (fun _ v => v) (fun v => eq_refl)
           (fun _ m => m) (fun _ m _ => m) (fun _ m => m) (fun m => m)
           extrude_region resize.

(** An empty scene reference with a given oracle. *)
Definition start {X : Type} (x : X) (us : list R) (cs : list nat) : World X :=
  mkWorld x [] us cs.

Definition nothing : BlenderObject := new_object (mkMesh [] [] []).

(** An entity with two vertices and the edge between them. *)
Definition segment : BlenderObject :=
  new_object (mkMesh [vertex 0 0 0; vertex 1 1 1] [edge 0 1] []).

End toy.

(** ** Vocabulary of the statements *)

(** The value of the property [enclosing_sphere_diameter] on an entity;
    [None] where the property raises. *)
Definition diameter_of (o : BlenderObject) : option R :=
  match map (fun v => length (vsub (co v) (blender.location o))) (vertices (data o)) with
  | [] => None
  | d :: ds => Some (2 * max_of d ds)
  end.

(** The planar diagonal [np.hypot(dimensions.x, dimensions.y)]. *)
Definition planar_diagonal (o : BlenderObject) : R :=
  hypot (vx (blender.dimensions o)) (vy (blender.dimensions o)).

(** The entity after [scale(k)] on a number [k]. *)
Definition scaled (E : Engine) (k : R) (o : BlenderObject) : BlenderObject :=
  blender.transform_apply E (with_scale (vec k k k) o).

(** The entity after [translate(v)]. *)
Definition translated (E : Engine) (v : Vector) (o : BlenderObject) : BlenderObject :=
  blender.transform_apply E (with_location v o).

(** A computation keeps the local transform at the identity, or leaves it
    there whatever it was before. *)
Definition keeps_identity {A : Type} (c : blender.ObjM A) : Prop :=
  forall w a w', transform_is_identity (focus w) -> c w = Ok a w' ->
                 transform_is_identity (focus w').
Definition sets_identity {A : Type} (c : blender.ObjM A) : Prop :=
  forall w a w', c w = Ok a w' -> transform_is_identity (focus w').

(** The shape families that are rescaled to a nominal size, the parameters
    they take besides it, their builders in [shapes/fcc.py] and the size
    metric each is rescaled by. *)
Module families.

Inductive Family :=
| Cube | Octahedron | TruncatedOctahedron | Icosahedron
| Triangle | TruncatedTriangle | Square | Hexagon
| Decahedron | Bipyramid.

Record Parameters := mkParameters {
  height : R;
  truncation_degree : R;
  smoothing_degree : R;
  tips_smoothing_degree : R;
  edges_smoothing_degree : R;
  tips_truncation_degree : R
}.

(** The builder of a family at nominal size [s] (the [height] of a
    Bipyramid, the [size] of every other family). *)
Definition builder (E : Engine) (f : Family) (s : R) (p : Parameters)
    : blender.ObjM unit :=
  match f with
  | Cube => fcc.Cube E s (smoothing_degree p)
  | Octahedron => fcc.Octahedron E s (smoothing_degree p)
  | TruncatedOctahedron =>
      fcc.TruncatedOctahedron E s (truncation_degree p) (smoothing_degree p)
  | Icosahedron => fcc.Icosahedron E s (smoothing_degree p)
  | Triangle =>
      fcc.Triangle E s (height p) (tips_smoothing_degree p) (edges_smoothing_degree p)
  | TruncatedTriangle =>
      fcc.TruncatedTriangle E s (height p) (truncation_degree p)
        (tips_smoothing_degree p) (edges_smoothing_degree p)
  | Square =>
      fcc.Square E s (height p) (truncation_degree p)
        (tips_smoothing_degree p) (edges_smoothing_degree p)
  | Hexagon =>
      fcc.Hexagon E s (height p) (truncation_degree p)
        (tips_smoothing_degree p) (edges_smoothing_degree p)
  | Decahedron => fcc.Decahedron E s (smoothing_degree p)
  | Bipyramid => fcc.Bipyramid E s (tips_truncation_degree p) (smoothing_degree p)
  end.

(** The designated size metric; [None] where measuring it raises. *)
Definition size_metric (f : Family) (o : BlenderObject) : option R :=
  match f with
  | Cube => Some (max3 (blender.dimensions o))
  | Octahedron | TruncatedOctahedron | Icosahedron => diameter_of o
  | Triangle | TruncatedTriangle | Square | Hexagon | Decahedron =>
      Some (planar_diagonal o)
  | Bipyramid => Some (vz (blender.dimensions o))
  end.

End families.

(** The orientation [rotate] assigns before baking. *)
Definition assigned_rotation (e : option Vector) (q : option (R * R * R * R))
    (r : Rotation) : Rotation :=
  match e, q with
  | Some angles, _ => rotation_euler angles
  | None, Some (w, qx, qy, qz) => rotation_quaternion w qx qy qz
  | None, None => r
  end.

(** The local transform of an entity. *)
Definition transform_of (o : BlenderObject) : Vector * Rotation * Vector :=
  (ob_location o, ob_rotation o, ob_scale o).

(** Every pending draw of [random_sample] lies in [[0, 1)]. *)
Definition unit_draws (us : list R) : Prop := Forall (fun u => 0 <= u < 1) us.

(** The bounding box of an entity lies inside a box given as
    [(x_min, x_max, y_min, y_max, z_min, z_max)]. *)
Definition inside_box (box : R * R * R * R * R * R) (o : BlenderObject) : Prop :=
  let '(x_min, x_max, y_min, y_max, z_min, z_max) := box in
  (x_min <= vx (blender.bound_min o) /\ vx (blender.bound_max o) <= x_max)
  /\ (y_min <= vy (blender.bound_min o) /\ vy (blender.bound_max o) <= y_max)
  /\ (z_min <= vz (blender.bound_min o) /\ vz (blender.bound_max o) <= z_max).

(** The entity is no larger than the box on any axis. *)
Definition fits_box (box : R * R * R * R * R * R) (o : BlenderObject) : Prop :=
  let '(x_min, x_max, y_min, y_max, z_min, z_max) := box in
  vx (blender.dimensions o) <= x_max - x_min
  /\ vy (blender.dimensions o) <= y_max - y_min
  /\ vz (blender.dimensions o) <= z_max - z_min.

(** A point is strictly inside the cylinder [position_randomly] tests
    against. *)
Definition inside_cylinder (box : R * R * R * R * R * R) (p : Vector) : Prop :=
  let '(x_min, x_max, y_min, y_max, z_min, z_max) := box in
  hypot (vy p - (y_min + y_max) / 2) (vz p - (z_min + z_max) / 2)
  < Rmax (y_max - y_min) (z_max - z_min).

(** Componentwise [low <= p <= high]. *)
Definition between (low high p : Vector) : Prop :=
  (vx low <= vx p <= vx high) /\ (vy low <= vy p <= vy high)
  /\ (vz low <= vz p <= vz high).

(** The candidate test of [position_randomly]. *)
Definition objects_fits_in_cylinder (y_min y_max z_min z_max : R)
    (o : BlenderObject) (shift : Vector) : bool :=
  forallb (fun v => blender.point_fits_in_cylinder
                      ((y_min + y_max) / 2, (z_min + z_max) / 2)
                      (Rmax (y_max - y_min) (z_max - z_min))
                      (vadd (co v) shift))
          (vertices (data o)).

Definition min_shift (x_min y_min z_min : R) (o : BlenderObject) : Vector :=
  vsub (vec x_min y_min z_min) (vsub (blender.location o) (vdiv (blender.dimensions o) 2)).
Definition max_shift (x_max y_max z_max : R) (o : BlenderObject) : Vector :=
  vsub (vec x_max y_max z_max) (vadd (blender.location o) (vdiv (blender.dimensions o) 2)).


(** An edge of a mesh is vertical: both endpoints exist and share x and y
    within [BLENDER_EPS]. *)
Definition vertical (m : Mesh) (e : MeshEdge) : Prop :=
  exists v1 v2,
    nth_error (vertices m) (fst (edge_vertices e)) = Some v1
    /\ nth_error (vertices m) (snd (edge_vertices e)) = Some v2
    /\ Rabs (vx (co v2) - vx (co v1)) < BLENDER_EPS
    /\ Rabs (vy (co v2) - vy (co v1)) < BLENDER_EPS.

(** Every edge of a mesh joins two of its vertices. *)
Definition edges_in_range (m : Mesh) : Prop :=
  forall e, In e (edges m) ->
    (fst (edge_vertices e) < List.length (vertices m))%nat
    /\ (snd (edge_vertices e) < List.length (vertices m))%nat.

(** The mesh after [select_vertices(criterion_func)]. *)
Definition selecting (f : MeshVertex -> bool) (m : Mesh) : Mesh :=
  mkMesh (map (fun v => if f (mkVertex (co v) false)
                        then mkVertex (co v) true
                        else mkVertex (co v) false)
              (vertices m))
         (map (fun e => mkEdge (edge_vertices e) false) (edges m))
         (polygons m).

(** The mesh of [Ellipsoid(diameter)]: the icosphere scaled by the diameter. *)
Definition ellipsoid_mesh (E : Engine) (diameter : R) (subdivisions : nat) : Mesh :=
  data (blender.transform_apply E
          (with_scale (vec diameter diameter diameter)
                      (new_object (ico_sphere E subdivisions 0.5)))).

(** The mesh of the rod after the upper cap was extruded. *)
Definition extruded_cap_mesh (E : Engine) (diameter middle_section_height : R)
    (subdivisions : nat) : Mesh :=
  extrude_region E (vec 0 0 (middle_section_height / 2))
    (selecting (fun v => ltb (- BLENDER_EPS) (vz (co v)))
               (ellipsoid_mesh E diameter subdivisions)).

(** The bevel settings of [Octahedron.__init__] at a given percentage. *)
Definition percent_bevel (pct : R) : BevelModifier :=
  mkBevelModifier (Some PERCENT) None (Some pct) None.

(** The mesh after a weld: everything selected, duplicates removed. *)
Definition welded (E : Engine) (m : Mesh) : Mesh :=
  remove_doubles E (blender.mesh_select_all true m).

(** The octahedron before its final rescale, and the operators that built
    it. *)
Definition octahedron_mesh (E : Engine) (truncation_degree : R) : Mesh :=
  let m1 := welded E (bevel_modifier E (percent_bevel 100) (cube E 1)) in
  if ltb 0 truncation_degree
  then welded E (bevel_modifier E (percent_bevel (100 * (truncation_degree / 3))) m1)
  else m1.
Definition octahedron_calls (truncation_degree : R) : list Call :=
  [primitive_cube_add 1; object_modifier_bevel (percent_bevel 100); mesh_remove_doubles]
  ++ (if ltb 0 truncation_degree
      then [object_modifier_bevel (percent_bevel (100 * (truncation_degree / 3)));
            mesh_remove_doubles]
      else []).

(** The log entry of a final rescale by the factor [k]. *)
Definition rescale_call (k : R) : Call :=
  object_transform_apply (vec 0 0 0) identity_rotation (vec k k k).

(** A computation only appends to the call log. *)
Definition appends {X A : Type} (c : M X A) : Prop :=
  forall w a w', c w = Ok a w' -> exists l, calls w' = calls w ++ l.

(** The settings of the three bevels of [Prism.__init__]. *)
Definition truncation_bevel (truncation_degree : R) : BevelOperator :=
  mkBevelOperator None (Some PERCENT) None (Some (100 * (truncation_degree * 0.5)))
                  None (Some true).
Definition smoothing_bevel (offset : R) (segments : nat) : BevelOperator :=
  mkBevelOperator None None (Some offset) None (Some segments) (Some true).

(** The rest of the prism recipe after the truncation step. *)
Definition prism_smoothing (E : Engine) (size ts es : R) (segs : nat)
    : blender.ObjM unit :=
  (if ltb 0 ts then
     blender.select_edges basic.is_edge_vertical ;;
     o <- get ;;
     ops.mesh_bevel E (smoothing_bevel (ts * vx (blender.dimensions o)) segs) ;;
     blender.remove_duplicate_vertices E
   else ret tt) ;;
  (if ltb 0 es then
     blender.select_edges (fun self x => option_map negb (basic.is_edge_vertical self x)) ;;
     o <- get ;;
     ops.mesh_bevel E (smoothing_bevel (es * vz (blender.dimensions o)) segs) ;;
     blender.remove_duplicate_vertices E
   else ret tt) ;;
  o <- get ;;
  k <- npdiv size (hypot (vx (blender.dimensions o)) (vy (blender.dimensions o))) ;;
  blender.scale E (blender.scalar k).


(** A computation only consumes draws: the draws pending when it returns
    are a suffix of those pending when it started. *)
Definition consumes {X A : Type} (c : M X A) : Prop :=
  forall w a w', c w = Ok a w' -> exists used, uniforms w = used ++ uniforms w'.

(** Every side of the box is at least [side] long. *)
Definition sides_at_least (side : R) (box : R * R * R * R * R * R) : Prop :=
  let '(x_min, x_max, y_min, y_max, z_min, z_max) := box in
  side <= x_max - x_min /\ side <= y_max - y_min /\ side <= z_max - z_min.

(** The default scene, [Scene()], before any entity is added, and eight
    draws for one random shape. *)
Definition default_scene : scene_building.Scene :=
  scene_building.mkScene (-0.5, 0.5, -0.5, 0.5, -0.5, 0.5).
Definition empty_scene : list BlenderObject := [].
Definition sphere_draws : list R := [1 / 2; 1 / 2; 1 / 2; 1 / 2; 0; 1 / 2; 1 / 2; 1 / 2].

(** The entity [Sphere()] builds on the small engine, and nine draws for
    one core-shell pair. *)
Definition toy_sphere : BlenderObject :=
  blender.transform_apply toy.engine
    (with_scale (vec 1.0 1.0 1.0) (new_object (toy.ico_sphere 5 0.5))).
Definition core_shell_draws : list R :=
  [1 / 2; 1 / 2; 1 / 2; 1 / 2; 0; 1 / 2; 1 / 2; 1 / 2; 1 / 2].

(** The zero-argument constructor of [shapes/randomized/fcc.py] for each
    family. *)
Definition randomized_builder (E : Engine) (f : families.Family) : blender.ObjM unit :=
  match f with
  | families.Cube => randomized.Cube E
  | families.Octahedron => randomized.Octahedron E
  | families.TruncatedOctahedron => randomized.TruncatedOctahedron E
  | families.Icosahedron => randomized.Icosahedron E
  | families.Triangle => randomized.Triangle E
  | families.TruncatedTriangle => randomized.TruncatedTriangle E
  | families.Square => randomized.Square E
  | families.Hexagon => randomized.Hexagon E
  | families.Decahedron => randomized.Decahedron E
  | families.Bipyramid => randomized.Bipyramid E
  end.

(** The meshes of [basic.Bipyramid]: the circle with its upper tip, the same
    with the vertices below [BLENDER_EPS] selected, and the welded bipyramid
    before any tip truncation. *)
Definition bipyramid_upper (E : Engine) (n_sides : nat) (diameter height : R) : Mesh :=
  resize E (vec 0 0 0)
    (extrude_region E (vec 0 0 (height / 2))
       (blender.mesh_select_all true (circle E n_sides (diameter / 2)))).
Definition bipyramid_lower_selection (E : Engine) (n_sides : nat) (diameter height : R)
    : Mesh :=
  selecting (fun v => ltb (vz (co v)) BLENDER_EPS) (bipyramid_upper E n_sides diameter height).
Definition bipyramid_mesh (E : Engine) (n_sides : nat) (diameter height : R) : Mesh :=
  welded E
    (resize E (vec 0 0 0)
       (extrude_region E (vec 0 0 (- height / 2))
          (bipyramid_lower_selection E n_sides diameter height))).
Definition bipyramid_calls (E : Engine) (n_sides : nat) (diameter height : R) : list Call :=
  [primitive_circle_add n_sides (diameter / 2);
   mesh_extrude_region_move
     (selected_vertices (blender.mesh_select_all true (circle E n_sides (diameter / 2))))
     (vec 0 0 (height / 2));
   transform_resize
     (selected_vertices
        (extrude_region E (vec 0 0 (height / 2))
           (blender.mesh_select_all true (circle E n_sides (diameter / 2)))))
     (vec 0 0 0);
   mesh_extrude_region_move
     (selected_vertices (bipyramid_lower_selection E n_sides diameter height))
     (vec 0 0 (- height / 2));
   transform_resize
     (selected_vertices
        (extrude_region E (vec 0 0 (- height / 2))
           (bipyramid_lower_selection E n_sides diameter height)))
     (vec 0 0 0);
   mesh_remove_doubles].
(** The bevel that truncates the tips. *)
Definition tip_bevel (width : R) : BevelOperator :=
  mkBevelOperator (Some VERTICES) (Some WIDTH) (Some width) None (Some 1%nat) (Some true).

(** ** The base shapes

    The build sequences of the specification's table of shape families with
    the truncation and smoothing steps left out, written from the table, to
    compare the builders at degree zero with.  A base builder ends in the
    rescales of its family. *)
Module base.
Section WithEngine.
Variable E : Engine.

Definition ObjM := blender.ObjM.

Definition rescale_max (size : R) : ObjM unit :=
  o <- get ;;
  k <- pydiv size (max3 (blender.dimensions o)) ;;
  blender.scale E (blender.scalar k).
Definition rescale_diameter (size : R) : ObjM unit :=
  d <- blender.enclosing_sphere_diameter ;;
  k <- pydiv size d ;;
  blender.scale E (blender.scalar k).
Definition rescale_diagonal (size : R) : ObjM unit :=
  o <- get ;;
  k <- npdiv size (hypot (vx (blender.dimensions o)) (vy (blender.dimensions o))) ;;
  blender.scale E (blender.scalar k).
Definition rescale_z (height : R) : ObjM unit :=
  o <- get ;;
  k <- pydiv height (vz (blender.dimensions o)) ;;
  blender.scale E (blender.scalar k).

(** Cube bevelled at 100 percent, welded. *)
Definition Octahedron (size : R) : ObjM unit :=
  ops.primitive_add (primitive_cube_add 1) (cube E 1) ;;
  ops.modifier_bevel E (mkBevelModifier (Some PERCENT) None (Some 100) None) ;;
  blender.remove_duplicate_vertices E ;;
  rescale_diameter size.

(** Cylinder with [n_sides] sides. *)
Definition Prism (n_sides : nat) (size height : R) : ObjM unit :=
  ops.primitive_add (primitive_cylinder_add n_sides (size / 2) height)
                    (cylinder E n_sides (size / 2) height) ;;
  rescale_diagonal size.

(** Polygon extruded up and collapsed to an apex, the same downwards,
    welded. *)
Definition Bipyramid (n_sides : nat) (diameter height : R) : ObjM unit :=
  ops.primitive_add (primitive_circle_add n_sides (diameter / 2))
                    (circle E n_sides (diameter / 2)) ;;
  modify (fun o => with_data (blender.mesh_select_all true (data o)) o) ;;
  ops.extrude_region_move E (vec 0 0 (height / 2)) ;;
  ops.transform_resize E (vec 0 0 0) ;;
  blender.select_vertices (fun v => ltb (vz (co v)) BLENDER_EPS) ;;
  ops.extrude_region_move E (vec 0 0 (- height / 2)) ;;
  ops.transform_resize E (vec 0 0 0) ;;
  blender.remove_duplicate_vertices E.

(** The base shape of each family at nominal size [s] ([h] is the height of
    a prism). *)
Definition builder (f : families.Family) (s h : R) : ObjM unit :=
  match f with
  | families.Cube => basic.Box E (blender.scalar s) ;; rescale_max s
  | families.Octahedron | families.TruncatedOctahedron =>
      Octahedron s ;; rescale_diameter s
  | families.Icosahedron => basic.Icosahedron E s ;; rescale_diameter s
  | families.Triangle => Prism 3 s h ;; rescale_diagonal s
  | families.TruncatedTriangle => Prism 3 s h
  | families.Square => Prism 4 s h
  | families.Hexagon => Prism 6 s h
  | families.Decahedron => Bipyramid 5 s (1.547 * s / 2) ;; rescale_diagonal s
  | families.Bipyramid => Bipyramid 5 (s / 3.7321) s ;; rescale_z s
  end.

End WithEngine.
End base.

(** Nine draws for one random cube: the first is the cube's own. *)
Definition cube_draws : list R := 1 / 2 :: sphere_draws.



(** * Properties *)

(** ** Comparisons *)

Lemma ltb_true (a b : R) : a < b -> ltb a b = true.
Proof. intros H. unfold ltb. destruct (Rlt_dec a b); [reflexivity | contradiction]. Qed.

Lemma ltb_false (a b : R) : ~ a < b -> ltb a b = false.
Proof. intros H. unfold ltb. destruct (Rlt_dec a b); [contradiction | reflexivity]. Qed.

Lemma ltb_spec (a b : R) : ltb a b = true <-> a < b.
Proof. unfold ltb. destruct (Rlt_dec a b); split; intros; auto; discriminate. Qed.

Lemma eqb0_true (a : R) : a = 0 -> eqb0 a = true.
Proof. intros H. unfold eqb0. destruct (Req_dec_T a 0); [reflexivity | contradiction]. Qed.

Lemma eqb0_false (a : R) : a <> 0 -> eqb0 a = false.
Proof. intros H. unfold eqb0. destruct (Req_dec_T a 0); [contradiction | reflexivity]. Qed.

(** ** The monad *)

Lemma bind_ok {X A B : Type} (c : M X A) (k : A -> M X B) (w w' : World X) (b : B) :
  bind c k w = Ok b w' -> exists a w1, c w = Ok a w1 /\ k a w1 = Ok b w'.
Proof.
  unfold bind. destruct (c w) as [a w1 | e]; intros H; [| discriminate].
  exists a, w1. split; [reflexivity | exact H].
Qed.

Lemma bind_run {X A B : Type} (c : M X A) (k : A -> M X B) (w w1 : World X) (a : A) :
  c w = Ok a w1 -> bind c k w = k a w1.
Proof. intros H. unfold bind. rewrite H. reflexivity. Qed.

Lemma pydiv_ok {X : Type} (a b k : R) (w w' : World X) :
  pydiv a b w = Ok k w' -> b <> 0 /\ k = a / b /\ w' = w.
Proof.
  unfold pydiv, eqb0. destruct (Req_dec_T b 0); intros H; [discriminate |].
  inversion H. auto.
Qed.

Lemma npdiv_ok {X : Type} (a b k : R) (w w' : World X) :
  npdiv a b w = Ok k w' -> b <> 0 /\ k = a / b /\ w' = w.
Proof.
  unfold npdiv, eqb0. destruct (Req_dec_T b 0); intros H; [discriminate |].
  inversion H. auto.
Qed.

(** ** Largest and smallest element *)

Ltac split_extrema :=
  unfold Rmax, Rmin;
  repeat match goal with |- context [Rle_dec ?a ?b] => destruct (Rle_dec a b) end;
  repeat match goal with H : ~ _ <= _ |- _ => apply Rnot_le_lt in H end.

Lemma Rmax_affine_pos (t s x y : R) :
  0 <= s -> Rmax (t + s * x) (t + s * y) = t + s * Rmax x y.
Proof. intros Hs. split_extrema; try reflexivity; nra. Qed.

Lemma Rmin_affine_pos (t s x y : R) :
  0 <= s -> Rmin (t + s * x) (t + s * y) = t + s * Rmin x y.
Proof. intros Hs. split_extrema; try reflexivity; nra. Qed.

Lemma Rmax_affine_neg (t s x y : R) :
  s <= 0 -> Rmax (t + s * x) (t + s * y) = t + s * Rmin x y.
Proof. intros Hs. split_extrema; try reflexivity; nra. Qed.

Lemma Rmin_affine_neg (t s x y : R) :
  s <= 0 -> Rmin (t + s * x) (t + s * y) = t + s * Rmax x y.
Proof. intros Hs. split_extrema; try reflexivity; nra. Qed.

Lemma max_of_affine_pos (t s a : R) (l : list R) :
  0 <= s ->
  max_of (t + s * a) (map (fun x => t + s * x) l) = t + s * max_of a l.
Proof.
  intros Hs. unfold max_of. induction l as [| b l IH]; simpl; [reflexivity |].
  rewrite IH. apply Rmax_affine_pos, Hs.
Qed.

Lemma min_of_affine_pos (t s a : R) (l : list R) :
  0 <= s ->
  min_of (t + s * a) (map (fun x => t + s * x) l) = t + s * min_of a l.
Proof.
  intros Hs. unfold min_of. induction l as [| b l IH]; simpl; [reflexivity |].
  rewrite IH. apply Rmin_affine_pos, Hs.
Qed.

Lemma max_of_affine_neg (t s a : R) (l : list R) :
  s <= 0 ->
  max_of (t + s * a) (map (fun x => t + s * x) l) = t + s * min_of a l.
Proof.
  intros Hs. unfold max_of, min_of. induction l as [| b l IH]; simpl; [reflexivity |].
  rewrite IH. apply Rmax_affine_neg, Hs.
Qed.

Lemma min_of_affine_neg (t s a : R) (l : list R) :
  s <= 0 ->
  min_of (t + s * a) (map (fun x => t + s * x) l) = t + s * max_of a l.
Proof.
  intros Hs. unfold max_of, min_of. induction l as [| b l IH]; simpl; [reflexivity |].
  rewrite IH. apply Rmin_affine_neg, Hs.
Qed.

Lemma min_of_le_max_of (a : R) (l : list R) : min_of a l <= max_of a l.
Proof.
  unfold min_of, max_of. induction l as [| b l IH]; simpl; [lra |].
  pose proof (Rmin_r b (fold_right Rmin a l)).
  pose proof (Rmax_r b (fold_right Rmax a l)). lra.
Qed.

Lemma max_of_upper (a x : R) (l : list R) : In x (a :: l) -> x <= max_of a l.
Proof.
  unfold max_of, min_of. induction l as [| b l IH]; simpl.
  - intros [H | []]. lra.
  - intros [H | [H | H]].
    + eapply Rle_trans; [apply IH; left; exact H | apply Rmax_r].
    + subst. apply Rmax_l.
    + eapply Rle_trans; [apply IH; right; exact H | apply Rmax_r].
Qed.

Lemma min_of_lower (a x : R) (l : list R) : In x (a :: l) -> min_of a l <= x.
Proof.
  unfold max_of, min_of. induction l as [| b l IH]; simpl.
  - intros [H | []]. lra.
  - intros [H | [H | H]].
    + eapply Rle_trans; [apply Rmin_r | apply IH; left; exact H].
    + subst. apply Rmin_l.
    + eapply Rle_trans; [apply Rmin_r | apply IH; right; exact H].
Qed.

Lemma max_of_attained (a : R) (l : list R) : In (max_of a l) (a :: l).
Proof.
  unfold max_of. induction l as [| b l IH]; simpl; [left; reflexivity |].
  destruct (Rle_dec b (fold_right Rmax a l)) as [Hle | Hnle].
  - rewrite (Rmax_right _ _ Hle).
    destruct IH as [H | H]; [left; exact H | right; right; exact H].
  - rewrite Rmax_left by lra. right; left; reflexivity.
Qed.

Lemma max3_scale (k : R) (d : Vector) : 0 <= k -> max3 (vscale k d) = k * max3 d.
Proof.
  intros Hk. unfold max3, vscale; simpl.
  rewrite !RmaxRmult by exact Hk. reflexivity.
Qed.

Lemma hypot_scale (k a b : R) : 0 <= k -> hypot (k * a) (k * b) = k * hypot a b.
Proof.
  intros Hk. unfold hypot.
  replace (k * a * (k * a) + k * b * (k * b)) with ((k * k) * (a * a + b * b)) by ring.
  rewrite sqrt_mult_alt by nra. rewrite sqrt_square by exact Hk. reflexivity.
Qed.

Lemma length_scale (k : R) (v : Vector) : length (vscale k v) = Rabs k * length v.
Proof.
  unfold length, vscale; simpl.
  replace (k * vx v * (k * vx v) + k * vy v * (k * vy v) + k * vz v * (k * vz v))
    with ((k * k) * (vx v * vx v + vy v * vy v + vz v * vz v)) by ring.
  rewrite sqrt_mult_alt by nra.
  replace (k * k) with (Rsqr k) by reflexivity.
  rewrite sqrt_Rsqr_abs. reflexivity.
Qed.

Lemma max_of_scale (k a : R) (l : list R) :
  0 <= k -> max_of (k * a) (map (Rmult k) l) = k * max_of a l.
Proof.
  intros Hk. unfold max_of. induction l as [| b l IH]; simpl; [reflexivity |].
  rewrite IH. apply RmaxRmult, Hk.
Qed.

(** ** Baking a transform *)

Section Baking.
Variable E : Engine.

Lemma coords_transform_apply (o : BlenderObject) :
  ob_rotation o = identity_rotation ->
  coords (data (blender.transform_apply E o))
  = map (fun p => vadd (ob_location o) (vmul (ob_scale o) p)) (coords (data o)).
Proof.
  intros Hr. unfold coords, blender.transform_apply, map_co; simpl.
  rewrite !map_map. apply map_ext. intros v; simpl.
  rewrite Hr, rotate_vector_identity. reflexivity.
Qed.

Lemma transform_apply_identity (o : BlenderObject) :
  transform_is_identity (blender.transform_apply E o).
Proof. repeat split. Qed.

(** Bounds of an affine image with non-negative factors. *)
Lemma bounds_affine (o o' : BlenderObject) (t s : Vector) :
  0 <= vx s -> 0 <= vy s -> 0 <= vz s ->
  coords (data o') = map (fun p => vadd t (vmul s p)) (coords (data o)) ->
  coords (data o) <> [] \/ t = vec 0 0 0 ->
  blender.bound_min o' = vadd t (vmul s (blender.bound_min o))
  /\ blender.bound_max o' = vadd t (vmul s (blender.bound_max o)).
Proof.
  intros Hx Hy Hz Hc Hne. unfold blender.bound_min, blender.bound_max. rewrite Hc.
  destruct (coords (data o)) as [| p ps]; simpl.
  - destruct Hne as [Hne | Ht]; [contradiction |]. subst t.
    unfold vadd, vmul; simpl. split; f_equal; ring.
  - unfold vadd, vmul; simpl. rewrite !map_map; simpl.
    rewrite <- !min_of_affine_pos, <- !max_of_affine_pos by assumption.
    rewrite !map_map. split; reflexivity.
Qed.

(** Bounds after a uniform scaling by a factor of either sign. *)
Lemma bounds_scale_neg (o o' : BlenderObject) (s : R) :
  s <= 0 ->
  coords (data o') = map (fun p => vscale s p) (coords (data o)) ->
  blender.bound_min o' = vscale s (blender.bound_max o)
  /\ blender.bound_max o' = vscale s (blender.bound_min o).
Proof.
  intros Hs Hc. unfold blender.bound_min, blender.bound_max. rewrite Hc.
  destruct (coords (data o)) as [| p ps]; simpl.
  - unfold vscale; simpl. split; f_equal; ring.
  - unfold vscale; simpl. rewrite !map_map; simpl.
    split; f_equal.
    all: match goal with
         | |- min_of (?k * ?a) (map ?f ?l) = ?k * max_of ?a (map ?g ?l) =>
             replace (k * a) with (0 + k * a) by ring;
             replace (map f l) with (map (fun x => 0 + k * x) (map g l))
               by (rewrite map_map; apply map_ext; intros; ring);
             rewrite min_of_affine_neg by exact Hs; ring
         | |- max_of (?k * ?a) (map ?f ?l) = ?k * min_of ?a (map ?g ?l) =>
             replace (k * a) with (0 + k * a) by ring;
             replace (map f l) with (map (fun x => 0 + k * x) (map g l))
               by (rewrite map_map; apply map_ext; intros; ring);
             rewrite max_of_affine_neg by exact Hs; ring
         end.
Qed.

Lemma dimensions_nonneg (o : BlenderObject) :
  0 <= vx (blender.dimensions o) /\ 0 <= vy (blender.dimensions o)
  /\ 0 <= vz (blender.dimensions o).
Proof.
  unfold blender.dimensions, blender.bound_min, blender.bound_max.
  destruct (coords (data o)) as [| p ps]; simpl.
  - repeat split; lra.
  - pose proof (min_of_le_max_of (vx p) (map vx ps)).
    pose proof (min_of_le_max_of (vy p) (map vy ps)).
    pose proof (min_of_le_max_of (vz p) (map vz ps)).
    repeat split; lra.
Qed.

Lemma location_eq (o : BlenderObject) :
  blender.location o
  = vec ((vx (blender.bound_min o) + vx (blender.bound_max o)) / 2)
        ((vy (blender.bound_min o) + vy (blender.bound_max o)) / 2)
        ((vz (blender.bound_min o) + vz (blender.bound_max o)) / 2).
Proof.
  unfold blender.location, blender.bounding_box, blender.dimensions, vadd, vsub, vdiv;
    simpl. f_equal; field.
Qed.


Lemma diameter_of_distances (o : BlenderObject) :
  diameter_of o
  = match map (fun p => length (vsub p (blender.location o))) (coords (data o)) with
    | [] => None
    | d :: ds => Some (2 * max_of d ds)
    end.
Proof. unfold diameter_of, coords. rewrite map_map. reflexivity. Qed.

(** Diameter of the image under [p |-> t + k * p]. *)
Lemma diameter_similar (o o' : BlenderObject) (t : Vector) (k : R) :
  coords (data o') = map (fun p => vadd t (vscale k p)) (coords (data o)) ->
  blender.location o' = vadd t (vscale k (blender.location o)) ->
  diameter_of o' = option_map (Rmult (Rabs k)) (diameter_of o).
Proof.
  intros Hc Hl. rewrite !diameter_of_distances, Hc, Hl, map_map.
  rewrite (map_ext _ (fun p => Rabs k * length (vsub p (blender.location o)))).
  2:{ intros p. rewrite <- length_scale. f_equal.
      unfold vsub, vadd, vscale; simpl. f_equal; ring. }
  destruct (coords (data o)) as [| p ps]; simpl; [reflexivity |].
  f_equal.
  rewrite <- (map_map (fun p => length (vsub p (blender.location o))) (Rmult (Rabs k))).
  rewrite max_of_scale by apply Rabs_pos. ring.
Qed.

(** *** Uniform scaling *)

Lemma scale_run (k : R) (w : World BlenderObject) :
  blender.scale E (blender.scalar k) w
  = Ok tt (mkWorld (scaled E k (focus w))
                   (calls w ++ [object_transform_apply (ob_location (focus w))
                                  (ob_rotation (focus w)) (vec k k k)])
                   (uniforms w) (choices w)).
Proof. reflexivity. Qed.

Lemma scaled_coords (k : R) (o : BlenderObject) :
  transform_is_identity o ->
  coords (data (scaled E k o)) = map (vscale k) (coords (data o)).
Proof.
  intros (Hl & Hr & _). unfold scaled.
  rewrite coords_transform_apply by exact Hr. simpl. rewrite Hl.
  apply map_ext. intros p. unfold vadd, vmul, vscale; simpl. f_equal; ring.
Qed.

Lemma scaled_identity (k : R) (o : BlenderObject) : transform_is_identity (scaled E k o).
Proof. apply transform_apply_identity. Qed.

Lemma scaled_bounds (k : R) (o : BlenderObject) :
  transform_is_identity o -> 0 <= k ->
  blender.bound_min (scaled E k o) = vscale k (blender.bound_min o)
  /\ blender.bound_max (scaled E k o) = vscale k (blender.bound_max o).
Proof.
  intros Hid Hk.
  destruct (bounds_affine o (scaled E k o) (vec 0 0 0) (vec k k k)) as [H1 H2];
    try exact Hk.
  - rewrite scaled_coords by exact Hid. apply map_ext. intros p.
    unfold vadd, vmul, vscale; simpl. f_equal; ring.
  - right; reflexivity.
  - rewrite H1, H2. unfold vadd, vmul, vscale; simpl. split; f_equal; ring.
Qed.

Lemma scaled_dimensions (k : R) (o : BlenderObject) :
  transform_is_identity o ->
  blender.dimensions (scaled E k o) = vscale (Rabs k) (blender.dimensions o).
Proof.
  intros Hid. unfold blender.dimensions.
  destruct (Rle_dec 0 k) as [Hk | Hk].
  - destruct (scaled_bounds k o Hid Hk) as [H1 H2]. rewrite H1, H2.
    rewrite Rabs_right by lra. unfold vsub, vscale; simpl. f_equal; ring.
  - destruct (bounds_scale_neg o (scaled E k o) k) as [H1 H2]; [lra | |].
    + apply scaled_coords, Hid.
    + rewrite H1, H2. rewrite Rabs_left by lra.
      unfold vsub, vscale; simpl. f_equal; ring.
Qed.

Lemma scaled_location (k : R) (o : BlenderObject) :
  transform_is_identity o ->
  blender.location (scaled E k o) = vscale k (blender.location o).
Proof.
  intros Hid. rewrite !location_eq.
  destruct (Rle_dec 0 k) as [Hk | Hk].
  - destruct (scaled_bounds k o Hid Hk) as [H1 H2]. rewrite H1, H2.
    unfold vscale; simpl. f_equal; field.
  - destruct (bounds_scale_neg o (scaled E k o) k) as [H1 H2]; [lra | |].
    + apply scaled_coords, Hid.
    + rewrite H1, H2. unfold vscale; simpl. f_equal; field.
Qed.

Lemma scaled_diameter (k : R) (o : BlenderObject) :
  transform_is_identity o ->
  diameter_of (scaled E k o) = option_map (Rmult (Rabs k)) (diameter_of o).
Proof.
  intros Hid. apply (diameter_similar o (scaled E k o) (vec 0 0 0) k).
  - rewrite scaled_coords by exact Hid. apply map_ext. intros p.
    unfold vadd, vscale; simpl. f_equal; ring.
  - rewrite scaled_location by exact Hid.
    unfold vadd, vscale; simpl. f_equal; ring.
Qed.

End Baking.

(** ** The local transform along a computation *)

Lemma keeps_bind {A B : Type} (c : blender.ObjM A) (k : A -> blender.ObjM B) :
  keeps_identity c -> (forall a, keeps_identity (k a)) -> keeps_identity (bind c k).
Proof.
  intros Hc Hk w b w' Hid H. apply bind_ok in H. destruct H as (a & w1 & H1 & H2).
  eapply Hk; [| exact H2]. eapply Hc; eassumption.
Qed.

Lemma sets_keeps {A : Type} (c : blender.ObjM A) : sets_identity c -> keeps_identity c.
Proof. intros H w a w' _ Hr. eapply H, Hr. Qed.

Lemma sets_bind_l {A B : Type} (c : blender.ObjM A) (k : A -> blender.ObjM B) :
  sets_identity c -> (forall a, keeps_identity (k a)) -> sets_identity (bind c k).
Proof.
  intros Hc Hk w b w' H. apply bind_ok in H. destruct H as (a & w1 & H1 & H2).
  eapply Hk; [| exact H2]. eapply Hc; eassumption.
Qed.

Lemma sets_bind_r {A B : Type} (c : blender.ObjM A) (k : A -> blender.ObjM B) :
  (forall a, sets_identity (k a)) -> sets_identity (bind c k).
Proof.
  intros Hk w b w' H. apply bind_ok in H. destruct H as (a & w1 & H1 & H2).
  eapply Hk, H2.
Qed.

Lemma keeps_ret {A : Type} (a : A) : keeps_identity (ret a).
Proof. intros w b w' Hid H. inversion H; subst. exact Hid. Qed.

Lemma keeps_raise {A : Type} (e : Exception) : keeps_identity (@raise _ A e).
Proof. intros w b w' Hid H. discriminate. Qed.

Lemma keeps_leave_reals {A : Type} : keeps_identity (@leave_reals _ A).
Proof. intros w a w' Hid H. discriminate. Qed.

Lemma keeps_get : keeps_identity get.
Proof. intros w b w' Hid H. inversion H; subst. exact Hid. Qed.

Lemma keeps_log (c : Call) : keeps_identity (log c).
Proof. intros w b w' Hid H. inversion H; subst. exact Hid. Qed.

Lemma keeps_random_sample : keeps_identity random_sample.
Proof.
  intros w b w' Hid H. unfold random_sample in H.
  destruct (uniforms w); inversion H; subst. exact Hid.
Qed.

Lemma keeps_modify (f : BlenderObject -> BlenderObject) :
  (forall o, transform_is_identity o -> transform_is_identity (f o)) ->
  keeps_identity (modify f).
Proof. intros Hf w b w' Hid H. inversion H; subst. apply Hf, Hid. Qed.

Lemma sets_modify (f : BlenderObject -> BlenderObject) :
  (forall o, transform_is_identity (f o)) -> sets_identity (modify f).
Proof. intros Hf w b w' H. inversion H; subst. apply Hf. Qed.

Ltac keeps_step :=
  match goal with
  | |- keeps_identity (bind _ _) => apply keeps_bind; [| intro]
  | |- keeps_identity (ret _) => apply keeps_ret
  | |- keeps_identity (raise _) => apply keeps_raise
  | |- keeps_identity leave_reals => apply keeps_leave_reals
  | |- keeps_identity get => apply keeps_get
  | |- keeps_identity (log _) => apply keeps_log
  | |- keeps_identity random_sample => apply keeps_random_sample
  | |- keeps_identity (modify _) =>
      apply keeps_modify; let H := fresh in intros ? H; exact H
  | |- keeps_identity (if ?b then _ else _) => destruct b
  | |- keeps_identity (match ?x with _ => _ end) => destruct x
  end.

Lemma keeps_pydiv (a b : R) : keeps_identity (pydiv a b).
Proof. unfold pydiv. repeat keeps_step. Qed.

Lemma keeps_npdiv (a b : R) : keeps_identity (npdiv a b).
Proof. unfold npdiv. repeat keeps_step. Qed.

Lemma keeps_uniform (a b : R) : keeps_identity (uniform a b).
Proof. unfold uniform. repeat keeps_step. Qed.

Section Identity.
Variable E : Engine.

Lemma sets_apply_all_transforms : sets_identity (blender.apply_all_transforms E).
Proof.
  unfold blender.apply_all_transforms.
  apply sets_bind_r; intro. apply sets_bind_r; intro.
  apply sets_modify. intro. apply transform_apply_identity.
Qed.

Lemma sets_scale (sv : blender.ScaleVector) : sets_identity (blender.scale E sv).
Proof. unfold blender.scale. apply sets_bind_r; intro. apply sets_apply_all_transforms. Qed.

Lemma sets_translate (v : Vector) : sets_identity (blender.translate E v).
Proof.
  unfold blender.translate. apply sets_bind_r; intro. apply sets_apply_all_transforms.
Qed.

Lemma sets_rotate (e : option Vector) (q : option (R * R * R * R)) :
  sets_identity (blender.rotate E e q).
Proof.
  unfold blender.rotate. apply sets_bind_r; intro. apply sets_bind_r; intro.
  apply sets_bind_r; intro. apply sets_apply_all_transforms.
Qed.

Lemma sets_primitive_add (c : Call) (m : Mesh) : sets_identity (ops.primitive_add c m).
Proof.
  unfold ops.primitive_add. apply sets_bind_r; intro.
  apply sets_modify. intro. repeat split.
Qed.

Lemma keeps_enclosing_sphere_diameter : keeps_identity blender.enclosing_sphere_diameter.
Proof. unfold blender.enclosing_sphere_diameter. repeat keeps_step. Qed.

Lemma keeps_select_vertices (f : MeshVertex -> bool) :
  keeps_identity (blender.select_vertices f).
Proof. unfold blender.select_vertices. repeat keeps_step. Qed.

Lemma keeps_select_edges (f : BlenderObject -> MeshEdge -> option bool) :
  keeps_identity (blender.select_edges f).
Proof. unfold blender.select_edges. repeat keeps_step. Qed.

Lemma keeps_clear_selection : keeps_identity blender.clear_selection.
Proof. unfold blender.clear_selection. repeat keeps_step. Qed.

Lemma keeps_remove_duplicate_vertices :
  keeps_identity (blender.remove_duplicate_vertices E).
Proof. unfold blender.remove_duplicate_vertices. repeat keeps_step. Qed.

Lemma keeps_smooth_edges (degree : R) (n : nat) :
  keeps_identity (blender.smooth_edges E degree n).
Proof. unfold blender.smooth_edges. repeat keeps_step. Qed.

Lemma keeps_apply_boolean (other : BlenderObject) (op : BooleanOperation) :
  keeps_identity (blender.apply_boolean E other op).
Proof. unfold blender.apply_boolean. repeat keeps_step. Qed.

Lemma keeps_modifier_bevel (s : BevelModifier) : keeps_identity (ops.modifier_bevel E s).
Proof. unfold ops.modifier_bevel. repeat keeps_step. Qed.

Lemma keeps_mesh_bevel (s : BevelOperator) : keeps_identity (ops.mesh_bevel E s).
Proof. unfold ops.mesh_bevel. repeat keeps_step. Qed.

Lemma keeps_extrude_region_move (v : Vector) : keeps_identity (ops.extrude_region_move E v).
Proof. unfold ops.extrude_region_move. repeat keeps_step. Qed.

Lemma keeps_transform_translate (v : Vector) : keeps_identity (ops.transform_translate v).
Proof. unfold ops.transform_translate. repeat keeps_step. Qed.

Lemma keeps_transform_resize (v : Vector) : keeps_identity (ops.transform_resize E v).
Proof. unfold ops.transform_resize. repeat keeps_step. Qed.

End Identity.

Ltac keeps_auto :=
  repeat first
    [ keeps_step
    | apply keeps_pydiv | apply keeps_npdiv | apply keeps_uniform
    | apply sets_keeps, sets_scale | apply sets_keeps, sets_translate
    | apply sets_keeps, sets_rotate | apply sets_keeps, sets_primitive_add
    | apply keeps_enclosing_sphere_diameter | apply keeps_select_vertices
    | apply keeps_select_edges | apply keeps_remove_duplicate_vertices
    | apply keeps_smooth_edges | apply keeps_apply_boolean
    | apply keeps_modifier_bevel | apply keeps_mesh_bevel
    | apply keeps_extrude_region_move | apply keeps_transform_translate
    | apply keeps_transform_resize ].

(** Split [bind c k w = Ok b w'] into its two runs. *)
Tactic Notation "peel" hyp(H) "as" ident(a) ident(w) ident(H1) :=
  apply bind_ok in H; destruct H as (a & w & H1 & H).

(** ** The final rescale of a builder *)

Section Rescale.
Variable E : Engine.

Lemma pos_of_nonneg (x : R) : 0 <= x -> x <> 0 -> 0 < x.
Proof. intros [H | H] Hne; [exact H | congruence]. Qed.

Lemma Rabs_quotient (a b : R) : 0 < a -> 0 <= b -> b <> 0 -> Rabs (a / b) * b = a.
Proof.
  intros Ha Hb Hne. pose proof (pos_of_nonneg b Hb Hne) as Hpos.
  rewrite Rabs_right.
  - field. exact Hne.
  - apply Rle_ge, Rlt_le, Rdiv_lt_0_compat; assumption.
Qed.

Lemma max3_nonneg (o : BlenderObject) : 0 <= max3 (blender.dimensions o).
Proof.
  destruct (dimensions_nonneg o) as (Hx & _). unfold max3.
  eapply Rle_trans; [exact Hx | apply Rmax_l].
Qed.

Lemma hypot_nonneg (a b : R) : 0 <= hypot a b.
Proof. apply sqrt_pos. Qed.

Lemma length_nonneg (v : Vector) : 0 <= length v.
Proof. apply sqrt_pos. Qed.

Lemma diameter_nonneg (o : BlenderObject) (d : R) : diameter_of o = Some d -> 0 <= d.
Proof.
  unfold diameter_of.
  destruct (map _ (vertices (data o))) as [| x xs] eqn:Hm; intros H; inversion H.
  assert (Hx : 0 <= x).
  { destruct (vertices (data o)); inversion Hm. apply length_nonneg. }
  pose proof (max_of_upper x x xs (or_introl eq_refl)). lra.
Qed.

Lemma enclosing_sphere_diameter_run (w : World BlenderObject) :
  blender.enclosing_sphere_diameter w
  = match diameter_of (focus w) with
    | Some d => Ok d w
    | None => Stop (raised ValueError)
    end.
Proof.
  unfold blender.enclosing_sphere_diameter, diameter_of, bind, get.
  destruct (map _ (vertices (data (focus w)))); reflexivity.
Qed.

Lemma rescale_max3 (size : R) (w w' : World BlenderObject) :
  transform_is_identity (focus w) -> 0 < size ->
  (o <- get ;; k <- pydiv size (max3 (blender.dimensions o)) ;;
   blender.scale E (blender.scalar k)) w = Ok tt w' ->
  max3 (blender.dimensions (focus w')) = size.
Proof.
  intros Hid Hs H. peel H as o w1 Hget. inversion Hget; subst. peel H as k w2 Hdiv.
  apply pydiv_ok in Hdiv. destruct Hdiv as (Hne & -> & ->).
  rewrite scale_run in H. inversion H; subst; cbn [focus].
  rewrite scaled_dimensions by exact Hid. rewrite max3_scale by apply Rabs_pos.
  apply Rabs_quotient; [exact Hs | apply max3_nonneg | exact Hne].
Qed.

Lemma rescale_z (size : R) (w w' : World BlenderObject) :
  transform_is_identity (focus w) -> 0 < size ->
  (o <- get ;; k <- pydiv size (vz (blender.dimensions o)) ;;
   blender.scale E (blender.scalar k)) w = Ok tt w' ->
  vz (blender.dimensions (focus w')) = size.
Proof.
  intros Hid Hs H. peel H as o w1 Hget. inversion Hget; subst. peel H as k w2 Hdiv.
  apply pydiv_ok in Hdiv. destruct Hdiv as (Hne & -> & ->).
  rewrite scale_run in H. inversion H; subst; cbn [focus].
  rewrite scaled_dimensions by exact Hid. simpl.
  destruct (dimensions_nonneg (focus w1)) as (_ & _ & Hz).
  apply Rabs_quotient; [exact Hs | exact Hz | exact Hne].
Qed.

Lemma rescale_diagonal (size : R) (w w' : World BlenderObject) :
  transform_is_identity (focus w) -> 0 < size ->
  (o <- get ;;
   k <- npdiv size (hypot (vx (blender.dimensions o)) (vy (blender.dimensions o))) ;;
   blender.scale E (blender.scalar k)) w = Ok tt w' ->
  planar_diagonal (focus w') = size.
Proof.
  intros Hid Hs H. peel H as o w1 Hget. inversion Hget; subst. peel H as k w2 Hdiv.
  apply npdiv_ok in Hdiv. destruct Hdiv as (Hne & -> & ->).
  rewrite scale_run in H. inversion H; subst; cbn [focus].
  unfold planar_diagonal. rewrite scaled_dimensions by exact Hid. simpl.
  rewrite hypot_scale by apply Rabs_pos.
  apply Rabs_quotient; [exact Hs | apply hypot_nonneg | exact Hne].
Qed.

Lemma rescale_diameter (size : R) (w w' : World BlenderObject) :
  transform_is_identity (focus w) -> 0 < size ->
  (d <- blender.enclosing_sphere_diameter ;; k <- pydiv size d ;;
   blender.scale E (blender.scalar k)) w = Ok tt w' ->
  diameter_of (focus w') = Some size.
Proof.
  intros Hid Hs H. peel H as d0 w1 Hesd. rewrite enclosing_sphere_diameter_run in Hesd.
  destruct (diameter_of (focus w)) as [d |] eqn:Hd; [| discriminate].
  inversion Hesd; subst. peel H as k w2 Hdiv.
  apply pydiv_ok in Hdiv. destruct Hdiv as (Hne & -> & ->).
  rewrite scale_run in H. inversion H; subst; cbn [focus].
  rewrite scaled_diameter by exact Hid. rewrite Hd. simpl. f_equal.
  apply Rabs_quotient; [exact Hs | eapply diameter_nonneg; exact Hd | exact Hne].
Qed.

(** The basic builders leave the local transform at the identity. *)

Lemma sets_Ellipsoid (d : blender.ScaleVector) (n : nat) :
  sets_identity (basic.Ellipsoid E d n).
Proof. unfold basic.Ellipsoid. apply sets_bind_r; intro. apply sets_scale. Qed.

Lemma sets_Box (d : blender.ScaleVector) : sets_identity (basic.Box E d).
Proof. unfold basic.Box. apply sets_bind_r; intro. apply sets_scale. Qed.

Lemma sets_basic_Octahedron (size t : R) : sets_identity (basic.Octahedron E size t).
Proof. unfold basic.Octahedron. do 6 (apply sets_bind_r; intro). apply sets_scale. Qed.

Lemma sets_basic_Icosahedron (size : R) : sets_identity (basic.Icosahedron E size).
Proof. apply sets_primitive_add. Qed.

Lemma sets_basic_Prism (n : nat) (size h t ts es : R) (segs : nat) :
  sets_identity (basic.Prism E n size h t ts es segs).
Proof. unfold basic.Prism. do 6 (apply sets_bind_r; intro). apply sets_scale. Qed.

Lemma sets_basic_Bipyramid (n : nat) (d h t : R) :
  sets_identity (basic.Bipyramid E n d h t).
Proof.
  unfold basic.Bipyramid. apply sets_bind_l; [apply sets_primitive_add | intro].
  keeps_auto.
Qed.

End Rescale.

(** ** One step of a run *)

Section Runs.
Variable E : Engine.

Lemma ret_bind_run {X A B : Type} (a : A) (k : A -> M X B) (w : World X) :
  bind (ret a) k w = k a w.
Proof. reflexivity. Qed.

Lemma get_run {X : Type} (w : World X) : get w = Ok (focus w) w.
Proof. reflexivity. Qed.

Lemma pydiv_run {X : Type} (a b : R) (w : World X) :
  b <> 0 -> pydiv a b w = Ok (a / b) w.
Proof. intros H. unfold pydiv. rewrite eqb0_false by exact H. reflexivity. Qed.

Lemma npdiv_run {X : Type} (a b : R) (w : World X) :
  b <> 0 -> npdiv a b w = Ok (a / b) w.
Proof. intros H. unfold npdiv. rewrite eqb0_false by exact H. reflexivity. Qed.

Lemma uniform_run {X : Type} (low high u : R) (rest : list R) (w : World X) :
  uniforms w = u :: rest ->
  uniform low high w
  = Ok (low + (high - low) * u) (mkWorld (focus w) (calls w) rest (choices w)).
Proof. intros H. unfold uniform, bind, random_sample. rewrite H. reflexivity. Qed.

Lemma primitive_add_run (c : Call) (m : Mesh) (w : World BlenderObject) :
  ops.primitive_add c m w
  = Ok tt (mkWorld (new_object m) (calls w ++ [c]) (uniforms w) (choices w)).
Proof. reflexivity. Qed.

Lemma modifier_bevel_run (s : BevelModifier) (w : World BlenderObject) :
  ops.modifier_bevel E s w
  = Ok tt (mkWorld (with_data (bevel_modifier E s (data (focus w))) (focus w))
                   (calls w ++ [object_modifier_bevel s]) (uniforms w) (choices w)).
Proof. reflexivity. Qed.

Lemma mesh_bevel_run (s : BevelOperator) (w : World BlenderObject) :
  ops.mesh_bevel E s w
  = Ok tt (mkWorld (with_data (bevel E s (data (focus w))) (focus w))
                   (calls w ++ [mesh_bevel (selected_vertices (data (focus w)))
                                           (selected_edges (data (focus w))) s])
                   (uniforms w) (choices w)).
Proof. reflexivity. Qed.

Lemma extrude_region_move_run (v : Vector) (w : World BlenderObject) :
  ops.extrude_region_move E v w
  = Ok tt (mkWorld (with_data (extrude_region E v (data (focus w))) (focus w))
                   (calls w ++ [mesh_extrude_region_move
                                  (selected_vertices (data (focus w))) v])
                   (uniforms w) (choices w)).
Proof. reflexivity. Qed.

Lemma transform_translate_run (v : Vector) (w : World BlenderObject) :
  ops.transform_translate v w
  = Ok tt (mkWorld (with_data (ops.translate_selected v (data (focus w))) (focus w))
                   (calls w ++ [transform_translate
                                  (selected_vertices (data (focus w))) v])
                   (uniforms w) (choices w)).
Proof. reflexivity. Qed.

Lemma transform_resize_run (v : Vector) (w : World BlenderObject) :
  ops.transform_resize E v w
  = Ok tt (mkWorld (with_data (resize E v (data (focus w))) (focus w))
                   (calls w ++ [transform_resize
                                  (selected_vertices (data (focus w))) v])
                   (uniforms w) (choices w)).
Proof. reflexivity. Qed.

Lemma remove_duplicate_vertices_run (w : World BlenderObject) :
  blender.remove_duplicate_vertices E w
  = Ok tt (mkWorld (with_data (remove_doubles E (blender.mesh_select_all true
                                                   (data (focus w)))) (focus w))
                   (calls w ++ [mesh_remove_doubles]) (uniforms w) (choices w)).
Proof. reflexivity. Qed.

(** The mesh after [select_vertices]. *)
Lemma select_vertices_run (f : MeshVertex -> bool) (w : World BlenderObject) :
  blender.select_vertices f w
  = Ok tt (mkWorld
             (with_data
                (mkMesh (map (fun v => if f (mkVertex (co v) false)
                                       then mkVertex (co v) true
                                       else mkVertex (co v) false)
                             (vertices (data (focus w))))
                        (map (fun e => mkEdge (edge_vertices e) false)
                             (edges (data (focus w))))
                        (polygons (data (focus w))))
                (focus w))
             (calls w) (uniforms w) (choices w)).
Proof.
  unfold blender.select_vertices, bind, modify; simpl.
  rewrite map_map. reflexivity.
Qed.

Lemma smooth_edges_skip (degree : R) (n : nat) (w : World BlenderObject) :
  degree * max3 (blender.dimensions (focus w)) < BLENDER_EPS ->
  blender.smooth_edges E degree n w = Ok tt w.
Proof.
  intros H. unfold blender.smooth_edges, bind, get. rewrite ltb_true by exact H.
  reflexivity.
Qed.

Lemma smooth_edges_bevel (degree : R) (n : nat) (w : World BlenderObject) :
  ~ degree * max3 (blender.dimensions (focus w)) < BLENDER_EPS ->
  blender.smooth_edges E degree n w
  = let settings :=
      mkBevelModifier None (Some (degree * max3 (blender.dimensions (focus w))))
                      None (Some n) in
    Ok tt (mkWorld (with_data (bevel_modifier E settings (data (focus w))) (focus w))
                   (calls w ++ [object_modifier_bevel settings])
                   (uniforms w) (choices w)).
Proof.
  intros H. unfold blender.smooth_edges, bind, get. rewrite ltb_false by exact H.
  reflexivity.
Qed.

Lemma translate_run (v : Vector) (w : World BlenderObject) :
  blender.translate E v w
  = Ok tt (mkWorld (translated E v (focus w))
                   (calls w ++ [object_transform_apply v (ob_rotation (focus w))
                                  (ob_scale (focus w))])
                   (uniforms w) (choices w)).
Proof. reflexivity. Qed.

Lemma scale_vector_run (v : Vector) (w : World BlenderObject) :
  blender.scale E (blender.vector v) w
  = Ok tt (mkWorld (blender.transform_apply E (with_scale v (focus w)))
                   (calls w ++ [object_transform_apply (ob_location (focus w))
                                  (ob_rotation (focus w)) v])
                   (uniforms w) (choices w)).
Proof. reflexivity. Qed.

Lemma rotate_run (e : option Vector) (q : option (R * R * R * R))
    (w : World BlenderObject) :
  blender.rotate E e q w
  = Ok tt (mkWorld
             (blender.transform_apply E
                (with_rotation (assigned_rotation e q (ob_rotation (focus w))) (focus w)))
             (calls w ++ [object_transform_apply (ob_location (focus w))
                            (assigned_rotation e q (ob_rotation (focus w)))
                            (ob_scale (focus w))])
             (uniforms w) (choices w)).
Proof.
  destruct e as [angles |]; [| destruct q as [[[[qw qx] qy] qz] |]];
    destruct w as [o cs us ch]; destruct o; reflexivity.
Qed.

End Runs.

(** ** Evaluation on concrete data *)

Ltac eval_extrema :=
  repeat match goal with
  | |- context [Rmax ?a ?b] =>
      first [rewrite (Rmax_left a b) by lra | rewrite (Rmax_right a b) by lra]
  | |- context [Rmin ?a ?b] =>
      first [rewrite (Rmin_left a b) by lra | rewrite (Rmin_right a b) by lra]
  end.

(** Projections of explicit records, and nothing else. *)
Ltac norm :=
  cbn [focus calls uniforms choices data ob_location rotation_mode ob_rotation
       ob_scale with_data with_location with_rotation_mode with_rotation with_scale
       new_object vertices edges polygons co select edge_vertices edge_select
       vx vy vz].

Ltac norm_in H :=
  cbn [focus calls uniforms choices data ob_location rotation_mode ob_rotation
       ob_scale with_data with_location with_rotation_mode with_rotation with_scale
       new_object vertices edges polygons co select edge_vertices edge_select
       vx vy vz] in H.

(** Bounds of an explicit vertex list. *)
Ltac eval_lists :=
  cbn [map fold_right List.app vsub vadd vdiv vmul vscale
       focus calls uniforms choices data ob_location rotation_mode ob_rotation
       ob_scale with_data with_location with_rotation_mode with_rotation with_scale
       new_object vertices edges polygons co select edge_vertices edge_select
       vx vy vz].

Ltac eval_bounds :=
  unfold blender.dimensions, blender.bound_max, blender.bound_min, coords,
         max_of, min_of;
  unfold toy.segment, toy.cube, toy.ico_sphere, toy.cylinder, toy.circle,
         toy.vertex, new_object;
  eval_lists; eval_extrema.

Lemma segment_dimensions : blender.dimensions toy.segment = vec 1 1 1.
Proof. eval_bounds. unfold vsub; cbn [vx vy vz]. f_equal; lra. Qed.

(** Carry the identity of the local transform over one run. *)
Tactic Notation "carry" hyp(Hid) "over" hyp(Hrun) "as" ident(N) :=
  match type of Hrun with
  | ?c ?w = Ok ?a ?w' =>
      assert (N : keeps_identity c) by keeps_auto;
      specialize (N w a w' Hid Hrun)
  end.

(** ** Nominal size *)

(** The builders of [shapes/fcc.py], unfolded one level. *)
Section Unfold.
Variable E : Engine.
Import blender.

Lemma Cube_eq (size sd : R) :
  fcc.Cube E size sd
  = (basic.Box E (scalar size) ;; smooth_edges E sd 3 ;;
     o <- get ;; k <- pydiv size (max3 (dimensions o)) ;; scale E (scalar k)).
Proof. reflexivity. Qed.

Lemma Octahedron_eq (size sd : R) :
  fcc.Octahedron E size sd = fcc.TruncatedOctahedron E size 0 sd.
Proof. reflexivity. Qed.

Lemma TruncatedOctahedron_eq (size t sd : R) :
  fcc.TruncatedOctahedron E size t sd
  = (basic.Octahedron E size t ;; smooth_edges E sd 3 ;;
     d <- enclosing_sphere_diameter ;; k <- pydiv size d ;; scale E (scalar k)).
Proof. reflexivity. Qed.

Lemma Icosahedron_eq (size sd : R) :
  fcc.Icosahedron E size sd
  = (basic.Icosahedron E size ;; smooth_edges E sd 3 ;;
     d <- enclosing_sphere_diameter ;; k <- pydiv size d ;; scale E (scalar k)).
Proof. reflexivity. Qed.

Lemma Triangle_eq (size h ts es : R) :
  fcc.Triangle E size h ts es
  = (basic.Prism E 3 size h 0 ts es 3 ;;
     o <- get ;;
     k <- npdiv size (hypot (vx (dimensions o)) (vy (dimensions o))) ;;
     scale E (scalar k)).
Proof. reflexivity. Qed.

Lemma Decahedron_eq (size sd : R) :
  fcc.Decahedron E size sd
  = (basic.Bipyramid E 5 size (1.547 * size / 2) 0 ;; smooth_edges E sd 3 ;;
     o <- get ;;
     k <- npdiv size (hypot (vx (dimensions o)) (vy (dimensions o))) ;;
     scale E (scalar k)).
Proof. reflexivity. Qed.

Lemma Bipyramid_eq (h t sd : R) :
  fcc.Bipyramid E h t sd
  = (basic.Bipyramid E 5 (h / 3.7321) h t ;; smooth_edges E sd 3 ;;
     o <- get ;; k <- pydiv h (vz (dimensions o)) ;; scale E (scalar k)).
Proof. reflexivity. Qed.

Lemma Prism_eq (n : nat) (size h t ts es : R) (segs : nat) :
  basic.Prism E n size h t ts es segs
  = (ops.primitive_add (primitive_cylinder_add n (size / 2) h)
                       (cylinder E n (size / 2) h) ;;
     (if ltb 0 t then
        select_edges basic.is_edge_vertical ;;
        ops.mesh_bevel E
          (mkBevelOperator None (Some PERCENT) None (Some (100 * (t * 0.5)))
                           None (Some true)) ;;
        remove_duplicate_vertices E
      else ret tt) ;;
     (if ltb 0 ts then
        select_edges basic.is_edge_vertical ;;
        o <- get ;;
        ops.mesh_bevel E
          (mkBevelOperator None None (Some (ts * vx (dimensions o)))
                           None (Some segs) (Some true)) ;;
        remove_duplicate_vertices E
      else ret tt) ;;
     (if ltb 0 es then
        select_edges (fun self x => option_map negb (basic.is_edge_vertical self x)) ;;
        o <- get ;;
        ops.mesh_bevel E
          (mkBevelOperator None None (Some (es * vz (dimensions o)))
                           None (Some segs) (Some true)) ;;
        remove_duplicate_vertices E
      else ret tt) ;;
     o <- get ;;
     k <- npdiv size (hypot (vx (dimensions o)) (vy (dimensions o))) ;;
     scale E (scalar k)).
Proof. reflexivity. Qed.

End Unfold.

Section NominalSize.
Variable E : Engine.
Variables (s : R) (w w' : World BlenderObject).
Hypothesis Hs : 0 < s.

Lemma Cube_size (sd : R) :
  fcc.Cube E s sd w = Ok tt w' -> max3 (blender.dimensions (focus w')) = s.
Proof.
  intros H. rewrite Cube_eq in H.
  peel H as a1 w1 H1. peel H as a2 w2 H2.
  pose proof (sets_Box E _ _ _ _ H1) as Hid1.
  carry Hid1 over H2 as Hid2.
  eapply rescale_max3; eassumption.
Qed.

Lemma Octahedron_size (t sd : R) :
  fcc.TruncatedOctahedron E s t sd w = Ok tt w' -> diameter_of (focus w') = Some s.
Proof.
  intros H. rewrite TruncatedOctahedron_eq in H.
  peel H as a1 w1 H1. peel H as a2 w2 H2.
  pose proof (sets_basic_Octahedron E _ _ _ _ _ H1) as Hid1.
  carry Hid1 over H2 as Hid2.
  eapply rescale_diameter; eassumption.
Qed.

Lemma Icosahedron_size (sd : R) :
  fcc.Icosahedron E s sd w = Ok tt w' -> diameter_of (focus w') = Some s.
Proof.
  intros H. rewrite Icosahedron_eq in H.
  peel H as a1 w1 H1. peel H as a2 w2 H2.
  pose proof (sets_basic_Icosahedron E _ _ _ _ H1) as Hid1.
  carry Hid1 over H2 as Hid2.
  eapply rescale_diameter; eassumption.
Qed.

Lemma Prism_size (n : nat) (h t ts es : R) (segs : nat) :
  basic.Prism E n s h t ts es segs w = Ok tt w' -> planar_diagonal (focus w') = s.
Proof.
  intros H. rewrite Prism_eq in H.
  peel H as a1 w1 H1. peel H as a2 w2 H2. peel H as a3 w3 H3. peel H as a4 w4 H4.
  pose proof (sets_primitive_add _ _ _ _ _ H1) as Hid1.
  carry Hid1 over H2 as Hid2. carry Hid2 over H3 as Hid3. carry Hid3 over H4 as Hid4.
  eapply rescale_diagonal; eassumption.
Qed.

Lemma Triangle_size (h ts es : R) :
  fcc.Triangle E s h ts es w = Ok tt w' -> planar_diagonal (focus w') = s.
Proof.
  intros H. rewrite Triangle_eq in H.
  peel H as a1 w1 H1.
  pose proof (sets_basic_Prism E _ _ _ _ _ _ _ _ _ _ H1) as Hid1.
  eapply rescale_diagonal; eassumption.
Qed.

Lemma Decahedron_size (sd : R) :
  fcc.Decahedron E s sd w = Ok tt w' -> planar_diagonal (focus w') = s.
Proof.
  intros H. rewrite Decahedron_eq in H.
  peel H as a1 w1 H1. peel H as a2 w2 H2.
  pose proof (sets_basic_Bipyramid E _ _ _ _ _ _ _ H1) as Hid1.
  carry Hid1 over H2 as Hid2.
  eapply rescale_diagonal; eassumption.
Qed.

Lemma Bipyramid_size (tt' sd : R) :
  fcc.Bipyramid E s tt' sd w = Ok tt w' -> vz (blender.dimensions (focus w')) = s.
Proof.
  intros H. rewrite Bipyramid_eq in H.
  peel H as a1 w1 H1. peel H as a2 w2 H2.
  pose proof (sets_basic_Bipyramid E _ _ _ _ _ _ _ H1) as Hid1.
  carry Hid1 over H2 as Hid2.
  eapply rescale_z; eassumption.
Qed.

End NominalSize.

(** The builder of each family, and its metric after a run. *)
Section PerFamily.
Variable E : Engine.
Variables (s : R) (p : families.Parameters) (w w' : World BlenderObject).
Hypothesis Hs : 0 < s.

Lemma builder_Cube :
  families.builder E families.Cube s p
  = fcc.Cube E s (families.smoothing_degree p).
Proof. reflexivity. Qed.

Lemma metric_Cube :
  families.builder E families.Cube s p w = Ok tt w' ->
  families.size_metric families.Cube (focus w') = Some s.
Proof.
  intros H. rewrite builder_Cube in H.
  apply (f_equal Some). eapply Cube_size; eassumption.
Qed.

Lemma builder_Octahedron :
  families.builder E families.Octahedron s p
  = fcc.Octahedron E s (families.smoothing_degree p).
Proof. reflexivity. Qed.

Lemma metric_Octahedron :
  families.builder E families.Octahedron s p w = Ok tt w' ->
  families.size_metric families.Octahedron (focus w') = Some s.
Proof.
  intros H. rewrite builder_Octahedron in H. rewrite Octahedron_eq in H.
  eapply Octahedron_size; eassumption.
Qed.

Lemma builder_TruncatedOctahedron :
  families.builder E families.TruncatedOctahedron s p
  = fcc.TruncatedOctahedron E s (families.truncation_degree p) (families.smoothing_degree p).
Proof. reflexivity. Qed.

Lemma metric_TruncatedOctahedron :
  families.builder E families.TruncatedOctahedron s p w = Ok tt w' ->
  families.size_metric families.TruncatedOctahedron (focus w') = Some s.
Proof.
  intros H. rewrite builder_TruncatedOctahedron in H.
  eapply Octahedron_size; eassumption.
Qed.

Lemma builder_Icosahedron :
  families.builder E families.Icosahedron s p
  = fcc.Icosahedron E s (families.smoothing_degree p).
Proof. reflexivity. Qed.

Lemma metric_Icosahedron :
  families.builder E families.Icosahedron s p w = Ok tt w' ->
  families.size_metric families.Icosahedron (focus w') = Some s.
Proof.
  intros H. rewrite builder_Icosahedron in H.
  eapply Icosahedron_size; eassumption.
Qed.

Lemma builder_Triangle :
  families.builder E families.Triangle s p
  = fcc.Triangle E s (families.height p) (families.tips_smoothing_degree p) (families.edges_smoothing_degree p).
Proof. reflexivity. Qed.

Lemma metric_Triangle :
  families.builder E families.Triangle s p w = Ok tt w' ->
  families.size_metric families.Triangle (focus w') = Some s.
Proof.
  intros H. rewrite builder_Triangle in H.
  apply (f_equal Some). eapply Triangle_size; eassumption.
Qed.

Lemma builder_TruncatedTriangle :
  families.builder E families.TruncatedTriangle s p
  = basic.Prism E 3 s (families.height p) (families.truncation_degree p) (families.tips_smoothing_degree p) (families.edges_smoothing_degree p) 3.
Proof. reflexivity. Qed.

Lemma metric_TruncatedTriangle :
  families.builder E families.TruncatedTriangle s p w = Ok tt w' ->
  families.size_metric families.TruncatedTriangle (focus w') = Some s.
Proof.
  intros H. rewrite builder_TruncatedTriangle in H.
  apply (f_equal Some). eapply Prism_size; eassumption.
Qed.

Lemma builder_Square :
  families.builder E families.Square s p
  = basic.Prism E 4 s (families.height p) (families.truncation_degree p) (families.tips_smoothing_degree p) (families.edges_smoothing_degree p) 3.
Proof. reflexivity. Qed.

Lemma metric_Square :
  families.builder E families.Square s p w = Ok tt w' ->
  families.size_metric families.Square (focus w') = Some s.
Proof.
  intros H. rewrite builder_Square in H.
  apply (f_equal Some). eapply Prism_size; eassumption.
Qed.

Lemma builder_Hexagon :
  families.builder E families.Hexagon s p
  = basic.Prism E 6 s (families.height p) (families.truncation_degree p) (families.tips_smoothing_degree p) (families.edges_smoothing_degree p) 3.
Proof. reflexivity. Qed.

Lemma metric_Hexagon :
  families.builder E families.Hexagon s p w = Ok tt w' ->
  families.size_metric families.Hexagon (focus w') = Some s.
Proof.
  intros H. rewrite builder_Hexagon in H.
  apply (f_equal Some). eapply Prism_size; eassumption.
Qed.

Lemma builder_Decahedron :
  families.builder E families.Decahedron s p
  = fcc.Decahedron E s (families.smoothing_degree p).
Proof. reflexivity. Qed.

Lemma metric_Decahedron :
  families.builder E families.Decahedron s p w = Ok tt w' ->
  families.size_metric families.Decahedron (focus w') = Some s.
Proof.
  intros H. rewrite builder_Decahedron in H.
  apply (f_equal Some). eapply Decahedron_size; eassumption.
Qed.

Lemma builder_Bipyramid :
  families.builder E families.Bipyramid s p
  = fcc.Bipyramid E s (families.tips_truncation_degree p) (families.smoothing_degree p).
Proof. reflexivity. Qed.

Lemma metric_Bipyramid :
  families.builder E families.Bipyramid s p w = Ok tt w' ->
  families.size_metric families.Bipyramid (focus w') = Some s.
Proof.
  intros H. rewrite builder_Bipyramid in H.
  apply (f_equal Some). eapply Bipyramid_size; eassumption.
Qed.

End PerFamily.

(** *** How a builder stops *)












(** ** Transforms are baked *)

Lemma coords_baked (E : Engine) (o : BlenderObject) :
  coords (data (blender.transform_apply E o))
  = map (fun p => vadd (ob_location o)
                    (rotate_vector E (ob_rotation o) (vmul (ob_scale o) p)))
        (coords (data o)).
Proof.
  unfold coords, blender.transform_apply, map_co. cbn [data vertices].
  rewrite !map_map. apply map_ext. intros v. reflexivity.
Qed.

(** C9: [translate], [rotate] and [scale] always return, bake the transform
    they assign into the vertex coordinates (every coordinate [p] becomes
    location + rotation (scale * p) for the assigned transform) and leave
    the local transform (location, rotation, scale) at the identity; every
    other public method of a reference keeps it there ([position_randomly]
    and [apply_random_rotation] end in a baked transform themselves). *)
Theorem C9_transforms_baked (E : Engine) (w : World BlenderObject) :
  (forall v, exists w',
      blender.translate E v w = Ok tt w'
      /\ transform_is_identity (focus w')
      /\ coords (data (focus w'))
         = map (fun p => vadd v (rotate_vector E (ob_rotation (focus w))
                                   (vmul (ob_scale (focus w)) p)))
               (coords (data (focus w))))
  /\ (forall e q, exists w',
      blender.rotate E e q w = Ok tt w'
      /\ transform_is_identity (focus w')
      /\ coords (data (focus w'))
         = map (fun p => vadd (ob_location (focus w))
                           (rotate_vector E (assigned_rotation e q (ob_rotation (focus w)))
                              (vmul (ob_scale (focus w)) p)))
               (coords (data (focus w))))
  /\ (forall sv, exists w',
      blender.scale E sv w = Ok tt w'
      /\ transform_is_identity (focus w')
      /\ coords (data (focus w'))
         = map (fun p => vadd (ob_location (focus w))
                           (rotate_vector E (ob_rotation (focus w))
                              (vmul match sv with
                                    | blender.scalar s => vec s s s
                                    | blender.vector v => v
                                    end p)))
               (coords (data (focus w))))
  /\ (forall box fit, sets_identity (blender.position_randomly E box fit))
  /\ sets_identity (blender.apply_random_rotation E)
  /\ (forall degree n, keeps_identity (blender.smooth_edges E degree n))
  /\ (forall other op, keeps_identity (blender.apply_boolean E other op))
  /\ keeps_identity (blender.remove_duplicate_vertices E)
  /\ (forall f, keeps_identity (blender.select_vertices f))
  /\ (forall f, keeps_identity (blender.select_edges f))
  /\ keeps_identity blender.clear_selection
  /\ keeps_identity blender.enclosing_sphere_diameter.
Proof.
  split; [| split; [| split; [| split; [| split]]]].
  - intros v. eexists. split; [apply translate_run |].
    split; [apply transform_apply_identity |]. cbn [focus]. unfold translated.
    rewrite coords_baked. reflexivity.
  - intros e q. eexists. split; [apply rotate_run |].
    split; [apply transform_apply_identity |]. cbn [focus].
    rewrite coords_baked. reflexivity.
  - intros sv. destruct sv as [s | v]; eexists.
    + split; [apply scale_run |]. split; [apply transform_apply_identity |].
      cbn [focus]. unfold scaled. rewrite coords_baked. reflexivity.
    + split; [apply scale_vector_run |]. split; [apply transform_apply_identity |].
      cbn [focus]. rewrite coords_baked. reflexivity.
  - intros [[[[[x_min x_max] y_min] y_max] z_min] z_max] fit.
    unfold blender.position_randomly.
    do 3 (apply sets_bind_r; intro). apply sets_bind_l; [apply sets_translate | intro].
    apply keeps_ret.
  - unfold blender.apply_random_rotation.
    do 4 (apply sets_bind_r; intro).
    destruct (eqb0 _).
    + intros ? ? ? H. discriminate.
    + apply sets_bind_l; [apply sets_rotate | intro]. apply keeps_ret.
  - refine (conj _ (conj _ (conj _ (conj _ (conj _ (conj _ _)))))); intros.
    + apply keeps_smooth_edges.
    + apply keeps_apply_boolean.
    + apply keeps_remove_duplicate_vertices.
    + apply keeps_select_vertices.
    + apply keeps_select_edges.
    + apply keeps_clear_selection.
    + apply keeps_enclosing_sphere_diameter.
Qed.

(** ** Uniform scaling *)

(** C10 as stated fails for a negative factor: scaling the segment from
    (0,0,0) to (1,1,1) by -1 leaves its dimensions at (1,1,1), they do not
    become (-1,-1,-1). *)
Lemma C10_counterexample :
  exists w',
    blender.scale toy.engine (blender.scalar (-1)) (toy.start toy.segment [] [])
    = Ok tt w'
    /\ blender.dimensions (focus w') <> vscale (-1) (blender.dimensions toy.segment).
Proof.
  eexists. split; [apply scale_run |]. cbn [focus toy.start].
  rewrite scaled_dimensions by (repeat split). rewrite segment_dimensions.
  intros H. apply (f_equal vx) in H. cbn [vx vscale] in H.
  rewrite Rabs_left in H by lra. lra.
Qed.

(** C10, amended: on an entity whose local transform is the identity,
    [scale(s)] on a number [s] is [scale((s, s, s))], it multiplies every
    vertex coordinate by [s], and the dimensions and the enclosing-sphere
    diameter are multiplied by [|s|]: by [s] itself when [s >= 0], which is
    the case of every final rescale. *)
Theorem C10_scale_uniform (E : Engine) (s : R) (w : World BlenderObject) :
  transform_is_identity (focus w) ->
  exists w',
    blender.scale E (blender.scalar s) w = Ok tt w'
    /\ blender.scale E (blender.vector (vec s s s)) w = Ok tt w'
    /\ coords (data (focus w')) = map (vscale s) (coords (data (focus w)))
    /\ blender.dimensions (focus w') = vscale (Rabs s) (blender.dimensions (focus w))
    /\ diameter_of (focus w') = option_map (Rmult (Rabs s)) (diameter_of (focus w))
    /\ (0 <= s ->
        blender.dimensions (focus w') = vscale s (blender.dimensions (focus w))
        /\ diameter_of (focus w') = option_map (Rmult s) (diameter_of (focus w))).
Proof.
  intros Hid. eexists. split; [apply scale_run |]. split; [reflexivity |].
  cbn [focus]. split; [apply scaled_coords, Hid |].
  split; [apply scaled_dimensions, Hid |].
  split; [apply scaled_diameter, Hid |].
  intros Hs. rewrite scaled_dimensions, scaled_diameter by exact Hid.
  rewrite Rabs_right by lra. split; reflexivity.
Qed.

Lemma C10_witness :
  exists w',
    blender.scale toy.engine (blender.scalar 2) (toy.start toy.segment [] []) = Ok tt w'
    /\ blender.dimensions (focus w') = vscale (Rabs 2) (blender.dimensions toy.segment).
Proof.
  destruct (C10_scale_uniform toy.engine 2 (toy.start toy.segment [] []))
    as (w' & H1 & _ & _ & H2 & _).
  - repeat split.
  - exists w'. split; [exact H1 | exact H2].
Defined.

(** * Further properties of the code *)

(** ** Measurements *)

Section Measurements.
Variable E : Engine.

Lemma coords_in (o : BlenderObject) (v : MeshVertex) :
  In v (vertices (data o)) -> In (co v) (coords (data o)).
Proof. intros H. unfold coords. apply in_map. exact H. Qed.

Lemma vertex_within_bounds (o : BlenderObject) (v : MeshVertex) :
  In v (vertices (data o)) ->
  vx (blender.bound_min o) <= vx (co v) <= vx (blender.bound_max o)
  /\ vy (blender.bound_min o) <= vy (co v) <= vy (blender.bound_max o)
  /\ vz (blender.bound_min o) <= vz (co v) <= vz (blender.bound_max o).
Proof.
  intros Hin.
  apply coords_in in Hin. unfold blender.bound_min, blender.bound_max.
  destruct (coords (data o)) as [| p ps]; [contradiction |]. cbn [vx vy vz].
  assert (Hx : In (vx (co v)) (vx p :: map vx ps)) by (apply (in_map vx _ _ Hin)).
  assert (Hy : In (vy (co v)) (vy p :: map vy ps)) by (apply (in_map vy _ _ Hin)).
  assert (Hz : In (vz (co v)) (vz p :: map vz ps)) by (apply (in_map vz _ _ Hin)).
  repeat split;
    first [apply min_of_lower; assumption | apply max_of_upper; assumption].
Qed.

Lemma diameter_spec (w : World BlenderObject) :
  match blender.enclosing_sphere_diameter w with
  | Stop h => h = raised ValueError /\ vertices (data (focus w)) = []
  | Ok d w' =>
      w' = w /\ 0 <= d
      /\ (forall v, In v (vertices (data (focus w))) ->
            length (vsub (co v) (blender.location (focus w))) <= d / 2)
      /\ (exists v, In v (vertices (data (focus w)))
            /\ length (vsub (co v) (blender.location (focus w))) = d / 2)
  end.
Proof.
  rewrite enclosing_sphere_diameter_run.
  destruct (diameter_of (focus w)) as [d |] eqn:Hd.
  - split; [reflexivity |]. split; [eapply diameter_nonneg; exact Hd |].
    unfold diameter_of in Hd.
    set (f := fun v => length (vsub (co v) (blender.location (focus w)))) in *.
    destruct (map f (vertices (data (focus w)))) as [| x xs] eqn:Hm; [discriminate |].
    assert (Hdx : d / 2 = max_of x xs) by (inversion Hd; lra).
    rewrite Hdx. split.
    + intros v Hin. apply (in_map f) in Hin. rewrite Hm in Hin.
      apply (max_of_upper x (f v) xs Hin).
    + pose proof (max_of_attained x xs) as Hatt. rewrite <- Hm in Hatt.
      apply in_map_iff in Hatt. destruct Hatt as (v & Hv & Hin).
      exists v. split; [exact Hin | exact Hv].
  - split; [reflexivity |]. unfold diameter_of in Hd.
    destruct (vertices (data (focus w))); [reflexivity | discriminate].
Qed.

(** [enclosing_sphere_diameter] raises [ValueError] on an entity without
    vertices.  Otherwise it returns, without changing the state, a diameter
    [d >= 0] such that every vertex is within [d / 2] of [location] and some
    vertex is exactly that far. *)
Theorem enclosing_sphere_diameter_spec (w : World BlenderObject) :
  match blender.enclosing_sphere_diameter w with
  | Stop h => h = raised ValueError /\ vertices (data (focus w)) = []
  | Ok d w' =>
      w' = w /\ 0 <= d
      /\ (forall v, In v (vertices (data (focus w))) ->
            length (vsub (co v) (blender.location (focus w))) <= d / 2)
      /\ (exists v, In v (vertices (data (focus w)))
            /\ length (vsub (co v) (blender.location (focus w))) = d / 2)
  end.
Proof. exact (diameter_spec w). Qed.

End Measurements.

(** ** Translation *)

Section Translation.
Variable E : Engine.

Lemma translated_coords (v : Vector) (o : BlenderObject) :
  transform_is_identity o ->
  coords (data (translated E v o)) = map (vadd v) (coords (data o)).
Proof.
  intros (_ & Hr & Hs). unfold translated.
  rewrite coords_transform_apply by exact Hr. cbn [ob_location ob_scale with_location].
  rewrite Hs. apply map_ext. intros p. unfold vadd, vmul; simpl. f_equal; ring.
Qed.

Lemma translated_bounds (v : Vector) (o : BlenderObject) :
  transform_is_identity o -> vertices (data o) <> [] ->
  blender.bound_min (translated E v o) = vadd v (blender.bound_min o)
  /\ blender.bound_max (translated E v o) = vadd v (blender.bound_max o).
Proof.
  intros Hid Hne.
  destruct (bounds_affine o (translated E v o) v (vec 1 1 1)) as [H1 H2];
    cbn [vx vy vz]; try lra.
  - rewrite translated_coords by exact Hid. apply map_ext. intros p.
    unfold vadd, vmul; simpl. f_equal; ring.
  - left. unfold coords. destruct (vertices (data o)); [contradiction | discriminate].
  - rewrite H1, H2. unfold vadd, vmul; simpl. split; f_equal; ring.
Qed.

Lemma translation_spec (v : Vector) (w : World BlenderObject) :
  transform_is_identity (focus w) -> vertices (data (focus w)) <> [] ->
  exists w',
    blender.translate E v w = Ok tt w'
    /\ coords (data (focus w')) = map (vadd v) (coords (data (focus w)))
    /\ blender.location (focus w') = vadd v (blender.location (focus w))
    /\ blender.dimensions (focus w') = blender.dimensions (focus w)
    /\ diameter_of (focus w') = diameter_of (focus w).
Proof.
  intros Hid Hne. eexists. split; [apply translate_run |]. cbn [focus].
  destruct (translated_bounds v (focus w) Hid Hne) as [H1 H2].
  assert (Hloc : blender.location (translated E v (focus w))
                 = vadd v (blender.location (focus w))).
  { rewrite !location_eq, H1, H2. unfold vadd; simpl. f_equal; field. }
  split; [apply translated_coords, Hid |]. split; [exact Hloc |]. split.
  - unfold blender.dimensions. rewrite H1, H2. unfold vsub, vadd; simpl. f_equal; ring.
  - rewrite (diameter_similar (focus w) (translated E v (focus w)) v 1).
    + rewrite Rabs_R1. destruct (diameter_of (focus w)); simpl; [f_equal; ring | reflexivity].
    + rewrite translated_coords by exact Hid. apply map_ext. intros p.
      unfold vadd, vscale; simpl. f_equal; ring.
    + rewrite Hloc. unfold vadd, vscale; simpl. f_equal; ring.
Qed.

(** [translate(v)] on an entity with vertices and an identity transform
    moves every vertex and the bounding box centre by [v] and keeps the
    dimensions and the enclosing-sphere diameter. *)
Theorem translate_rigid (v : Vector) (w : World BlenderObject) :
  transform_is_identity (focus w) -> vertices (data (focus w)) <> [] ->
  exists w',
    blender.translate E v w = Ok tt w'
    /\ coords (data (focus w')) = map (vadd v) (coords (data (focus w)))
    /\ blender.location (focus w') = vadd v (blender.location (focus w))
    /\ blender.dimensions (focus w') = blender.dimensions (focus w)
    /\ diameter_of (focus w') = diameter_of (focus w).
Proof. exact (translation_spec v w). Qed.

End Translation.

Lemma translate_rigid_witness :
  exists w',
    blender.translate toy.engine (vec 1 2 3) (toy.start toy.segment [] []) = Ok tt w'
    /\ blender.dimensions (focus w') = blender.dimensions toy.segment.
Proof.
  destruct (translate_rigid toy.engine (vec 1 2 3) (toy.start toy.segment [] []))
    as (w' & H1 & _ & _ & H2 & _).
  - repeat split.
  - discriminate.
  - exists w'. split; [exact H1 | exact H2].
Defined.

(** ** Placement *)

Section Placement.
Variable E : Engine.
Import blender.

Lemma position_randomly_eq (x_min x_max y_min y_max z_min z_max : R) (fit : bool) :
  position_randomly E (x_min, x_max, y_min, y_max, z_min, z_max) fit
  = (o <- get ;;
     shift <- uniform3 (min_shift x_min y_min z_min o) (max_shift x_max y_max z_max o) ;;
     shift <- (if fit then
                 fun w =>
                   match redraw (objects_fits_in_cylinder y_min y_max z_min z_max o)
                           (min_shift x_min y_min z_min o)
                           (max_shift x_max y_max z_max o) shift (uniforms w) with
                   | Some (shift, rest) =>
                       Ok shift (mkWorld (focus w) (calls w) rest (choices w))
                   | None => Stop out_of_draws
                   end
               else ret shift) ;;
     translate E shift ;;
     ret shift).
Proof. reflexivity. Qed.

Lemma uniform3_ok {X : Type} (low high s : Vector) (w w1 : World X) :
  uniform3 low high w = Ok s w1 ->
  exists u1 u2 u3 rest,
    uniforms w = u1 :: u2 :: u3 :: rest
    /\ s = uniform_of low high u1 u2 u3
    /\ w1 = mkWorld (focus w) (calls w) rest (choices w).
Proof.
  unfold uniform3, bind, random_sample, ret.
  destruct (uniforms w) as [| u1 [| u2 [| u3 rest]]]; cbn [uniforms];
    intros H; try discriminate.
  inversion H. exists u1, u2, u3, rest. auto.
Qed.

Lemma uniform3_run {X : Type} (low high : Vector) (u1 u2 u3 : R) (rest : list R)
    (w : World X) :
  uniforms w = u1 :: u2 :: u3 :: rest ->
  uniform3 low high w
  = Ok (uniform_of low high u1 u2 u3) (mkWorld (focus w) (calls w) rest (choices w)).
Proof.
  intros H. unfold uniform3, bind, random_sample, ret. rewrite H. reflexivity.
Qed.

Lemma uniform_of_between (low high : Vector) (u1 u2 u3 : R) :
  between low high high ->
  0 <= u1 < 1 -> 0 <= u2 < 1 -> 0 <= u3 < 1 ->
  between low high (uniform_of low high u1 u2 u3).
Proof.
  unfold between, uniform_of; cbn [vx vy vz].
  intros ((Hx & _) & (Hy & _) & (Hz & _)) H1 H2 H3. repeat split; nra.
Qed.

(** The loop stops at a candidate that fits, and every candidate is a
    uniform draw between the two bounds. *)
Lemma redraw_accepts (fits : Vector -> bool) (low high : Vector) :
  between low high high ->
  forall (draws : list R) (shift s : Vector) (rest : list R),
    unit_draws draws -> between low high shift ->
    redraw fits low high shift draws = Some (s, rest) ->
    fits s = true /\ between low high s.
Proof.
  intros Hlh draws.
  assert (Hn : forall n draws, (List.length draws <= n)%nat ->
             forall shift s rest, unit_draws draws -> between low high shift ->
             redraw fits low high shift draws = Some (s, rest) ->
             fits s = true /\ between low high s).
  { clear draws. induction n as [| n IH]; intros draws Hlen shift s rest Hu Hb H.
    - destruct draws; [| simpl in Hlen; lia]. simpl in H.
      destruct (fits shift) eqn:Hf; [| discriminate]. inversion H; subst. auto.
    - destruct draws as [| u1 [| u2 [| u3 more]]]; simpl in H;
        destruct (fits shift) eqn:Hf; try discriminate;
        try (inversion H; subst; auto; fail).
      apply (IH more) in H; [exact H | simpl in Hlen; lia | |].
      + inversion Hu as [| ? ? _ Hu1]. inversion Hu1 as [| ? ? _ Hu2].
        inversion Hu2 as [| ? ? _ Hu3]. exact Hu3.
      + inversion Hu as [| ? ? A1 Hu1]. inversion Hu1 as [| ? ? A2 Hu2].
        inversion Hu2 as [| ? ? A3 Hu3]. apply uniform_of_between; assumption. }
  intros shift s rest. apply (Hn (List.length draws)). lia.
Qed.

End Placement.

Section PlacementTheorem.
Variable E : Engine.
Import blender.

Lemma hypot_comm_arg (a b c d : R) : a = c -> b = d -> hypot a b = hypot c d.
Proof. intros -> ->. reflexivity. Qed.

Lemma placement_spec (box : R * R * R * R * R * R) (fit : bool)
    (w w' : World BlenderObject) (shift : Vector) :
  transform_is_identity (focus w) ->
  vertices (data (focus w)) <> [] ->
  unit_draws (uniforms w) ->
  fits_box box (focus w) ->
  position_randomly E box fit w = Ok shift w' ->
  coords (data (focus w')) = map (vadd shift) (coords (data (focus w)))
  /\ calls w' = calls w ++ [object_transform_apply shift identity_rotation (vec 1 1 1)]
  /\ transform_is_identity (focus w')
  /\ inside_box box (focus w')
  /\ (fit = true ->
      forall v, In v (vertices (data (focus w'))) -> inside_cylinder box (co v)).
Proof.
  destruct box as [[[[[x_min x_max] y_min] y_max] z_min] z_max].
  intros Hid Hne Hu Hfit H. rewrite position_randomly_eq in H.
  peel H as o w1 Hget. rewrite get_run in Hget. inversion Hget; subst o w1. clear Hget.
  set (o := focus w) in *.
  set (lo := min_shift x_min y_min z_min o) in *.
  set (hi := max_shift x_max y_max z_max o) in *.
  assert (Hlh : between lo hi hi).
  { unfold between, lo, hi, min_shift, max_shift. rewrite location_eq.
    unfold fits_box in Hfit. unfold dimensions, vsub, vadd, vdiv in *.
    cbn [vx vy vz] in *. repeat split; lra. }
  peel H as s0 w1 Hdraw. apply uniform3_ok in Hdraw.
  destruct Hdraw as (u1 & u2 & u3 & rest & Hus & Hs0 & Hw1).
  unfold unit_draws in Hu. rewrite Hus in Hu.
  inversion Hu as [| ? ? A1 Hu1]. inversion Hu1 as [| ? ? A2 Hu2].
  inversion Hu2 as [| ? ? A3 Hu3]. subst.
  assert (Hb0 : between lo hi (uniform_of lo hi u1 u2 u3))
    by (apply uniform_of_between; assumption).
  peel H as s w2 Hloop.
  assert (Hacc : (fit = true -> objects_fits_in_cylinder y_min y_max z_min z_max o s = true)
                 /\ between lo hi s
                 /\ focus w2 = o /\ calls w2 = calls w).
  { destruct fit.
    - cbn [uniforms] in Hloop.
      destruct (redraw _ lo hi (uniform_of lo hi u1 u2 u3) rest) as [[s' rest'] |] eqn:Hr;
        [| discriminate].
      inversion Hloop; subst. cbn [focus calls].
      destruct (redraw_accepts _ lo hi Hlh rest _ _ _ Hu3 Hb0 Hr) as [Hf Hb].
      repeat split; auto; apply Hb.
    - inversion Hloop; subst. cbn [focus calls].
      repeat split; try discriminate; apply Hb0. }
  destruct Hacc as (Hcyl & Hb & Hfocus & Hcalls).
  peel H as u w3 Htr. rewrite translate_run in Htr. inversion Htr; subst u w3. clear Htr.
  inversion H; subst shift w'. clear H. cbn [focus calls]. rewrite Hfocus, Hcalls.
  destruct Hid as (Hl & Hr & Hsc). fold o in Hl, Hr, Hsc.
  assert (Hid : transform_is_identity o) by (repeat split; assumption).
  destruct (translated_bounds E s o Hid Hne) as [Hmin Hmax].
  split; [apply translated_coords, Hid |].
  split; [rewrite Hr, Hsc; reflexivity |].
  split; [apply transform_apply_identity |].
  split.
  - unfold inside_box. rewrite Hmin, Hmax.
    unfold between, lo, hi, min_shift, max_shift in Hb. rewrite location_eq in Hb.
    unfold dimensions, vsub, vadd, vdiv in *. cbn [vx vy vz] in *. repeat split; lra.
  - intros Hf v Hin. specialize (Hcyl Hf).
    unfold objects_fits_in_cylinder in Hcyl. rewrite forallb_forall in Hcyl.
    unfold translated, transform_apply, map_co in Hin. cbn [data vertices] in Hin.
    apply in_map_iff in Hin. destruct Hin as (v0 & Hv & Hin0). subst v.
    specialize (Hcyl v0 Hin0). unfold point_fits_in_cylinder in Hcyl.
    apply ltb_spec in Hcyl. cbn [fst snd] in Hcyl.
    unfold inside_cylinder. cbn [co with_location ob_location ob_rotation ob_scale].
    rewrite Hr, rotate_vector_identity, Hsc.
    erewrite hypot_comm_arg; [exact Hcyl | |];
      unfold vadd, vmul; cbn [vx vy vz]; ring.
Qed.

(** [position_randomly]: for an entity with vertices and an identity
    transform that is no larger than the box on any axis, and an oracle of
    draws in [[0, 1)], every shift the method returns has been applied to all
    vertices as one baked translation, puts the bounding box inside the box
    and, when [fit_in_cylinder] is set, puts every vertex strictly inside
    the cylinder around the box's (y, z) centre. *)
Theorem position_randomly_places (box : R * R * R * R * R * R) (fit : bool)
    (w w' : World BlenderObject) (shift : Vector) :
  transform_is_identity (focus w) ->
  vertices (data (focus w)) <> [] ->
  unit_draws (uniforms w) ->
  fits_box box (focus w) ->
  position_randomly E box fit w = Ok shift w' ->
  coords (data (focus w')) = map (vadd shift) (coords (data (focus w)))
  /\ calls w' = calls w ++ [object_transform_apply shift identity_rotation (vec 1 1 1)]
  /\ transform_is_identity (focus w')
  /\ inside_box box (focus w')
  /\ (fit = true ->
      forall v, In v (vertices (data (focus w'))) -> inside_cylinder box (co v)).
Proof. exact (placement_spec box fit w w' shift). Qed.

(** The first candidate is kept when it fits: no further draw is used. *)
Lemma position_randomly_first_draw (x_min x_max y_min y_max z_min z_max : R)
    (fit : bool) (w : World BlenderObject) (u1 u2 u3 : R) (rest : list R) :
  uniforms w = u1 :: u2 :: u3 :: rest ->
  let shift := uniform_of (min_shift x_min y_min z_min (focus w))
                          (max_shift x_max y_max z_max (focus w)) u1 u2 u3 in
  (fit = true ->
   objects_fits_in_cylinder y_min y_max z_min z_max (focus w) shift = true) ->
  position_randomly E (x_min, x_max, y_min, y_max, z_min, z_max) fit w
  = Ok shift
       (mkWorld (translated E shift (focus w))
                (calls w ++ [object_transform_apply shift (ob_rotation (focus w))
                               (ob_scale (focus w))])
                rest (choices w)).
Proof.
  intros Hus shift Hf. rewrite position_randomly_eq.
  rewrite (bind_run _ _ _ _ _ (get_run w)).
  rewrite (bind_run _ _ _ _ _ (uniform3_run _ _ u1 u2 u3 rest w Hus)).
  fold shift. destruct fit.
  - unfold bind at 1. cbn [uniforms].
    replace (redraw _ _ _ shift rest) with (Some (shift, rest)).
    + rewrite (bind_run _ _ _ _ _ (translate_run E shift _)). reflexivity.
    + destruct rest; simpl; rewrite (Hf eq_refl); reflexivity.
  - rewrite ret_bind_run.
    rewrite (bind_run _ _ _ _ _ (translate_run E shift _)). reflexivity.
Qed.

End PlacementTheorem.

Lemma hypot_lt (a b r : R) : 0 < r -> a * a + b * b < r * r -> hypot a b < r.
Proof.
  intros Hr H. unfold hypot. rewrite <- (sqrt_square r) by lra.
  apply sqrt_lt_1_alt. split; [nra | exact H].
Qed.

Lemma segment_location : blender.location toy.segment = vec (1 / 2) (1 / 2) (1 / 2).
Proof.
  rewrite location_eq. unfold blender.bound_min, blender.bound_max, coords, max_of, min_of.
  unfold toy.segment, toy.vertex, new_object. eval_lists. eval_extrema.
  f_equal; lra.
Qed.

Lemma segment_placement_run :
  let box := (-2, 2, -2, 2, -2, 2) in
  let shift := vec (-1 / 2) (-1 / 2) (-1 / 2) in
  blender.position_randomly toy.engine box true
    (toy.start toy.segment [1 / 2; 1 / 2; 1 / 2] [])
  = Ok shift
       (mkWorld (translated toy.engine shift toy.segment)
                [object_transform_apply shift identity_rotation (vec 1 1 1)] [] []).
Proof.
  intros box shift.
  assert (Hs : uniform_of (min_shift (-2) (-2) (-2) toy.segment)
                          (max_shift 2 2 2 toy.segment) (1 / 2) (1 / 2) (1 / 2)
               = shift).
  { unfold min_shift, max_shift. rewrite segment_location, segment_dimensions.
    unfold uniform_of, vsub, vadd, vdiv, shift. cbn [vx vy vz]. f_equal; lra. }
  unfold box.
  rewrite (position_randomly_first_draw toy.engine (-2) 2 (-2) 2 (-2) 2 true
             (toy.start toy.segment [1 / 2; 1 / 2; 1 / 2] []) (1 / 2) (1 / 2) (1 / 2) []
             eq_refl).
  - cbn [focus toy.start calls choices]. rewrite Hs. reflexivity.
  - intros _. cbn [focus toy.start]. rewrite Hs.
    unfold objects_fits_in_cylinder, blender.point_fits_in_cylinder, shift.
    unfold toy.segment, toy.vertex, new_object.
    cbn [forallb data vertices co map vadd vx vy vz fst snd].
    eval_extrema.
    rewrite !ltb_true; [reflexivity | |]; apply hypot_lt; lra.
Qed.

Lemma position_randomly_places_witness :
  exists shift w',
    blender.position_randomly toy.engine (-2, 2, -2, 2, -2, 2) true
      (toy.start toy.segment [1 / 2; 1 / 2; 1 / 2] []) = Ok shift w'
    /\ inside_box (-2, 2, -2, 2, -2, 2) (focus w')
    /\ forall v, In v (vertices (data (focus w'))) ->
                 inside_cylinder (-2, 2, -2, 2, -2, 2) (co v).
Proof.
  eexists. eexists. split; [exact segment_placement_run |].
  assert (Hid : transform_is_identity
                  (focus (toy.start toy.segment [1 / 2; 1 / 2; 1 / 2] [])))
    by (repeat split).
  assert (Hne : vertices (data (focus (toy.start toy.segment [1 / 2; 1 / 2; 1 / 2] [])))
                <> []) by discriminate.
  assert (Hu : unit_draws (uniforms (toy.start toy.segment [1 / 2; 1 / 2; 1 / 2] [])))
    by (repeat constructor; lra).
  assert (Hfit : fits_box (-2, 2, -2, 2, -2, 2)
                   (focus (toy.start toy.segment [1 / 2; 1 / 2; 1 / 2] []))).
  { unfold fits_box. cbn [focus toy.start]. rewrite segment_dimensions.
    cbn [vx vy vz]. repeat split; lra. }
  destruct (position_randomly_places toy.engine (-2, 2, -2, 2, -2, 2) true _ _ _
              Hid Hne Hu Hfit segment_placement_run) as (_ & _ & _ & Hbox & Hcyl).
  split; [exact Hbox | exact (Hcyl eq_refl)].
Defined.

(** ** Edge smoothing *)

(** [smooth_edges] always returns.  It either leaves the state as it is,
    when [degree * max(dimensions)] is below [BLENDER_EPS], or applies one
    bevel modifier whose width is that product, at least [BLENDER_EPS], with
    the given number of segments.  With a degree that is not positive it
    never bevels. *)
Theorem smooth_edges_guard (E : Engine) (degree : R) (n : nat)
    (w : World BlenderObject) :
  exists w',
    blender.smooth_edges E degree n w = Ok tt w'
    /\ ((degree * max3 (blender.dimensions (focus w)) < BLENDER_EPS /\ w' = w)
        \/ (BLENDER_EPS <= degree * max3 (blender.dimensions (focus w))
            /\ calls w' = calls w
                 ++ [object_modifier_bevel
                       (mkBevelModifier None
                          (Some (degree * max3 (blender.dimensions (focus w))))
                          None (Some n))]
            /\ coords (data (focus w'))
               = coords (bevel_modifier E
                           (mkBevelModifier None
                              (Some (degree * max3 (blender.dimensions (focus w))))
                              None (Some n))
                           (data (focus w)))
            /\ transform_of (focus w') = transform_of (focus w)))
    /\ (degree <= 0 -> w' = w).
Proof.
  destruct (Rlt_dec (degree * max3 (blender.dimensions (focus w))) BLENDER_EPS)
    as [Hlt | Hge].
  - exists w. split; [apply smooth_edges_skip, Hlt |]. split; [left; auto | auto].
  - eexists. split; [apply smooth_edges_bevel, Hge |]. cbn zeta. split.
    + right. split; [lra |]. cbn [calls focus]. repeat split.
    + intros Hd. exfalso. apply Hge.
      pose proof (max3_nonneg (focus w)). unfold BLENDER_EPS. nra.
Qed.

(** ** Random orientation *)

Section Orientation.
Variable E : Engine.

Lemma apply_random_rotation_eq :
  blender.apply_random_rotation E
  = (w <- uniform 0 1 ;; qx <- uniform 0 1 ;; qy <- uniform 0 1 ;; qz <- uniform 0 1 ;;
     if eqb0 (sqrt (w * w + qx * qx + qy * qy + qz * qz)) then leave_reals
     else
       blender.rotate E None
         (Some (w / sqrt (w * w + qx * qx + qy * qy + qz * qz),
                qx / sqrt (w * w + qx * qx + qy * qy + qz * qz),
                qy / sqrt (w * w + qx * qx + qy * qy + qz * qz),
                qz / sqrt (w * w + qx * qx + qy * qy + qz * qz))) ;;
       ret (w / sqrt (w * w + qx * qx + qy * qy + qz * qz),
            qx / sqrt (w * w + qx * qx + qy * qy + qz * qz),
            qy / sqrt (w * w + qx * qx + qy * qy + qz * qz),
            qz / sqrt (w * w + qx * qx + qy * qy + qz * qz))).
Proof. reflexivity. Qed.

Lemma uniform_ok {X : Type} (low high x : R) (w w1 : World X) :
  uniform low high w = Ok x w1 ->
  exists u rest, uniforms w = u :: rest /\ x = low + (high - low) * u
                 /\ w1 = mkWorld (focus w) (calls w) rest (choices w).
Proof.
  unfold uniform, bind, random_sample, ret.
  destruct (uniforms w) as [| u rest]; intros H; [discriminate |].
  inversion H. exists u, rest. auto.
Qed.

Lemma unit_quotients (a b c d : R) :
  sqrt (a * a + b * b + c * c + d * d) <> 0 ->
  let n := sqrt (a * a + b * b + c * c + d * d) in
  (a / n) * (a / n) + (b / n) * (b / n) + (c / n) * (c / n) + (d / n) * (d / n) = 1.
Proof.
  intros Hn n. fold n in Hn.
  assert (Hs : n * n = a * a + b * b + c * c + d * d) by (apply sqrt_sqrt; nra).
  replace ((a / n) * (a / n) + (b / n) * (b / n) + (c / n) * (c / n) + (d / n) * (d / n))
    with ((a * a + b * b + c * c + d * d) / (n * n)) by (field; exact Hn).
  rewrite <- Hs. field. exact Hn.
Qed.

Lemma random_rotation_spec (w w' : World BlenderObject) (q : R * R * R * R) :
  blender.apply_random_rotation E w = Ok q w' ->
  let '(a, b, c, d) := q in
  a * a + b * b + c * c + d * d = 1
  /\ (exists u1 u2 u3 u4, uniforms w = u1 :: u2 :: u3 :: u4 :: uniforms w')
  /\ calls w' = calls w ++ [object_transform_apply (ob_location (focus w))
                              (rotation_quaternion a b c d) (ob_scale (focus w))]
  /\ focus w' = blender.transform_apply E
                  (with_rotation (rotation_quaternion a b c d) (focus w)).
Proof.
  intros H. rewrite apply_random_rotation_eq in H.
  peel H as a w1 H1. apply uniform_ok in H1. destruct H1 as (u1 & r1 & Hu1 & -> & ->).
  peel H as b w2 H2. apply uniform_ok in H2. destruct H2 as (u2 & r2 & Hu2 & -> & ->).
  peel H as c w3 H3. apply uniform_ok in H3. destruct H3 as (u3 & r3 & Hu3 & -> & ->).
  peel H as d w4 H4. apply uniform_ok in H4. destruct H4 as (u4 & r4 & Hu4 & -> & ->).
  cbn [uniforms focus calls choices] in *.
  set (a := 0 + (1 - 0) * u1) in *. set (b := 0 + (1 - 0) * u2) in *.
  set (c := 0 + (1 - 0) * u3) in *. set (d := 0 + (1 - 0) * u4) in *.
  destruct (eqb0 (sqrt (a * a + b * b + c * c + d * d))) eqn:Hz; [discriminate |].
  assert (Hn : sqrt (a * a + b * b + c * c + d * d) <> 0).
  { intros Hn. rewrite (eqb0_true _ Hn) in Hz. discriminate. }
  peel H as u w5 Hrot. rewrite rotate_run in Hrot. inversion Hrot; subst u w5. clear Hrot.
  inversion H; subst q w'. clear H. cbn [calls focus uniforms assigned_rotation].
  split; [apply unit_quotients, Hn |].
  split; [exists u1, u2, u3, u4; congruence |]. split; reflexivity.
Qed.

(** What a returning [apply_random_rotation] has drawn and done. *)
Lemma random_rotation_ok (w w' : World BlenderObject) (q : R * R * R * R) :
  blender.apply_random_rotation E w = Ok q w' ->
  exists u1 u2 u3 u4 rest,
    let n := sqrt (u1 * u1 + u2 * u2 + u3 * u3 + u4 * u4) in
    let rot := rotation_quaternion (u1 / n) (u2 / n) (u3 / n) (u4 / n) in
    uniforms w = u1 :: u2 :: u3 :: u4 :: rest
    /\ n <> 0
    /\ q = (u1 / n, u2 / n, u3 / n, u4 / n)
    /\ focus w' = blender.transform_apply E (with_rotation rot (focus w))
    /\ calls w' = calls w ++ [object_transform_apply (ob_location (focus w)) rot
                                (ob_scale (focus w))]
    /\ uniforms w' = rest
    /\ choices w' = choices w.
Proof.
  intros H. rewrite apply_random_rotation_eq in H.
  peel H as a w1 H1. apply uniform_ok in H1. destruct H1 as (u1 & r1 & Hu1 & Ha & ->).
  peel H as b w2 H2. apply uniform_ok in H2. destruct H2 as (u2 & r2 & Hu2 & Hb & ->).
  peel H as c w3 H3. apply uniform_ok in H3. destruct H3 as (u3 & r3 & Hu3 & Hc & ->).
  peel H as d w4 H4. apply uniform_ok in H4. destruct H4 as (u4 & r4 & Hu4 & Hd & ->).
  cbn [uniforms focus calls choices] in *.
  assert (Ha' : a = u1) by lra. assert (Hb' : b = u2) by lra.
  assert (Hc' : c = u3) by lra. assert (Hd' : d = u4) by lra.
  clear Ha Hb Hc Hd. subst a b c d.
  destruct (eqb0 (sqrt (u1 * u1 + u2 * u2 + u3 * u3 + u4 * u4))) eqn:Hz; [discriminate |].
  assert (Hn : sqrt (u1 * u1 + u2 * u2 + u3 * u3 + u4 * u4) <> 0).
  { intros Hn. rewrite (eqb0_true _ Hn) in Hz. discriminate. }
  peel H as u w5 Hrot. rewrite rotate_run in Hrot. inversion Hrot; subst u w5. clear Hrot.
  inversion H; subst q w'. clear H. cbn [calls focus uniforms choices assigned_rotation].
  exists u1, u2, u3, u4, r4. cbv zeta.
  split; [congruence |]. split; [exact Hn |]. repeat split.
Qed.

(** The run on four given draws whose norm is not zero. *)
Lemma apply_random_rotation_run (w : World BlenderObject) (u1 u2 u3 u4 : R)
    (rest : list R) :
  uniforms w = u1 :: u2 :: u3 :: u4 :: rest ->
  let a := 0 + (1 - 0) * u1 in let b := 0 + (1 - 0) * u2 in
  let c := 0 + (1 - 0) * u3 in let d := 0 + (1 - 0) * u4 in
  let n := sqrt (a * a + b * b + c * c + d * d) in
  n <> 0 ->
  blender.apply_random_rotation E w
  = Ok (a / n, b / n, c / n, d / n)
       (mkWorld (blender.transform_apply E
                   (with_rotation (rotation_quaternion (a / n) (b / n) (c / n) (d / n))
                      (focus w)))
                (calls w ++ [object_transform_apply (ob_location (focus w))
                               (rotation_quaternion (a / n) (b / n) (c / n) (d / n))
                               (ob_scale (focus w))])
                rest (choices w)).
Proof.
  intros Hus a b c d n Hn. rewrite apply_random_rotation_eq.
  rewrite (bind_run _ _ _ _ _ (uniform_run 0 1 u1 _ w Hus)).
  erewrite bind_run by (apply uniform_run; reflexivity).
  erewrite bind_run by (apply uniform_run; reflexivity).
  erewrite bind_run by (apply uniform_run; reflexivity).
  fold a b c d. fold n. rewrite (eqb0_false n Hn).
  rewrite (bind_run _ _ _ _ _ (rotate_run E _ _ _)). reflexivity.
Qed.

(** On four draws that are not all zero [apply_random_rotation] returns the
    draws divided by their Euclidean norm: a quaternion of unit norm.  It
    uses exactly those four draws, and the entity is the old one with that
    quaternion set as its rotation and then baked by one logged
    [transform_apply]. *)
Theorem apply_random_rotation_unit (w : World BlenderObject) (u1 u2 u3 u4 : R)
    (rest : list R) :
  uniforms w = u1 :: u2 :: u3 :: u4 :: rest ->
  u1 <> 0 \/ u2 <> 0 \/ u3 <> 0 \/ u4 <> 0 ->
  let n := sqrt (u1 * u1 + u2 * u2 + u3 * u3 + u4 * u4) in
  let q := rotation_quaternion (u1 / n) (u2 / n) (u3 / n) (u4 / n) in
  (u1 / n) * (u1 / n) + (u2 / n) * (u2 / n) + (u3 / n) * (u3 / n) + (u4 / n) * (u4 / n) = 1
  /\ blender.apply_random_rotation E w
     = Ok (u1 / n, u2 / n, u3 / n, u4 / n)
          (mkWorld (blender.transform_apply E (with_rotation q (focus w)))
                   (calls w ++ [object_transform_apply (ob_location (focus w)) q
                                  (ob_scale (focus w))])
                   rest (choices w)).
Proof.
  intros Hus Hnz n q.
  assert (Hn : n <> 0).
  { unfold n. apply Rgt_not_eq, Rlt_gt, sqrt_lt_R0.
    pose proof (Rle_0_sqr u1) as S1. pose proof (Rle_0_sqr u2) as S2.
    pose proof (Rle_0_sqr u3) as S3. pose proof (Rle_0_sqr u4) as S4.
    destruct Hnz as [H | [H | [H | H]]]; apply Rsqr_pos_lt in H;
      unfold Rsqr in *; lra. }
  split; [apply unit_quotients; exact Hn |].
  pose proof (apply_random_rotation_run w u1 u2 u3 u4 rest Hus) as Hrun.
  cbv zeta in Hrun.
  replace (0 + (1 - 0) * u1) with u1 in Hrun by ring.
  replace (0 + (1 - 0) * u2) with u2 in Hrun by ring.
  replace (0 + (1 - 0) * u3) with u3 in Hrun by ring.
  replace (0 + (1 - 0) * u4) with u4 in Hrun by ring.
  apply Hrun. exact Hn.
Qed.

End Orientation.

Lemma apply_random_rotation_unit_witness :
  let n := sqrt (1 / 2 * (1 / 2) + 1 / 2 * (1 / 2) + 1 / 2 * (1 / 2) + 1 / 2 * (1 / 2)) in
  exists w',
    blender.apply_random_rotation toy.engine
      (toy.start toy.segment [1 / 2; 1 / 2; 1 / 2; 1 / 2] [])
    = Ok (1 / 2 / n, 1 / 2 / n, 1 / 2 / n, 1 / 2 / n) w'
    /\ uniforms w' = [].
Proof.
  intros n.
  destruct (apply_random_rotation_unit toy.engine
              (toy.start toy.segment [1 / 2; 1 / 2; 1 / 2; 1 / 2] [])
              (1 / 2) (1 / 2) (1 / 2) (1 / 2) [] eq_refl) as [_ Hrun].
  - left. lra.
  - eexists. split; [exact Hrun | reflexivity].
Defined.

(** ** Selection *)

Lemma indices_from_map {A B : Type} (g : A -> B) (p : B -> bool) (l : list A) (k : nat) :
  indices_from k p (map g l) = indices_from k (fun a => p (g a)) l.
Proof.
  revert k. induction l as [| a l IH]; intros k; simpl; [reflexivity |].
  rewrite IH. reflexivity.
Qed.

Lemma indices_from_ext {A : Type} (p q : A -> bool) (l : list A) (k : nat) :
  (forall a, In a l -> p a = q a) -> indices_from k p l = indices_from k q l.
Proof.
  revert k. induction l as [| a l IH]; intros k H; simpl; [reflexivity |].
  rewrite (H a (or_introl eq_refl)), IH; [reflexivity |].
  intros b Hb. apply H. right. exact Hb.
Qed.

Lemma indices_from_none {A : Type} (p : A -> bool) (l : list A) (k : nat) :
  (forall a, In a l -> p a = false) -> indices_from k p l = [].
Proof.
  revert k. induction l as [| a l IH]; intros k H; simpl; [reflexivity |].
  rewrite (H a (or_introl eq_refl)). apply IH. intros b Hb. apply H. right. exact Hb.
Qed.

Lemma indices_from_In {A : Type} (p : A -> bool) (l : list A) (k i : nat) :
  In i (indices_from k p l)
  <-> (k <= i)%nat /\ exists a, nth_error l (i - k) = Some a /\ p a = true.
Proof.
  revert k. induction l as [| a l IH]; intros k; simpl.
  - split; [contradiction |]. intros (_ & b & H & _). destruct (i - k)%nat; discriminate.
  - destruct (p a) eqn:Hp; simpl; rewrite IH; split.
    + intros [<- | (Hle & b & Hn & Hb)].
      * split; [lia |]. exists a. rewrite Nat.sub_diag. auto.
      * split; [lia |]. exists b. replace (i - k)%nat with (S (i - S k)) by lia. auto.
    + intros (Hle & b & Hn & Hb). destruct (Nat.eq_dec k i) as [-> | Hne]; [left; auto |].
      right. split; [lia |]. exists b.
      replace (i - k)%nat with (S (i - S k)) in Hn by lia. auto.
    + intros (Hle & b & Hn & Hb). split; [lia |]. exists b.
      replace (i - k)%nat with (S (i - S k)) by lia. auto.
    + intros (Hle & b & Hn & Hb). destruct (Nat.eq_dec k i) as [-> | Hne].
      * rewrite Nat.sub_diag in Hn. simpl in Hn. inversion Hn; subst. congruence.
      * split; [lia |]. exists b.
        replace (i - k)%nat with (S (i - S k)) in Hn by lia. auto.
Qed.

(** [select_vertices] always returns.  Afterwards a vertex is selected
    exactly when the criterion holds of it (deselected, as the criterion
    sees it), no edge is selected, and the coordinates, the endpoints of the
    edges and the local transform are as before. *)
Theorem select_vertices_spec (f : MeshVertex -> bool) (w : World BlenderObject) :
  exists w',
    blender.select_vertices f w = Ok tt w'
    /\ selected_vertices (data (focus w'))
       = indices_where (fun v => f (mkVertex (co v) false)) (vertices (data (focus w)))
    /\ selected_edges (data (focus w')) = []
    /\ coords (data (focus w')) = coords (data (focus w))
    /\ map edge_vertices (edges (data (focus w')))
       = map edge_vertices (edges (data (focus w)))
    /\ transform_of (focus w') = transform_of (focus w).
Proof.
  eexists. split; [apply select_vertices_run |]. cbn [focus calls data with_data].
  unfold selected_vertices, selected_edges, indices_where, coords.
  cbn [vertices edges]. rewrite !indices_from_map, !map_map.
  split; [| split; [| split; [| split]]].
  - apply indices_from_ext. intros v _. destruct (f _); reflexivity.
  - apply indices_from_none. reflexivity.
  - apply map_ext. intros v. destruct (f _); reflexivity.
  - reflexivity.
  - reflexivity.
Qed.

Lemma select_edges_run (crit : BlenderObject -> MeshEdge -> option bool)
    (w : World BlenderObject) :
  let o1 := with_data (blender.mesh_select_all false (data (focus w))) (focus w) in
  blender.select_edges crit w
  = match blender.mark_edges (crit o1) (edges (data o1)) with
    | None => Stop (raised IndexError)
    | Some marked =>
        Ok tt (mkWorld (with_data (mkMesh (vertices (data o1)) marked (polygons (data o1)))
                                  o1)
                       (calls w) (uniforms w) (choices w))
    end.
Proof.
  intros o1. unfold blender.select_edges, bind, modify, get. cbn [focus].
  fold o1. destruct (blender.mark_edges (crit o1) (edges (data o1))); reflexivity.
Qed.

Lemma mark_edges_some (c : MeshEdge -> option bool) (l marked : list MeshEdge) :
  blender.mark_edges c l = Some marked ->
  (forall e, In e l -> edge_select e = false) ->
  marked = map (fun e => mkEdge (edge_vertices e)
                           match c e with Some b => b | None => false end) l
  /\ (forall e, In e l -> c e <> None).
Proof.
  revert marked. induction l as [| e l IH]; intros marked H Hsel; simpl in H.
  - inversion H. split; [reflexivity | contradiction].
  - destruct (c e) as [b |] eqn:Hc; [| discriminate].
    destruct (blender.mark_edges c l) as [r |] eqn:Hr; [| discriminate].
    inversion H; subst marked. clear H.
    destruct (IH r eq_refl) as [Hm Hall]; [intros; apply Hsel; right; assumption |].
    split.
    + simpl. rewrite Hc, <- Hm. f_equal.
      pose proof (Hsel e (or_introl eq_refl)) as He.
      destruct e as [ev es]; simpl in *; subst es. destruct b; reflexivity.
    + intros e' [<- | Hin]; [congruence | apply Hall, Hin].
Qed.

Lemma mark_edges_none (c : MeshEdge -> option bool) (l : list MeshEdge) :
  blender.mark_edges c l = None -> exists e, In e l /\ c e = None.
Proof.
  induction l as [| e l IH]; simpl; [discriminate |].
  destruct (c e) as [b |] eqn:Hc.
  - destruct (blender.mark_edges c l) as [r |]; [discriminate |].
    intros _. destruct (IH eq_refl) as (e' & Hin & He'). exists e'. auto.
  - intros _. exists e. auto.
Qed.

Lemma nth_error_deselected (vs : list MeshVertex) (i : nat) :
  nth_error (map (fun v => mkVertex (co v) false) vs) i
  = option_map (fun v => mkVertex (co v) false) (nth_error vs i).
Proof. apply nth_error_map. Qed.

(** What [is_edge_vertical] answers on an entity whose flags were cleared. *)
Lemma is_edge_vertical_deselected (o : BlenderObject) (e : MeshEdge) :
  let o1 := with_data (blender.mesh_select_all false (data o)) o in
  (basic.is_edge_vertical o1 e = None
   <-> ~ ((fst (edge_vertices e) < List.length (vertices (data o)))%nat
          /\ (snd (edge_vertices e) < List.length (vertices (data o)))%nat))
  /\ (basic.is_edge_vertical o1 e = Some true <-> vertical (data o) e).
Proof.
  intros o1. unfold basic.is_edge_vertical, vertical, o1.
  cbn [data with_data blender.mesh_select_all vertices].
  destruct (edge_vertices e) as [i j]. cbn [fst snd].
  rewrite !nth_error_deselected.
  destruct (nth_error (vertices (data o)) i) as [v1 |] eqn:H1; cbn [option_map].
  - destruct (nth_error (vertices (data o)) j) as [v2 |] eqn:H2; cbn [option_map co].
    + assert (Hi : (i < List.length (vertices (data o)))%nat)
        by (apply nth_error_Some; congruence).
      assert (Hj : (j < List.length (vertices (data o)))%nat)
        by (apply nth_error_Some; congruence).
      split; [split; [discriminate | tauto] |]. split.
      * intros H. inversion H as [Hb]. apply andb_true_iff in Hb.
        destruct Hb as [Hx Hy]. apply ltb_spec in Hx, Hy.
        exists v1, v2. auto.
      * intros (a & b & Ha & Hb & Hx & Hy). inversion Ha; inversion Hb; subst.
        rewrite (ltb_true _ _ Hx), (ltb_true _ _ Hy). reflexivity.
    + apply nth_error_None in H2. split; [split; [lia | reflexivity] |].
      split; [discriminate |]. intros (a & b & _ & Hb & _). discriminate.
  - apply nth_error_None in H1. split; [split; [lia | reflexivity] |].
    split; [discriminate |]. intros (a & b & Ha & _). discriminate.
Qed.

Lemma vertical_selection (w : World BlenderObject) :
  match blender.select_edges basic.is_edge_vertical w with
  | Ok _ w' =>
      edges_in_range (data (focus w))
      /\ (forall i, In i (selected_edges (data (focus w')))
                    <-> exists e, nth_error (edges (data (focus w))) i = Some e
                                  /\ vertical (data (focus w)) e)
      /\ selected_vertices (data (focus w')) = []
      /\ coords (data (focus w')) = coords (data (focus w))
      /\ calls w' = calls w
  | Stop h => h = raised IndexError /\ ~ edges_in_range (data (focus w))
  end.
Proof.
  rewrite select_edges_run. cbv zeta.
  set (o1 := with_data (blender.mesh_select_all false (data (focus w))) (focus w)).
  destruct (blender.mark_edges (basic.is_edge_vertical o1) (edges (data o1)))
    as [marked |] eqn:Hm.
  - apply mark_edges_some in Hm.
    2:{ unfold o1. cbn [data with_data blender.mesh_select_all edges].
        intros e He. apply in_map_iff in He. destruct He as (e0 & <- & _). reflexivity. }
    destruct Hm as [Hmarked Hall]. cbn [focus calls data with_data vertices edges].
    split; [| split; [| split; [| split]]].
    + intros e He. specialize (Hall (mkEdge (edge_vertices e) false)).
      destruct (is_edge_vertical_deselected (focus w) (mkEdge (edge_vertices e) false))
        as [Hnone _]. fold o1 in Hnone. cbn [edge_vertices] in Hnone.
      destruct (Nat.lt_ge_cases (fst (edge_vertices e))
                  (List.length (vertices (data (focus w))))) as [Hi | Hi];
        destruct (Nat.lt_ge_cases (snd (edge_vertices e))
                    (List.length (vertices (data (focus w))))) as [Hj | Hj];
        try (split; assumption);
        exfalso; apply Hall;
        try (unfold o1; cbn [data with_data blender.mesh_select_all edges];
             apply in_map_iff; exists e; auto);
        apply Hnone; lia.
    + intros i. unfold selected_edges, indices_where. rewrite Hmarked.
      replace (edges (data o1))
        with (map (fun e => mkEdge (edge_vertices e) false) (edges (data (focus w))))
        by reflexivity.
      cbn [edges]. rewrite !indices_from_map. cbn [edge_select edge_vertices].
      rewrite indices_from_In. rewrite Nat.sub_0_r.
      split.
      * intros (_ & e & Hn & Hb). exists e. split; [exact Hn |].
        destruct (is_edge_vertical_deselected (focus w) (mkEdge (edge_vertices e) false))
          as [_ Hv]. fold o1 in Hv.
        destruct (basic.is_edge_vertical o1 (mkEdge (edge_vertices e) false))
          as [[|] |]; try discriminate.
        destruct (proj1 Hv eq_refl) as (v1 & v2 & H). exists v1, v2. exact H.
      * intros (e & Hn & Hv). split; [lia |]. exists e. split; [exact Hn |].
        destruct (is_edge_vertical_deselected (focus w) (mkEdge (edge_vertices e) false))
          as [_ Hv']. fold o1 in Hv'.
        rewrite (proj2 Hv'); [reflexivity |].
        destruct Hv as (v1 & v2 & H). exists v1, v2. exact H.
    + unfold selected_vertices, indices_where, o1.
      cbn [data with_data blender.mesh_select_all vertices].
      rewrite indices_from_map. apply indices_from_none. reflexivity.
    + unfold coords, o1. cbn [data with_data blender.mesh_select_all vertices].
      rewrite map_map. reflexivity.
    + reflexivity.
  - split; [reflexivity |]. apply mark_edges_none in Hm.
    destruct Hm as (e & Hin & Hnone). intros Hrange.
    unfold o1 in Hin. cbn [data with_data blender.mesh_select_all edges] in Hin.
    apply in_map_iff in Hin. destruct Hin as (e0 & <- & Hin0).
    destruct (is_edge_vertical_deselected (focus w) (mkEdge (edge_vertices e0) false))
      as [Hn _]. fold o1 in Hn. apply (proj1 Hn Hnone).
    cbn [edge_vertices]. apply Hrange, Hin0.
Qed.

(** [select_edges(is_edge_vertical)] raises [IndexError] exactly when some
    edge names a vertex the mesh does not have.  Otherwise it selects
    exactly the vertical edges, leaves no vertex selected and keeps the
    coordinates. *)
Theorem select_edges_vertical (w : World BlenderObject) :
  match blender.select_edges basic.is_edge_vertical w with
  | Ok _ w' =>
      edges_in_range (data (focus w))
      /\ (forall i, In i (selected_edges (data (focus w')))
                    <-> exists e, nth_error (edges (data (focus w))) i = Some e
                                  /\ vertical (data (focus w)) e)
      /\ selected_vertices (data (focus w')) = []
      /\ coords (data (focus w')) = coords (data (focus w))
  | Stop h => h = raised IndexError /\ ~ edges_in_range (data (focus w))
  end.
Proof.
  pose proof (vertical_selection w) as H.
  destruct (blender.select_edges basic.is_edge_vertical w) as [a w' | h]; [| exact H].
  destruct H as (H1 & H2 & H3 & H4 & _). auto.
Qed.

(** ** Recipes of [shapes/basic.py] *)

Section Recipes.
Variable E : Engine.
Import blender.

Lemma select_vertices_selecting (f : MeshVertex -> bool) (w : World BlenderObject) :
  select_vertices f w
  = Ok tt (mkWorld (with_data (selecting f (data (focus w))) (focus w))
                   (calls w) (uniforms w) (choices w)).
Proof. apply select_vertices_run. Qed.

Lemma selected_vertices_selecting (f : MeshVertex -> bool) (m : Mesh) :
  selected_vertices (selecting f m)
  = indices_where (fun v => f (mkVertex (co v) false)) (vertices m).
Proof.
  unfold selected_vertices, selecting, indices_where. cbn [vertices].
  rewrite indices_from_map. apply indices_from_ext.
  intros v _. destruct (f _); reflexivity.
Qed.

Lemma Ellipsoid_run (diameter : R) (subdivisions : nat) (w : World BlenderObject) :
  basic.Ellipsoid E (scalar diameter) subdivisions w
  = Ok tt (mkWorld
             (transform_apply E (with_scale (vec diameter diameter diameter)
                                   (new_object (ico_sphere E subdivisions 0.5))))
             (calls w ++ [primitive_ico_sphere_add subdivisions 0.5;
                          object_transform_apply (vec 0 0 0) identity_rotation
                            (vec diameter diameter diameter)])
             (uniforms w) (choices w)).
Proof.
  unfold basic.Ellipsoid.
  rewrite (bind_run _ _ _ _ _ (primitive_add_run _ _ w)).
  rewrite scale_vector_run. cbn [focus calls uniforms choices].
  rewrite <- app_assoc. reflexivity.
Qed.

Lemma SphericallyCappedCylinder_eq (diameter msh : R) (subdivisions : nat) :
  basic.SphericallyCappedCylinder E diameter msh subdivisions
  = (basic.Ellipsoid E (scalar diameter) subdivisions ;;
     select_vertices (fun v => ltb (- BLENDER_EPS) (vz (co v))) ;;
     ops.extrude_region_move E (vec 0 0 (msh / 2)) ;;
     select_vertices (fun v => ltb (vz (co v)) BLENDER_EPS) ;;
     ops.transform_translate (vec 0 0 (- msh / 2))).
Proof. reflexivity. Qed.

Lemma rod_run (height diameter : R) (w : World BlenderObject) :
  let msh := height - diameter in
  let m0 := ellipsoid_mesh E diameter 5 in
  let m1 := extruded_cap_mesh E diameter msh 5 in
  exists w',
    fcc.Rod E height diameter w = Ok tt w'
    /\ calls w'
       = calls w
         ++ [primitive_ico_sphere_add 5 0.5;
             object_transform_apply (vec 0 0 0) identity_rotation
               (vec diameter diameter diameter);
             mesh_extrude_region_move
               (indices_where (fun v => ltb (- BLENDER_EPS) (vz (co v))) (vertices m0))
               (vec 0 0 (msh / 2));
             transform_translate
               (indices_where (fun v => ltb (vz (co v)) BLENDER_EPS) (vertices m1))
               (vec 0 0 (- msh / 2))]
    /\ coords (data (focus w'))
       = map (fun p => if ltb (vz p) BLENDER_EPS
                       then vadd p (vec 0 0 (- msh / 2)) else p)
             (coords m1)
    /\ transform_is_identity (focus w').
Proof.
  intros msh m0 m1. eexists. split.
  - unfold fcc.Rod. fold msh. rewrite SphericallyCappedCylinder_eq.
    rewrite (bind_run _ _ _ _ _ (Ellipsoid_run diameter 5 w)).
    rewrite (bind_run _ _ _ _ _ (select_vertices_selecting _ _)).
    rewrite (bind_run _ _ _ _ _ (extrude_region_move_run E _ _)).
    rewrite (bind_run _ _ _ _ _ (select_vertices_selecting _ _)).
    rewrite transform_translate_run. reflexivity.
  - cbn [focus calls data with_data ob_location ob_rotation ob_scale transform_apply].
    fold (ellipsoid_mesh E diameter 5). fold m0.
    split; [| split].
    + rewrite !selected_vertices_selecting. cbn [co].
      fold (extruded_cap_mesh E diameter msh 5). fold m1.
      rewrite <- !app_assoc. reflexivity.
    + fold (extruded_cap_mesh E diameter msh 5). fold m1.
      unfold coords, ops.translate_selected, selecting. cbn [vertices].
      rewrite !map_map. apply map_ext. intros v. cbn [co].
      destruct (ltb (vz (co v)) BLENDER_EPS); reflexivity.
    + repeat split.
Qed.

(** [Rod(height, diameter)] always returns.  From the ellipsoid of the given
    diameter it extrudes exactly the vertices with [z > -BLENDER_EPS] by
    [(height - diameter) / 2] upwards, then moves exactly the vertices of the
    extruded mesh with [z < BLENDER_EPS] by the same amount downwards; a
    vertex on the equator is in both selections. *)
Theorem Rod_recipe (height diameter : R) (w : World BlenderObject) :
  let msh := height - diameter in
  let m0 := ellipsoid_mesh E diameter 5 in
  let m1 := extruded_cap_mesh E diameter msh 5 in
  exists w',
    fcc.Rod E height diameter w = Ok tt w'
    /\ calls w'
       = calls w
         ++ [primitive_ico_sphere_add 5 0.5;
             object_transform_apply (vec 0 0 0) identity_rotation
               (vec diameter diameter diameter);
             mesh_extrude_region_move
               (indices_where (fun v => ltb (- BLENDER_EPS) (vz (co v))) (vertices m0))
               (vec 0 0 (msh / 2));
             transform_translate
               (indices_where (fun v => ltb (vz (co v)) BLENDER_EPS) (vertices m1))
               (vec 0 0 (- msh / 2))]
    /\ coords (data (focus w'))
       = map (fun p => if ltb (vz p) BLENDER_EPS
                       then vadd p (vec 0 0 (- msh / 2)) else p)
             (coords m1)
    /\ transform_is_identity (focus w').
Proof. exact (rod_run height diameter w). Qed.

End Recipes.

Section Octahedron.
Variable E : Engine.
Import blender.

Lemma basic_Octahedron_eq (size t : R) :
  basic.Octahedron E size t
  = (ops.primitive_add (primitive_cube_add 1) (cube E 1) ;;
     ops.modifier_bevel E (percent_bevel 100) ;;
     remove_duplicate_vertices E ;;
     (if ltb 0 t then
        ops.modifier_bevel E (percent_bevel (100 * (t / 3))) ;;
        remove_duplicate_vertices E
      else ret tt) ;;
     d <- enclosing_sphere_diameter ;;
     k <- pydiv size d ;;
     scale E (scalar k)).
Proof. reflexivity. Qed.

(** The run up to the final rescale. *)
Lemma basic_Octahedron_prefix (t : R) (w : World BlenderObject) :
  (ops.primitive_add (primitive_cube_add 1) (cube E 1) ;;
   ops.modifier_bevel E (percent_bevel 100) ;;
   remove_duplicate_vertices E ;;
   (if ltb 0 t then
      ops.modifier_bevel E (percent_bevel (100 * (t / 3))) ;;
      remove_duplicate_vertices E
    else ret tt)) w
  = Ok tt (mkWorld (new_object (octahedron_mesh E t)) (calls w ++ octahedron_calls t)
                   (uniforms w) (choices w)).
Proof.
  rewrite (bind_run _ _ _ _ _ (primitive_add_run _ _ w)).
  rewrite (bind_run _ _ _ _ _ (modifier_bevel_run E _ _)).
  rewrite (bind_run _ _ _ _ _ (remove_duplicate_vertices_run E _)).
  unfold octahedron_mesh, octahedron_calls. destruct (ltb 0 t).
  - rewrite (bind_run _ _ _ _ _ (modifier_bevel_run E _ _)).
    rewrite remove_duplicate_vertices_run.
    cbn [focus calls uniforms choices data with_data new_object].
    rewrite <- !app_assoc. reflexivity.
  - unfold ret. cbn [focus calls uniforms choices data with_data new_object].
    rewrite <- !app_assoc. reflexivity.
Qed.

Lemma bind_assoc {X A B C : Type} (c : M X A) (k : A -> M X B) (h : B -> M X C)
    (w : World X) :
  bind (bind c k) h w = bind c (fun a => bind (k a) h) w.
Proof. unfold bind. destruct (c w); reflexivity. Qed.

(** The final rescale to a given enclosing-sphere diameter. *)
Lemma rescale_diameter_outcome (size : R) (w : World BlenderObject) :
  (d <- enclosing_sphere_diameter ;; k <- pydiv size d ;; scale E (scalar k)) w
  = match diameter_of (focus w) with
    | None => Stop (raised ValueError)
    | Some d =>
        if eqb0 d then Stop (raised ZeroDivisionError)
        else Ok tt (mkWorld (scaled E (size / d) (focus w))
                            (calls w ++ [object_transform_apply (ob_location (focus w))
                                           (ob_rotation (focus w))
                                           (vec (size / d) (size / d) (size / d))])
                            (uniforms w) (choices w))
    end.
Proof.
  unfold bind at 1. rewrite enclosing_sphere_diameter_run.
  destruct (diameter_of (focus w)) as [d |]; [| reflexivity].
  unfold bind, pydiv. destruct (eqb0 d); [reflexivity |].
  unfold ret. rewrite scale_run. reflexivity.
Qed.

Lemma octahedron_outcome (size t : R) (w : World BlenderObject) :
  basic.Octahedron E size t w
  = match diameter_of (new_object (octahedron_mesh E t)) with
    | None => Stop (raised ValueError)
    | Some d =>
        if eqb0 d then Stop (raised ZeroDivisionError)
        else Ok tt (mkWorld (scaled E (size / d) (new_object (octahedron_mesh E t)))
                            (calls w ++ octahedron_calls t ++ [rescale_call (size / d)])
                            (uniforms w) (choices w))
    end.
Proof.
  rewrite basic_Octahedron_eq.
  transitivity
    (bind (ops.primitive_add (primitive_cube_add 1) (cube E 1) ;;
           ops.modifier_bevel E (percent_bevel 100) ;;
           remove_duplicate_vertices E ;;
           (if ltb 0 t then
              ops.modifier_bevel E (percent_bevel (100 * (t / 3))) ;;
              remove_duplicate_vertices E
            else ret tt))
          (fun _ => d <- enclosing_sphere_diameter ;; k <- pydiv size d ;;
                    scale E (scalar k)) w).
  - rewrite !bind_assoc. reflexivity.
  - rewrite (bind_run _ _ _ _ _ (basic_Octahedron_prefix t w)).
    rewrite rescale_diameter_outcome. cbn [focus calls uniforms choices].
    destruct (diameter_of (new_object (octahedron_mesh E t))) as [d |]; [| reflexivity].
    destruct (eqb0 d); [reflexivity |]. rewrite <- app_assoc. reflexivity.
Qed.

End Octahedron.

(** ** Nominal size *)

Lemma length_positive (v : Vector) : vx v <> 0 -> 0 < length v.
Proof.
  intros H. unfold length. apply sqrt_lt_R0.
  assert (0 < vx v * vx v) by nra. nra.
Qed.

(** Two vertices that differ in x make the diameter positive. *)
Lemma diameter_positive (o : BlenderObject) (v1 v2 : MeshVertex) :
  In v1 (vertices (data o)) -> In v2 (vertices (data o)) ->
  vx (co v1) <> vx (co v2) ->
  exists d, diameter_of o = Some d /\ 0 < d.
Proof.
  intros H1 H2 Hne.
  pose proof (diameter_spec (mkWorld o [] [] [])) as Hspec.
  rewrite enclosing_sphere_diameter_run in Hspec. cbn [focus] in Hspec.
  destruct (diameter_of o) as [d |].
  - exists d. split; [reflexivity |]. destruct Hspec as (_ & _ & Hall & _).
    destruct (Req_dec_T (vx (co v1)) (vx (blender.location o))) as [Heq | Hd].
    + pose proof (Hall v2 H2) as Hle.
      assert (0 < length (vsub (co v2) (blender.location o))).
      { apply length_positive. unfold vsub; cbn [vx]. lra. }
      lra.
    + pose proof (Hall v1 H1) as Hle.
      assert (0 < length (vsub (co v1) (blender.location o))).
      { apply length_positive. unfold vsub; cbn [vx]. lra. }
      lra.
  - destruct Hspec as (_ & Hnil). rewrite Hnil in H1. contradiction.
Qed.

(** Every builder of [shapes/fcc.py] that ends in a rescale: whenever it
    returns at a positive nominal size without having divided by zero, the
    designated size metric of the entity is the nominal size: the
    enclosing-sphere diameter for Octahedron, TruncatedOctahedron and
    Icosahedron, the planar diagonal for Triangle, TruncatedTriangle,
    Square, Hexagon and Decahedron, the z-dimension for Bipyramid and the
    largest dimension for Cube.  A zero divisor raises [ZeroDivisionError]
    for Cube, the Octahedron family and Bipyramid; for the families scaled
    by [size / np.hypot(...)] the source scales by inf and returns a shape
    that is not finite, a run the model ends with [non_finite], so the
    theorem says nothing of it. *)
Theorem nominal_size_metric (E : Engine) (f : families.Family) (s : R)
    (p : families.Parameters) (w w' : World BlenderObject) :
  0 < s ->
  families.builder E f s p w = Ok tt w' ->
  families.size_metric f (focus w') = Some s.
Proof.
  intros Hs H. destruct f.
  - apply metric_Cube with (E := E) (p := p) (w := w); assumption.
  - apply metric_Octahedron with (E := E) (p := p) (w := w); assumption.
  - apply metric_TruncatedOctahedron with (E := E) (p := p) (w := w); assumption.
  - apply metric_Icosahedron with (E := E) (p := p) (w := w); assumption.
  - apply metric_Triangle with (E := E) (p := p) (w := w); assumption.
  - apply metric_TruncatedTriangle with (E := E) (p := p) (w := w); assumption.
  - apply metric_Square with (E := E) (p := p) (w := w); assumption.
  - apply metric_Hexagon with (E := E) (p := p) (w := w); assumption.
  - apply metric_Decahedron with (E := E) (p := p) (w := w); assumption.
  - apply metric_Bipyramid with (E := E) (p := p) (w := w); assumption.
Qed.

(** [TruncatedOctahedron(size=2.0, truncation_degree=0.5, smoothing_degree=0)]
    returns on the small engine. *)
Lemma TruncatedOctahedron_returns :
  exists w',
    fcc.TruncatedOctahedron toy.engine 2 0.5 0 (toy.start toy.nothing [] []) = Ok tt w'.
Proof.
  set (o := new_object (octahedron_mesh toy.engine 0.5)).
  assert (Hid : transform_is_identity o) by (repeat split).
  assert (Hd : exists d, diameter_of o = Some d /\ 0 < d).
  { apply (diameter_positive o (mkVertex (vec (- (1 / 2)) (- (1 / 2)) (- (1 / 2))) true)
             (mkVertex (vec (1 / 2) (- (1 / 2)) (- (1 / 2))) true)).
    - unfold o, octahedron_mesh. rewrite ltb_true by lra.
      cbn. left. reflexivity.
    - unfold o, octahedron_mesh. rewrite ltb_true by lra.
      cbn. do 4 right. left. reflexivity.
    - cbn [co vx]. lra. }
  destruct Hd as (d & Hd & Hpos).
  rewrite TruncatedOctahedron_eq.
  eexists.
  erewrite bind_run.
  2:{ rewrite octahedron_outcome. fold o. rewrite Hd.
      rewrite eqb0_false by lra. reflexivity. }
  erewrite bind_run.
  2:{ apply smooth_edges_skip. unfold BLENDER_EPS. lra. }
  rewrite rescale_diameter_outcome. cbn [focus].
  rewrite scaled_diameter by exact Hid. rewrite Hd. cbn [option_map].
  rewrite eqb0_false; [reflexivity |].
  rewrite Rabs_right by (apply Rle_ge, Rlt_le, Rdiv_lt_0_compat; lra).
  unfold Rdiv. rewrite Rmult_assoc, Rinv_l by lra. lra.
Qed.

Lemma nominal_size_metric_witness :
  exists w',
    fcc.TruncatedOctahedron toy.engine 2 0.5 0 (toy.start toy.nothing [] []) = Ok tt w'
    /\ diameter_of (focus w') = Some 2.
Proof.
  destruct TruncatedOctahedron_returns as (w' & Hrun).
  exists w'. split; [exact Hrun |].
  apply (nominal_size_metric toy.engine families.TruncatedOctahedron 2
           (families.mkParameters 0 0.5 0 0 0 0) (toy.start toy.nothing [] []) w').
  - lra.
  - exact Hrun.
Defined.

(** ** Draws *)

Lemma consumes_bind {X A B : Type} (c : M X A) (k : A -> M X B) :
  consumes c -> (forall a, consumes (k a)) -> consumes (bind c k).
Proof.
  intros Hc Hk w b w' H. apply bind_ok in H. destruct H as (a & w1 & H1 & H2).
  destruct (Hc _ _ _ H1) as (l1 & E1). destruct (Hk a _ _ _ H2) as (l2 & E2).
  exists (l1 ++ l2). rewrite E1, E2, app_assoc. reflexivity.
Qed.

Lemma consumes_same {X A : Type} (c : M X A) :
  (forall w a w', c w = Ok a w' -> uniforms w' = uniforms w) -> consumes c.
Proof. intros H w a w' Hr. exists []. rewrite (H _ _ _ Hr). reflexivity. Qed.

Lemma consumes_ret {X A : Type} (a : A) : consumes (@ret X A a).
Proof. apply consumes_same. intros w b w' H. inversion H; reflexivity. Qed.

Lemma consumes_raise {X A : Type} (e : Exception) : consumes (@raise X A e).
Proof. intros w b w' H. discriminate. Qed.

Lemma consumes_leave_reals {X A : Type} : consumes (@leave_reals X A).
Proof. intros w b w' H. discriminate. Qed.

Lemma consumes_get {X : Type} : consumes (@get X).
Proof. apply consumes_same. intros w b w' H. inversion H; reflexivity. Qed.

Lemma consumes_modify {X : Type} (f : X -> X) : consumes (modify f).
Proof. apply consumes_same. intros w b w' H. inversion H; reflexivity. Qed.

Lemma consumes_log {X : Type} (c : Call) : consumes (@log X c).
Proof. apply consumes_same. intros w b w' H. inversion H; reflexivity. Qed.

Lemma consumes_random_sample {X : Type} : consumes (@random_sample X).
Proof.
  intros w b w' H. unfold random_sample in H.
  destruct (uniforms w) as [| u rest]; [discriminate |].
  inversion H; subst. cbn [uniforms]. exists [b]. reflexivity.
Qed.

Ltac consumes_step :=
  match goal with
  | |- consumes (bind _ _) => apply consumes_bind; [| intro]
  | |- consumes (ret _) => apply consumes_ret
  | |- consumes (raise _) => apply consumes_raise
  | |- consumes leave_reals => apply consumes_leave_reals
  | |- consumes get => apply consumes_get
  | |- consumes (log _) => apply consumes_log
  | |- consumes random_sample => apply consumes_random_sample
  | |- consumes (modify _) => apply consumes_modify
  | |- consumes (if ?b then _ else _) => destruct b
  | |- consumes (match ?x with _ => _ end) => destruct x
  end.

Ltac consumes_auto :=
  repeat first
    [ consumes_step
    | progress cbv zeta
    | progress unfold pydiv, npdiv, uniform, uniform3, blender.scale, blender.translate,
        blender.rotate, blender.apply_all_transforms, blender.enclosing_sphere_diameter,
        blender.select_vertices, blender.select_edges, blender.clear_selection,
        blender.remove_duplicate_vertices, blender.smooth_edges,
        blender.apply_boolean, ops.modifier_bevel, ops.mesh_bevel,
        ops.extrude_region_move, ops.transform_translate, ops.transform_resize,
        ops.translate_selected, ops.primitive_add
    | progress unfold basic.Ellipsoid, basic.Box, basic.Cylinder,
        basic.SphericallyCappedCylinder, basic.Octahedron, basic.Icosahedron,
        basic.Prism, basic.Bipyramid
    | progress unfold fcc.Sphere, fcc.Cube, fcc.Rod, fcc.Octahedron,
        fcc.TruncatedOctahedron, fcc.Icosahedron, fcc.Triangle, fcc.TruncatedTriangle,
        fcc.Square, fcc.Hexagon, fcc.Decahedron, fcc.Bipyramid ].

(** Every constructor of [shapes/randomized/fcc.py] only consumes draws. *)
Lemma randomized_consumes (E : Engine) (cls : blender.ObjM unit) :
  In cls (ALL_SHAPES (randomized.package E)) -> consumes cls.
Proof.
  intros H. cbn [ALL_SHAPES randomized.package In] in H.
  repeat (destruct H as [<- | H];
          [unfold randomized.Sphere, randomized.Cube, randomized.Rod,
             randomized.Octahedron, randomized.TruncatedOctahedron,
             randomized.Icosahedron, randomized.Triangle, randomized.TruncatedTriangle,
             randomized.Square, randomized.Hexagon, randomized.Decahedron,
             randomized.Bipyramid; consumes_auto |]).
  contradiction.
Qed.

Lemma randomized_core_shell_consumes (E : Engine) (cls : blender.ObjM unit) :
  In cls (CORE_SHELL_SUITABLE_SHAPES (randomized.package E)) -> consumes cls.
Proof.
  intros H. apply (randomized_consumes E).
  cbn [ALL_SHAPES CORE_SHELL_SUITABLE_SHAPES randomized.package In] in *.
  tauto.
Qed.

(** The loop of [position_randomly] only consumes draws. *)
Lemma redraw_suffix (fits : Vector -> bool) (low high : Vector) (n : nat) :
  forall (draws : list R) (shift s : Vector) (rest : list R),
    (List.length draws <= n)%nat ->
    blender.redraw fits low high shift draws = Some (s, rest) ->
    exists used, draws = used ++ rest.
Proof.
  induction n as [| n IH]; intros draws shift s rest Hlen H.
  - destruct draws; [| simpl in Hlen; lia]. simpl in H.
    destruct (fits shift); [| discriminate]. inversion H; subst. exists []. reflexivity.
  - destruct draws as [| u1 [| u2 [| u3 more]]]; simpl in H;
      destruct (fits shift); try discriminate;
      try (inversion H; subst; exists []; reflexivity).
    apply (IH more) in H; [| simpl in Hlen; lia].
    destruct H as (used & ->). exists (u1 :: u2 :: u3 :: used). reflexivity.
Qed.

Lemma consumes_position_randomly (E : Engine) (box : R * R * R * R * R * R)
    (fit : bool) :
  consumes (blender.position_randomly E box fit).
Proof.
  destruct box as [[[[[x_min x_max] y_min] y_max] z_min] z_max].
  rewrite position_randomly_eq.
  apply consumes_bind; [apply consumes_get | intro o].
  apply consumes_bind; [consumes_auto | intro s0].
  apply consumes_bind; [| intro s; consumes_auto].
  destruct fit; [| apply consumes_ret].
  intros w a w' H.
  destruct (blender.redraw _ _ _ s0 (uniforms w)) as [[s rest] |] eqn:Hr; [| discriminate].
  inversion H; subst. cbn [uniforms].
  eapply redraw_suffix; [apply Nat.le_refl | exact Hr].
Qed.

Lemma unit_draws_app (l1 l2 : list R) :
  unit_draws (l1 ++ l2) -> unit_draws l1 /\ unit_draws l2.
Proof. unfold unit_draws. apply Forall_app. Qed.

(** ** The call log only grows *)

Lemma appends_bind {X A B : Type} (c : M X A) (k : A -> M X B) :
  appends c -> (forall a, appends (k a)) -> appends (bind c k).
Proof.
  intros Hc Hk w b w' H. apply bind_ok in H. destruct H as (a & w1 & H1 & H2).
  destruct (Hc _ _ _ H1) as (l1 & E1). destruct (Hk a _ _ _ H2) as (l2 & E2).
  exists (l1 ++ l2). rewrite E2, E1, app_assoc. reflexivity.
Qed.

Lemma appends_same {X A : Type} (c : M X A) :
  (forall w a w', c w = Ok a w' -> calls w' = calls w) -> appends c.
Proof. intros H w a w' Hr. exists []. rewrite app_nil_r. eapply H, Hr. Qed.

Lemma appends_ret {X A : Type} (a : A) : appends (@ret X A a).
Proof. apply appends_same. intros w b w' H. inversion H; reflexivity. Qed.

Lemma appends_raise {X A : Type} (e : Exception) : appends (@raise X A e).
Proof. intros w b w' H. discriminate. Qed.

Lemma appends_leave_reals {X A : Type} : appends (@leave_reals X A).
Proof. intros w b w' H. discriminate. Qed.

Lemma appends_get {X : Type} : appends (@get X).
Proof. apply appends_same. intros w b w' H. inversion H; reflexivity. Qed.

Lemma appends_modify {X : Type} (f : X -> X) : appends (modify f).
Proof. apply appends_same. intros w b w' H. inversion H; reflexivity. Qed.

Lemma appends_log {X : Type} (c : Call) : appends (@log X c).
Proof. intros w b w' H. inversion H; subst. exists [c]. reflexivity. Qed.

Lemma appends_random_sample {X : Type} : appends (@random_sample X).
Proof.
  apply appends_same. intros w b w' H. unfold random_sample in H.
  destruct (uniforms w); inversion H; reflexivity.
Qed.

Ltac appends_step :=
  match goal with
  | |- appends (bind _ _) => apply appends_bind; [| intro]
  | |- appends (ret _) => apply appends_ret
  | |- appends (raise _) => apply appends_raise
  | |- appends leave_reals => apply appends_leave_reals
  | |- appends get => apply appends_get
  | |- appends (log _) => apply appends_log
  | |- appends random_sample => apply appends_random_sample
  | |- appends (modify _) => apply appends_modify
  | |- appends (if ?b then _ else _) => destruct b
  | |- appends (match ?x with _ => _ end) => destruct x
  end.

Ltac appends_auto :=
  repeat first
    [ appends_step
    | progress unfold pydiv, npdiv, uniform, blender.scale, blender.translate,
        blender.apply_all_transforms, blender.enclosing_sphere_diameter,
        blender.select_vertices, blender.select_edges,
        blender.remove_duplicate_vertices, blender.smooth_edges,
        blender.apply_boolean, ops.modifier_bevel, ops.mesh_bevel,
        ops.extrude_region_move, ops.transform_translate, ops.transform_resize,
        ops.primitive_add ].

(** ** The prism *)

Section Prism.
Variable E : Engine.
Import blender.

Lemma dimensions_of_coords (o o' : BlenderObject) :
  coords (data o) = coords (data o') -> dimensions o = dimensions o'.
Proof. intros H. unfold dimensions, bound_min, bound_max. rewrite H. reflexivity. Qed.

Lemma Prism_split (n : nat) (size h t ts es : R) (segs : nat) :
  basic.Prism E n size h t ts es segs
  = (ops.primitive_add (primitive_cylinder_add n (size / 2) h)
                       (cylinder E n (size / 2) h) ;;
     (if ltb 0 t then
        select_edges basic.is_edge_vertical ;;
        ops.mesh_bevel E (truncation_bevel t) ;;
        remove_duplicate_vertices E
      else ret tt) ;;
     prism_smoothing E size ts es segs).
Proof. reflexivity. Qed.

Lemma appends_prism_smoothing (size ts es : R) (segs : nat) :
  appends (prism_smoothing E size ts es segs).
Proof. unfold prism_smoothing. appends_auto. Qed.

End Prism.

Section PrismTheorems.
Variable E : Engine.
Import blender.

Lemma prism_smoothing_eq (size ts es : R) (segs : nat) :
  prism_smoothing E size ts es segs
  = ((if ltb 0 ts then
        select_edges basic.is_edge_vertical ;;
        o <- get ;;
        ops.mesh_bevel E (smoothing_bevel (ts * vx (dimensions o)) segs) ;;
        remove_duplicate_vertices E
      else ret tt) ;;
     ((if ltb 0 es then
         select_edges (fun self x => option_map negb (basic.is_edge_vertical self x)) ;;
         o <- get ;;
         ops.mesh_bevel E (smoothing_bevel (es * vz (dimensions o)) segs) ;;
         remove_duplicate_vertices E
       else ret tt) ;;
      o <- get ;;
      k <- npdiv size (hypot (vx (dimensions o)) (vy (dimensions o))) ;;
      scale E (scalar k))).
Proof. reflexivity. Qed.

Lemma prism_truncation_calls (n : nat) (size h t ts es : R) (segs : nat)
    (w w' : World BlenderObject) :
  0 < t ->
  basic.Prism E n size h t ts es segs w = Ok tt w' ->
  exists sel rest,
    calls w' = calls w
               ++ [primitive_cylinder_add n (size / 2) h;
                   mesh_bevel [] sel
                     (mkBevelOperator None (Some PERCENT) None (Some (100 * t / 2))
                                      None (Some true));
                   mesh_remove_doubles]
               ++ rest
    /\ (forall i, In i sel
                  <-> exists e, nth_error (edges (cylinder E n (size / 2) h)) i = Some e
                                /\ vertical (cylinder E n (size / 2) h) e).
Proof.
  intros Ht H. rewrite Prism_split in H.
  peel H as a1 w1 H1. rewrite primitive_add_run in H1. inversion H1; subst a1 w1. clear H1.
  rewrite (ltb_true 0 t Ht) in H.
  peel H as a2 w2 H2. peel H2 as a3 w3 Hsel. peel H2 as a4 w4 Hbev.
  rewrite mesh_bevel_run in Hbev. inversion Hbev; subst a4 w4. clear Hbev.
  rewrite remove_duplicate_vertices_run in H2. inversion H2; subst a2 w2. clear H2.
  pose proof (vertical_selection
                (mkWorld (new_object (cylinder E n (size / 2) h))
                         (calls w ++ [primitive_cylinder_add n (size / 2) h])
                         (uniforms w) (choices w))) as Hspec.
  rewrite Hsel in Hspec. cbn [focus calls data new_object] in Hspec.
  destruct Hspec as (_ & Hedges & Hverts & _ & Hcalls).
  destruct (appends_prism_smoothing E size ts es segs _ _ _ H) as (rest & Hrest).
  cbn [calls] in Hrest. rewrite Hverts, Hcalls in Hrest.
  exists (selected_edges (data (focus w3))), rest. split; [| exact Hedges].
  rewrite Hrest. rewrite <- !app_assoc. cbn [List.app]. unfold truncation_bevel.
  replace (100 * (t * 0.5)) with (100 * t / 2) by lra. reflexivity.
Qed.

(** [Prism] with [truncation_degree > 0]: right after the cylinder, the
    recipe bevels exactly the vertical edges (no vertex selected) at
    [100 * truncation_degree / 2] percent with [clamp_overlap], then welds. *)
Theorem Prism_truncation (n : nat) (size h t ts es : R) (segs : nat)
    (w w' : World BlenderObject) :
  0 < t ->
  basic.Prism E n size h t ts es segs w = Ok tt w' ->
  exists sel rest,
    calls w' = calls w
               ++ [primitive_cylinder_add n (size / 2) h;
                   mesh_bevel [] sel
                     (mkBevelOperator None (Some PERCENT) None (Some (100 * t / 2))
                                      None (Some true));
                   mesh_remove_doubles]
               ++ rest
    /\ (forall i, In i sel
                  <-> exists e, nth_error (edges (cylinder E n (size / 2) h)) i = Some e
                                /\ vertical (cylinder E n (size / 2) h) e).
Proof. exact (prism_truncation_calls n size h t ts es segs w w'). Qed.

Lemma prism_tip_calls (n : nat) (size h t ts es : R) (segs : nat)
    (w w' : World BlenderObject) :
  ~ 0 < t -> 0 < ts ->
  basic.Prism E n size h t ts es segs w = Ok tt w' ->
  exists sel rest,
    calls w' = calls w
               ++ [primitive_cylinder_add n (size / 2) h;
                   mesh_bevel [] sel
                     (mkBevelOperator None None
                        (Some (ts * vx (dimensions
                                          (new_object (cylinder E n (size / 2) h)))))
                        None (Some segs) (Some true));
                   mesh_remove_doubles]
               ++ rest
    /\ (forall i, In i sel
                  <-> exists e, nth_error (edges (cylinder E n (size / 2) h)) i = Some e
                                /\ vertical (cylinder E n (size / 2) h) e).
Proof.
  intros Ht Hts H. rewrite Prism_split in H.
  peel H as a1 w1 H1. rewrite primitive_add_run in H1. inversion H1; subst a1 w1. clear H1.
  rewrite (ltb_false 0 t Ht) in H. rewrite ret_bind_run in H.
  rewrite prism_smoothing_eq in H. rewrite (ltb_true 0 ts Hts) in H.
  peel H as a2 w2 H2. peel H2 as a3 w3 Hsel. peel H2 as o w4 Hget.
  rewrite get_run in Hget. inversion Hget; subst o w4. clear Hget.
  peel H2 as a4 w4 Hbev.
  rewrite mesh_bevel_run in Hbev. inversion Hbev; subst a4 w4. clear Hbev.
  rewrite remove_duplicate_vertices_run in H2. inversion H2; subst a2 w2. clear H2.
  pose proof (vertical_selection
                (mkWorld (new_object (cylinder E n (size / 2) h))
                         (calls w ++ [primitive_cylinder_add n (size / 2) h])
                         (uniforms w) (choices w))) as Hspec.
  rewrite Hsel in Hspec. cbn [focus calls data new_object] in Hspec.
  destruct Hspec as (_ & Hedges & Hverts & Hcoords & Hcalls).
  assert (Hrest : exists rest, calls w' = calls w
             ++ [primitive_cylinder_add n (size / 2) h] ++
             [mesh_bevel [] (selected_edges (data (focus w3)))
                (smoothing_bevel (ts * vx (dimensions (focus w3))) segs)]
             ++ [mesh_remove_doubles] ++ rest).
  { assert (Ha : appends
                   ((if ltb 0 es then
                       select_edges
                         (fun self x => option_map negb (basic.is_edge_vertical self x)) ;;
                       o <- get ;;
                       ops.mesh_bevel E (smoothing_bevel (es * vz (dimensions o)) segs) ;;
                       remove_duplicate_vertices E
                     else ret tt) ;;
                    o <- get ;;
                    k <- npdiv size (hypot (vx (dimensions o)) (vy (dimensions o))) ;;
                    scale E (scalar k))) by appends_auto.
    destruct (Ha _ _ _ H) as (rest & Hr). exists rest.
    rewrite Hr. cbn [calls]. rewrite Hverts, Hcalls. rewrite <- !app_assoc. reflexivity. }
  destruct Hrest as (rest & Hrest).
  exists (selected_edges (data (focus w3))), rest. split; [| exact Hedges].
  rewrite Hrest. cbn [List.app]. unfold smoothing_bevel.
  rewrite (dimensions_of_coords (focus w3) (new_object (cylinder E n (size / 2) h)))
    by exact Hcoords.
  reflexivity.
Qed.

(** [Prism] without truncation and with [tips_smoothing_degree > 0]: the
    vertical edges are bevelled by [tips_smoothing_degree * dimensions.x] of
    the cylinder, however small that offset is (there is no test against
    [BLENDER_EPS] here), then welded. *)
Theorem Prism_tip_smoothing (n : nat) (size h t ts es : R) (segs : nat)
    (w w' : World BlenderObject) :
  ~ 0 < t -> 0 < ts ->
  basic.Prism E n size h t ts es segs w = Ok tt w' ->
  exists sel rest,
    calls w' = calls w
               ++ [primitive_cylinder_add n (size / 2) h;
                   mesh_bevel [] sel
                     (mkBevelOperator None None
                        (Some (ts * vx (dimensions
                                          (new_object (cylinder E n (size / 2) h)))))
                        None (Some segs) (Some true));
                   mesh_remove_doubles]
               ++ rest
    /\ (forall i, In i sel
                  <-> exists e, nth_error (edges (cylinder E n (size / 2) h)) i = Some e
                                /\ vertical (cylinder E n (size / 2) h) e).
Proof. exact (prism_tip_calls n size h t ts es segs w w'). Qed.

End PrismTheorems.

(** *** The prism on the small engine *)

Lemma select_edges_returns (w : World BlenderObject) :
  edges_in_range (data (focus w)) ->
  exists w', blender.select_edges basic.is_edge_vertical w = Ok tt w'
             /\ coords (data (focus w')) = coords (data (focus w)).
Proof.
  intros Hr. pose proof (vertical_selection w) as H.
  destruct (blender.select_edges basic.is_edge_vertical w) as [[] w' | x].
  - exists w'. split; [reflexivity |]. apply H.
  - destruct H as [_ H]. contradiction.
Qed.

Lemma coords_select_all (flag : bool) (m : Mesh) :
  coords (blender.mesh_select_all flag m) = coords m.
Proof.
  unfold coords, blender.mesh_select_all. cbn [vertices].
  rewrite map_map. apply map_ext. reflexivity.
Qed.

Lemma toy_cylinder_in_range (n : nat) (r h : R) : edges_in_range (toy.cylinder n r h).
Proof.
  intros e He. unfold toy.cylinder, toy.edge in He. cbn [edges In] in He.
  cbn [toy.cylinder vertices List.length].
  repeat (destruct He as [<- | He]; [cbn [edge_vertices fst snd]; lia |]).
  contradiction.
Qed.

Lemma toy_cylinder_dimensions (n : nat) :
  blender.dimensions (new_object (toy.cylinder n (1 / 2) 1)) = vec 1 1 1.
Proof. eval_bounds. unfold vsub; cbn [vx vy vz]. f_equal; lra. Qed.

(** The closing rescale of the prism on an entity with the vertices of the
    small cylinder. *)
Lemma toy_prism_rescale (n : nat) (w : World BlenderObject) :
  coords (data (focus w)) = coords (toy.cylinder n (1 / 2) 1) ->
  exists w',
    (o <- get ;;
     k <- npdiv 1 (hypot (vx (blender.dimensions o)) (vy (blender.dimensions o))) ;;
     blender.scale toy.engine (blender.scalar k)) w = Ok tt w'.
Proof.
  intros Hc. eexists.
  rewrite (bind_run _ _ _ _ _ (get_run w)).
  rewrite (dimensions_of_coords (focus w) (new_object (toy.cylinder n (1 / 2) 1)))
    by exact Hc.
  rewrite toy_cylinder_dimensions. cbn [vx vy].
  erewrite bind_run.
  2:{ apply npdiv_run. unfold hypot.
      assert (0 < sqrt (1 * 1 + 1 * 1)) by (apply sqrt_lt_R0; lra). lra. }
  rewrite scale_run. reflexivity.
Qed.

Lemma Prism_truncated_returns (t : R) :
  0 < t ->
  exists w',
    basic.Prism toy.engine 4 1 1 t 0 0 3 (toy.start toy.nothing [] []) = Ok tt w'.
Proof.
  intros Ht. rewrite Prism_split.
  rewrite (bind_run _ _ _ _ _ (primitive_add_run _ _ _)).
  rewrite (ltb_true 0 t Ht).
  match goal with |- context [bind _ _ ?w] => set (w1 := w) end.
  destruct (select_edges_returns w1) as (w2 & Hsel & Hc).
  { apply toy_cylinder_in_range. }
  erewrite bind_run.
  2:{ erewrite bind_run by exact Hsel.
      erewrite bind_run by apply mesh_bevel_run.
      apply remove_duplicate_vertices_run. }
  rewrite prism_smoothing_eq. rewrite !ltb_false by lra.
  rewrite !ret_bind_run.
  apply (toy_prism_rescale 4).
  cbn [focus data with_data toy.engine bevel remove_doubles].
  rewrite coords_select_all. exact Hc.
Qed.

Lemma Prism_tip_smoothed_returns (ts : R) :
  0 < ts ->
  exists w',
    basic.Prism toy.engine 4 1 1 0 ts 0 3 (toy.start toy.nothing [] []) = Ok tt w'.
Proof.
  intros Hts. rewrite Prism_split.
  rewrite (bind_run _ _ _ _ _ (primitive_add_run _ _ _)).
  rewrite (ltb_false 0 0) by lra. rewrite ret_bind_run.
  rewrite prism_smoothing_eq. rewrite (ltb_true 0 ts Hts). rewrite (ltb_false 0 0) by lra.
  match goal with |- context [bind _ _ ?w] => set (w1 := w) end.
  destruct (select_edges_returns w1) as (w2 & Hsel & Hc).
  { apply toy_cylinder_in_range. }
  erewrite bind_run.
  2:{ erewrite bind_run by exact Hsel.
      erewrite bind_run by apply get_run.
      erewrite bind_run by apply mesh_bevel_run.
      apply remove_duplicate_vertices_run. }
  rewrite ret_bind_run.
  apply (toy_prism_rescale 4).
  cbn [focus data with_data toy.engine bevel remove_doubles].
  rewrite coords_select_all. exact Hc.
Qed.

Lemma Prism_truncation_witness :
  exists w' sel rest,
    basic.Prism toy.engine 4 1 1 0.5 0 0 3 (toy.start toy.nothing [] []) = Ok tt w'
    /\ calls w' = [primitive_cylinder_add 4 (1 / 2) 1;
                   mesh_bevel [] sel
                     (mkBevelOperator None (Some PERCENT) None (Some (100 * 0.5 / 2))
                                      None (Some true));
                   mesh_remove_doubles] ++ rest.
Proof.
  assert (Ht : 0 < 0.5) by lra.
  destruct (Prism_truncated_returns 0.5 Ht) as (w' & Hrun).
  destruct (Prism_truncation toy.engine 4 1 1 0.5 0 0 3 (toy.start toy.nothing [] []) w'
              Ht Hrun) as (sel & rest & Hcalls & _).
  exists w', sel, rest. split; [exact Hrun | exact Hcalls].
Defined.

Lemma Prism_tip_smoothing_witness :
  exists w' sel rest,
    basic.Prism toy.engine 4 1 1 0 1e-6 0 3 (toy.start toy.nothing [] []) = Ok tt w'
    /\ calls w' = [primitive_cylinder_add 4 (1 / 2) 1;
                   mesh_bevel [] sel
                     (mkBevelOperator None None
                        (Some (1e-6 * vx (blender.dimensions
                                 (new_object (toy.cylinder 4 (1 / 2) 1)))))
                        None (Some 3%nat) (Some true));
                   mesh_remove_doubles] ++ rest.
Proof.
  assert (Ht : ~ 0 < 0) by lra. assert (Hts : 0 < 1e-6) by lra.
  destruct (Prism_tip_smoothed_returns 1e-6 Hts) as (w' & Hrun).
  destruct (Prism_tip_smoothing toy.engine 4 1 1 0 1e-6 0 3 (toy.start toy.nothing [] []) w'
              Ht Hts Hrun) as (sel & rest & Hcalls & _).
  exists w', sel, rest. split; [exact Hrun | exact Hcalls].
Defined.

(** ** The cylinder test of [position_randomly] *)

Section NoRedraw.
Variable E : Engine.
Import blender.

Lemma hypot_half_extents (a b ey ez : R) :
  Rabs a <= ey / 2 -> Rabs b <= ez / 2 -> 0 < Rmax ey ez ->
  hypot a b < Rmax ey ez.
Proof.
  intros Ha Hb Hr. apply hypot_lt; [exact Hr |].
  pose proof (Rabs_pos a) as Pa. pose proof (Rabs_pos b) as Pb.
  assert (Ha2 : a * a = Rabs a * Rabs a).
  { unfold Rabs. destruct (Rcase_abs a); ring. }
  assert (Hb2 : b * b = Rabs b * Rabs b).
  { unfold Rabs. destruct (Rcase_abs b); ring. }
  rewrite Ha2, Hb2.
  pose proof (Rmax_l ey ez) as Hl. pose proof (Rmax_r ey ez) as Hrr.
  set (r := Rmax ey ez) in *.
  assert (Rabs a <= r / 2) by lra. assert (Rabs b <= r / 2) by lra.
  assert (Rabs a * Rabs a <= (r / 2) * (r / 2)) by (apply Rmult_le_compat; lra).
  assert (Rabs b * Rabs b <= (r / 2) * (r / 2)) by (apply Rmult_le_compat; lra).
  nra.
Qed.

(** Every shift between the two bounds passes the cylinder test. *)
Lemma shift_in_range_fits (x_min x_max y_min y_max z_min z_max : R)
    (o : BlenderObject) (s : Vector) :
  between (min_shift x_min y_min z_min o) (max_shift x_max y_max z_max o) s ->
  0 < Rmax (y_max - y_min) (z_max - z_min) ->
  objects_fits_in_cylinder y_min y_max z_min z_max o s = true.
Proof.
  intros Hb Hr. unfold objects_fits_in_cylinder. apply forallb_forall.
  intros v Hin. unfold point_fits_in_cylinder. cbn [fst snd].
  apply ltb_true.
  destruct (vertex_within_bounds o v Hin) as (_ & Hy & Hz).
  unfold between, min_shift, max_shift in Hb. rewrite location_eq in Hb.
  unfold dimensions, vsub, vadd, vdiv in Hb. cbn [vx vy vz] in Hb.
  destruct Hb as (_ & Hsy & Hsz).
  apply hypot_half_extents; [| | exact Hr];
    unfold vadd; cbn [vy vz]; apply Rabs_le; lra.
Qed.

Lemma first_candidate_accepted (x_min x_max y_min y_max z_min z_max : R)
    (fit : bool) (w : World BlenderObject) (u1 u2 u3 : R) (rest : list R) :
  transform_is_identity (focus w) ->
  vertices (data (focus w)) <> [] ->
  fits_box (x_min, x_max, y_min, y_max, z_min, z_max) (focus w) ->
  0 < Rmax (y_max - y_min) (z_max - z_min) ->
  uniforms w = u1 :: u2 :: u3 :: rest ->
  0 <= u1 < 1 -> 0 <= u2 < 1 -> 0 <= u3 < 1 ->
  let shift := uniform_of (min_shift x_min y_min z_min (focus w))
                          (max_shift x_max y_max z_max (focus w)) u1 u2 u3 in
  position_randomly E (x_min, x_max, y_min, y_max, z_min, z_max) fit w
  = Ok shift
       (mkWorld (translated E shift (focus w))
                (calls w ++ [object_transform_apply shift identity_rotation (vec 1 1 1)])
                rest (choices w)).
Proof.
  intros Hid Hne Hfit Hr Hus H1 H2 H3 shift.
  rewrite (position_randomly_first_draw E x_min x_max y_min y_max z_min z_max fit w
             u1 u2 u3 rest Hus).
  - destruct Hid as (_ & Hrot & Hsc). rewrite Hrot, Hsc. reflexivity.
  - intros _. apply (shift_in_range_fits x_min x_max); [| exact Hr].
    apply uniform_of_between; try assumption.
    unfold between, min_shift, max_shift. rewrite location_eq.
    unfold fits_box in Hfit. unfold dimensions, vsub, vadd, vdiv in *.
    cbn [vx vy vz] in *. repeat split; lra.
Qed.

(** [position_randomly] never redraws.  The "radius" of its cylinder is the
    larger of the box's y and z extents, so every candidate shift that keeps
    the bounding box inside the box passes the test: on an entity with
    vertices and an identity transform that is no larger than the box, with
    three draws in [[0, 1)] available and a box that is not flat in both y
    and z, the method returns after exactly three draws, whether
    [fit_in_cylinder] is set or not. *)
Theorem position_randomly_no_redraw (x_min x_max y_min y_max z_min z_max : R)
    (fit : bool) (w : World BlenderObject) (u1 u2 u3 : R) (rest : list R) :
  transform_is_identity (focus w) ->
  vertices (data (focus w)) <> [] ->
  fits_box (x_min, x_max, y_min, y_max, z_min, z_max) (focus w) ->
  0 < Rmax (y_max - y_min) (z_max - z_min) ->
  uniforms w = u1 :: u2 :: u3 :: rest ->
  0 <= u1 < 1 -> 0 <= u2 < 1 -> 0 <= u3 < 1 ->
  let shift := uniform_of (min_shift x_min y_min z_min (focus w))
                          (max_shift x_max y_max z_max (focus w)) u1 u2 u3 in
  position_randomly E (x_min, x_max, y_min, y_max, z_min, z_max) fit w
  = Ok shift
       (mkWorld (translated E shift (focus w))
                (calls w ++ [object_transform_apply shift identity_rotation (vec 1 1 1)])
                rest (choices w)).
Proof. exact (first_candidate_accepted x_min x_max y_min y_max z_min z_max fit w u1 u2 u3 rest). Qed.

End NoRedraw.

Lemma position_randomly_no_redraw_witness :
  blender.position_randomly toy.engine (-2, 2, -2, 2, -2, 2) true
    (toy.start toy.segment [0; 1 / 2; 1 / 4; 1 / 3] [])
  = Ok (uniform_of (min_shift (-2) (-2) (-2) toy.segment) (max_shift 2 2 2 toy.segment)
                   0 (1 / 2) (1 / 4))
       (mkWorld (translated toy.engine
                   (uniform_of (min_shift (-2) (-2) (-2) toy.segment)
                               (max_shift 2 2 2 toy.segment) 0 (1 / 2) (1 / 4))
                   toy.segment)
                [object_transform_apply
                   (uniform_of (min_shift (-2) (-2) (-2) toy.segment)
                               (max_shift 2 2 2 toy.segment) 0 (1 / 2) (1 / 4))
                   identity_rotation (vec 1 1 1)]
                [1 / 3] []).
Proof.
  apply (position_randomly_no_redraw toy.engine (-2) 2 (-2) 2 (-2) 2 true
           (toy.start toy.segment [0; 1 / 2; 1 / 4; 1 / 3] []) 0 (1 / 2) (1 / 4) [1 / 3]).
  - repeat split.
  - discriminate.
  - unfold fits_box. cbn [focus toy.start]. rewrite segment_dimensions.
    cbn [vx vy vz]. repeat split; lra.
  - eval_extrema. lra.
  - reflexivity.
  - lra.
  - lra.
  - lra.
Defined.

(** ** Scenes *)

Section SceneLemmas.
Variable E : Engine.
Import blender scene_building.

Lemma store_at (l1 l2 : list BlenderObject) (o o' : BlenderObject) :
  store (List.length l1) o' (l1 ++ o :: l2) = l1 ++ o' :: l2.
Proof. induction l1 as [| a l1 IH]; simpl; [reflexivity | rewrite IH; reflexivity]. Qed.

Lemma nth_error_at (l1 l2 : list BlenderObject) (o : BlenderObject) :
  nth_error (l1 ++ o :: l2) (List.length l1) = Some o.
Proof. rewrite nth_error_app2 by lia. rewrite Nat.sub_diag. reflexivity. Qed.

(** A method called through a reference works on that entity and leaves the
    others alone. *)
Lemma on_at {A : Type} (m : ObjM A) (l1 l2 : list BlenderObject) (o : BlenderObject)
    (cs : list Call) (us : list R) (ch : list nat) :
  on (List.length l1) m (mkWorld (l1 ++ o :: l2) cs us ch)
  = match m (mkWorld o cs us ch) with
    | Ok a wo =>
        Ok a (mkWorld (l1 ++ focus wo :: l2) (calls wo) (uniforms wo) (choices wo))
    | Stop h => Stop h
    end.
Proof.
  unfold on. cbn [focus calls uniforms choices]. rewrite nth_error_at.
  destruct (m (mkWorld o cs us ch)); [rewrite store_at |]; reflexivity.
Qed.

Lemma construct_run (cls : ObjM unit) (w : World (list BlenderObject)) :
  construct cls w
  = match cls (mkWorld (new_object (mkMesh [] [] [])) (calls w) (uniforms w) (choices w))
    with
    | Ok _ wo =>
        Ok (List.length (focus w))
           (mkWorld (focus w ++ [focus wo]) (calls wo) (uniforms wo) (choices wo))
    | Stop h => Stop h
    end.
Proof. reflexivity. Qed.

Lemma choice_ok {X A : Type} (seq : list A) (a : A) (w w1 : World X) :
  choice seq w = Ok a w1 ->
  In a seq
  /\ exists n rest, choices w = n :: rest
                    /\ w1 = mkWorld (focus w) (calls w) (uniforms w) rest.
Proof.
  unfold choice. destruct seq as [| a0 seq]; [discriminate |].
  destruct (choices w) as [| n rest]; [discriminate |].
  intros H.
  assert (Ha : a = nth (n mod List.length (a0 :: seq)) (a0 :: seq) a0) by congruence.
  assert (Hw : w1 = mkWorld (focus w) (calls w) (uniforms w) rest) by congruence.
  split.
  - rewrite Ha. apply nth_In. apply Nat.mod_upper_bound. discriminate.
  - exists n, rest. auto.
Qed.

Lemma choice_pick {X A : Type} (seq : list A) (a : A) (w w1 : World X) :
  choice seq w = Ok a w1 ->
  exists n rest, choices w = n :: rest
                 /\ nth_error seq (n mod List.length seq) = Some a.
Proof.
  unfold choice. destruct seq as [| a0 seq]; [discriminate |].
  destruct (choices w) as [| n rest]; [discriminate |].
  intros H.
  assert (Ha : a = nth (n mod List.length (a0 :: seq)) (a0 :: seq) a0) by congruence.
  exists n, rest. split; [reflexivity |]. rewrite Ha. apply nth_error_nth'.
  apply Nat.mod_upper_bound. discriminate.
Qed.

Lemma empty_dimensions (o : BlenderObject) :
  vertices (data o) = [] -> max3 (dimensions o) = 0.
Proof.
  intros H. unfold dimensions, bound_min, bound_max, coords. rewrite H.
  unfold max3, vsub; cbn [map vx vy vz]. eval_extrema. lra.
Qed.

Lemma dimensions_shifted (o o' : BlenderObject) (t : Vector) :
  coords (data o') = map (vadd t) (coords (data o)) ->
  dimensions o' = dimensions o.
Proof.
  intros H. destruct (coords (data o)) as [| p ps] eqn:Hc.
  - unfold dimensions, bound_min, bound_max. rewrite H, Hc. reflexivity.
  - destruct (bounds_affine o o' t (vec 1 1 1)) as [H1 H2]; cbn [vx vy vz]; try lra.
    + rewrite H, Hc. apply map_ext. intros q. unfold vadd, vmul; simpl. f_equal; ring.
    + left. rewrite Hc. discriminate.
    + unfold dimensions. rewrite H1, H2. unfold vsub, vadd, vmul; simpl. f_equal; ring.
Qed.

Lemma max3_upper (d : Vector) : vx d <= max3 d /\ vy d <= max3 d /\ vz d <= max3 d.
Proof.
  unfold max3. pose proof (Rmax_l (vx d) (Rmax (vy d) (vz d))).
  pose proof (Rmax_r (vx d) (Rmax (vy d) (vz d))).
  pose proof (Rmax_l (vy d) (vz d)). pose proof (Rmax_r (vy d) (vz d)).
  repeat split; lra.
Qed.

(** [shape.scale(scale_factor / max(shape.dimensions))] on an entity with
    an identity transform and a positive factor makes the largest dimension
    the factor. *)
Lemma rescale_to_factor (f : R) (w w' : World BlenderObject) :
  transform_is_identity (focus w) -> 0 < f ->
  (o <- get ;; k <- pydiv f (max3 (dimensions o)) ;; scale E (scalar k)) w = Ok tt w' ->
  max3 (dimensions (focus w')) = f
  /\ transform_is_identity (focus w')
  /\ vertices (data (focus w')) <> []
  /\ uniforms w' = uniforms w.
Proof.
  intros Hid Hf H.
  peel H as o w1 Hget. rewrite get_run in Hget. inversion Hget; subst o w1. clear Hget.
  peel H as k w1 Hdiv. apply pydiv_ok in Hdiv. destruct Hdiv as (Hne & Hk & ->).
  rewrite scale_run in H. inversion H; subst w'. clear H. cbn [focus uniforms].
  pose proof (max3_nonneg (focus w)) as Hpos.
  assert (Hk0 : 0 < k).
  { subst k. apply Rdiv_lt_0_compat; lra. }
  assert (Hmax : max3 (dimensions (scaled E k (focus w))) = f).
  { rewrite scaled_dimensions by exact Hid. rewrite Rabs_right by lra.
    rewrite max3_scale by lra. subst k. field. exact Hne. }
  split; [exact Hmax |]. split; [apply scaled_identity |]. split; [| reflexivity].
  intros Hnil. apply empty_dimensions in Hnil. lra.
Qed.

Lemma rescale_to_factor_draws (f : R) (w w' : World BlenderObject) :
  (o <- get ;; k <- pydiv f (max3 (dimensions o)) ;; scale E (scalar k)) w = Ok tt w' ->
  uniforms w' = uniforms w.
Proof.
  intros H.
  peel H as o w1 Hget. rewrite get_run in Hget. inversion Hget; subst o w1. clear Hget.
  peel H as k w1 Hdiv. apply pydiv_ok in Hdiv. destruct Hdiv as (Hne & Hk & ->).
  rewrite scale_run in H. inversion H; subst w'. reflexivity.
Qed.

Lemma position_randomly_focus (box : R * R * R * R * R * R) (fit : bool)
    (w w' : World BlenderObject) (shift : Vector) :
  position_randomly E box fit w = Ok shift w' ->
  focus w' = translated E shift (focus w).
Proof.
  destruct box as [[[[[x_min x_max] y_min] y_max] z_min] z_max].
  intros H. rewrite position_randomly_eq in H.
  peel H as o w1 Hget. rewrite get_run in Hget. inversion Hget; subst o w1. clear Hget.
  peel H as s0 w1 Hdraw. apply uniform3_ok in Hdraw.
  destruct Hdraw as (u1 & u2 & u3 & rest & _ & _ & ->).
  peel H as s w2 Hloop.
  assert (Hf : focus w2 = focus w).
  { destruct fit.
    - cbn [uniforms] in Hloop.
      destruct (redraw _ _ _ s0 rest) as [[s' rest'] |]; [| discriminate].
      inversion Hloop; subst. reflexivity.
    - inversion Hloop; subst. reflexivity. }
  peel H as u w3 Htr. rewrite translate_run in Htr. inversion Htr; subst u w3. clear Htr.
  inversion H; subst. cbn [focus]. rewrite Hf. reflexivity.
Qed.

Lemma rescale_to_factor_focus (f : R) (w w' : World BlenderObject) :
  (o <- get ;; k <- pydiv f (max3 (dimensions o)) ;; scale E (scalar k)) w = Ok tt w' ->
  focus w' = scaled E (f / max3 (dimensions (focus w))) (focus w).
Proof.
  intros H.
  peel H as o w1 Hget. rewrite get_run in Hget. inversion Hget; subst o w1. clear Hget.
  peel H as k w1 Hdiv. apply pydiv_ok in Hdiv. destruct Hdiv as (Hne & -> & ->).
  rewrite scale_run in H. inversion H; subst w'. reflexivity.
Qed.

Lemma rescale_to_factor_calls (f : R) (w w' : World BlenderObject) :
  transform_is_identity (focus w) ->
  (o <- get ;; k <- pydiv f (max3 (dimensions o)) ;; scale E (scalar k)) w = Ok tt w' ->
  calls w'
  = calls w ++ [object_transform_apply (vec 0 0 0) identity_rotation
                  (vec (f / max3 (dimensions (focus w))) (f / max3 (dimensions (focus w)))
                       (f / max3 (dimensions (focus w))))].
Proof.
  intros (Hl & Hr & _) H.
  peel H as o w1 Hget. rewrite get_run in Hget. inversion Hget; subst o w1. clear Hget.
  peel H as k w1 Hdiv. apply pydiv_ok in Hdiv. destruct Hdiv as (Hne & -> & ->).
  rewrite scale_run in H. inversion H; subst w'. cbn [calls]. rewrite Hl, Hr. reflexivity.
Qed.

End SceneLemmas.

Section SceneTheorems.
Variable E : Engine.
Import blender scene_building.

(** Everything [add_random_shape] has done when it returns. *)
Lemma random_shape_facts (self : Scene) (shape_package : ShapePackage)
    (w w' : World (list BlenderObject)) (shape : nat) :
  (forall cls, In cls (ALL_SHAPES shape_package) -> consumes cls) ->
  unit_draws (uniforms w) ->
  sides_at_least 0.9 (shrunk (extent self)) ->
  add_random_shape E self shape_package w = Ok shape w' ->
  shape = List.length (focus w)
  /\ exists (cls : ObjM unit) (n : nat) (ch : list nat) (wo : World BlenderObject)
            (used : list R) (q1 q2 q3 q4 u : R) (more : list R) (shift : Vector),
       let norm := sqrt (q1 * q1 + q2 * q2 + q3 * q3 + q4 * q4) in
       let rot := rotation_quaternion (q1 / norm) (q2 / norm) (q3 / norm) (q4 / norm) in
       let rotated := transform_apply E (with_rotation rot (focus wo)) in
       let scale_factor := 0.75 + (0.9 - 0.75) * u in
       let o := translated E shift
                  (scaled E (scale_factor / max3 (dimensions rotated)) rotated) in
       In cls (ALL_SHAPES shape_package)
       /\ choices w = n :: ch
       /\ nth_error (ALL_SHAPES shape_package)
                    (n mod List.length (ALL_SHAPES shape_package)) = Some cls
       /\ cls (mkWorld (new_object (mkMesh [] [] [])) (calls w) (uniforms w) ch) = Ok tt wo
       /\ uniforms w = used ++ uniforms wo
       /\ uniforms wo = q1 :: q2 :: q3 :: q4 :: u :: more ++ uniforms w'
       /\ focus w' = focus w ++ [o]
       /\ max3 (dimensions o) = scale_factor
       /\ 0.75 <= scale_factor < 0.9
       /\ transform_is_identity o
       /\ inside_box (shrunk (extent self)) o
       /\ (forall v, In v (vertices (data o)) ->
             inside_cylinder (shrunk (extent self)) (co v))
       /\ calls w'
          = calls wo
            ++ [object_transform_apply (ob_location (focus wo)) rot (ob_scale (focus wo));
                object_transform_apply (vec 0 0 0) identity_rotation
                  (vec (scale_factor / max3 (dimensions rotated))
                       (scale_factor / max3 (dimensions rotated))
                       (scale_factor / max3 (dimensions rotated)));
                object_transform_apply shift identity_rotation (vec 1 1 1)].
Proof.
  intros Hpkg Hu Hroomy H. unfold add_random_shape in H.
  peel H as cls w1 Hch. pose proof (choice_pick _ _ _ _ Hch) as Hpick.
  apply choice_ok in Hch.
  destruct Hch as (Hin & n & ch & Hchs & ->).
  destruct Hpick as (n' & ch' & Hchs' & Hnth).
  assert (n' = n) by congruence. subst n'. clear ch' Hchs'.
  peel H as h w2 Hcon. rewrite construct_run in Hcon.
  cbn [focus calls uniforms choices] in Hcon.
  destruct (cls _) as [[] wo |] eqn:Hcls; [| discriminate].
  inversion Hcon; subst h w2. clear Hcon.
  destruct (Hpkg cls Hin _ _ _ Hcls) as (used & Hused). cbn [uniforms] in Hused.
  split.
  2:{ peel H as q w3 Hrot. rewrite on_at in Hrot.
      destruct (apply_random_rotation E _) as [q' wr |] eqn:Hr; [| discriminate].
      inversion Hrot; subst q' w3. clear Hrot.
      destruct (random_rotation_ok E _ _ _ Hr)
        as (u1 & u2 & u3 & u4 & rest & Hus & Hn & Hq & Hfr & Hcr & Hur & _).
      cbn [uniforms focus calls] in Hus, Hfr, Hcr.
      assert (Hidr : transform_is_identity (focus wr))
        by (rewrite Hfr; apply transform_apply_identity).
      peel H as sf w4 Hsf. apply uniform_ok in Hsf.
      destruct Hsf as (u & us & Hus4 & Hsf & ->). cbn [uniforms] in Hus4.
      peel H as a5 w5 Hsc. cbn [focus calls uniforms choices] in Hsc.
      rewrite on_at in Hsc.
      match type of Hsc with
      | match ?c with _ => _ end = _ => destruct c as [[] ws |] eqn:Hs; [| discriminate]
      end.
      inversion Hsc; subst w5. clear Hsc.
      peel H as shift w6 Hpos. rewrite on_at in Hpos.
      destruct (position_randomly E _ _ _) as [s wp |] eqn:Hp; [| discriminate].
      inversion Hpos; subst s w6. clear Hpos.
      inversion H; subst w'. clear H. cbn [focus uniforms].
      destruct (consumes_position_randomly E _ _ _ _ _ Hp) as (more & Hmore).
      cbn [uniforms] in Hmore.
      pose proof (rescale_to_factor_focus E _ _ _ Hs) as Hfs. cbn [focus] in Hfs.
      pose proof (position_randomly_focus E _ _ _ _ _ Hp) as Hfp. cbn [focus] in Hfp.
      pose proof (rescale_to_factor_draws E _ _ _ Hs) as Hds. cbn [uniforms] in Hds.
      pose proof (fun Hi => rescale_to_factor_calls E _ _ _ Hi Hs) as Hcs.
      specialize (Hcs Hidr). cbn [focus calls] in Hcs.
      (* the draws *)
      assert (Hwo : uniforms wo = u1 :: u2 :: u3 :: u4 :: u :: uniforms ws).
      { rewrite Hus, <- Hur, Hus4, Hds. reflexivity. }
      rewrite Hused, Hwo in Hu. apply unit_draws_app in Hu. destruct Hu as [_ Hu].
      inversion Hu as [| ? ? _ A1]. inversion A1 as [| ? ? _ A2].
      inversion A2 as [| ? ? _ A3]. inversion A3 as [| ? ? _ A4].
      inversion A4 as [| ? ? Hu0 Hu3]. subst.
      apply rescale_to_factor in Hs; [| exact Hidr | cbn [focus]; lra].
      cbn [focus uniforms] in Hs. destruct Hs as (Hmax & Hids & Hnes & Huss).
      assert (Hfit : fits_box (shrunk (extent self)) (focus ws)).
      { destruct (max3_upper (dimensions (focus ws))) as (Hx & Hy & Hz).
        rewrite Hmax in Hx, Hy, Hz. unfold sides_at_least in Hroomy. unfold fits_box.
        destruct (shrunk (extent self)) as [[[[[x0 x1] y0] y1] z0] z1].
        repeat split; lra. }
      apply placement_spec in Hp;
        [| exact Hids | exact Hnes | cbn [uniforms]; exact Hu3 | exact Hfit].
      cbn [focus calls] in Hp. destruct Hp as (Hco & Hcp & Hidp & Hbox & Hcyl).
      exists cls, n, ch, wo, used, u1, u2, u3, u4, u, more, shift. cbv zeta.
      rewrite <- Hfr.
      split; [exact Hin |]. split; [exact Hchs |]. split; [exact Hnth |].
      split; [exact Hcls |].
      split; [exact Hused |].
      split; [rewrite Hwo, Hmore; reflexivity |].
      split; [cbn [focus]; rewrite Hfp, Hfs; reflexivity |].
      rewrite <- Hfs, <- Hfp.
      rewrite (dimensions_shifted _ _ _ Hco), Hmax.
      split; [reflexivity |]. split; [lra |]. split; [exact Hidp |].
      split; [exact Hbox |]. split; [exact (Hcyl eq_refl) |].
      cbn [calls]. rewrite Hcp, Hcs, Hcr. rewrite <- !app_assoc. reflexivity. }
  peel H as q w3 Hrot. peel H as sf w4 Hsf. peel H as a5 w5 Hsc. peel H as s w6 Hp.
  inversion H. reflexivity.
Qed.


End SceneTheorems.

(** ** [add_random_shape] returns *)

Section Returns.
Variable E : Engine.
Import blender scene_building.

Lemma quaternion_norm_nonzero (u1 u2 u3 u4 : R) :
  0 <= u1 -> 0 <= u2 -> 0 <= u3 -> 0 <= u4 -> 0 < u1 + u2 + u3 + u4 ->
  sqrt ((0 + (1 - 0) * u1) * (0 + (1 - 0) * u1) + (0 + (1 - 0) * u2) * (0 + (1 - 0) * u2)
        + (0 + (1 - 0) * u3) * (0 + (1 - 0) * u3) + (0 + (1 - 0) * u4) * (0 + (1 - 0) * u4))
  <> 0.
Proof.
  intros H1 H2 H3 H4 Hs. apply Rgt_not_eq, Rlt_gt, sqrt_lt_R0.
  assert (0 < u1 \/ 0 < u2 \/ 0 < u3 \/ 0 < u4) as [H | [H | [H | H]]] by lra; nra.
Qed.

Lemma rescale_run (f : R) (w : World BlenderObject) :
  max3 (dimensions (focus w)) <> 0 ->
  (o <- get ;; k <- pydiv f (max3 (dimensions o)) ;; scale E (scalar k)) w
  = Ok tt (mkWorld (scaled E (f / max3 (dimensions (focus w))) (focus w))
                   (calls w ++ [object_transform_apply (ob_location (focus w))
                                  (ob_rotation (focus w))
                                  (vec (f / max3 (dimensions (focus w)))
                                       (f / max3 (dimensions (focus w)))
                                       (f / max3 (dimensions (focus w))))])
                   (uniforms w) (choices w)).
Proof.
  intros Hne. rewrite (bind_run _ _ _ _ _ (get_run w)).
  rewrite (bind_run _ _ _ _ _ (pydiv_run _ _ _ Hne)). apply scale_run.
Qed.

Lemma random_shape_run (self : Scene) (shape_package : ShapePackage)
    (w : World (list BlenderObject)) (cls : ObjM unit) (ch : list nat)
    (wo : World BlenderObject) (u1 u2 u3 u4 u5 u6 u7 u8 : R) (rest : list R) :
  choice (ALL_SHAPES shape_package) w
    = Ok cls (mkWorld (focus w) (calls w) (uniforms w) ch) ->
  cls (mkWorld (new_object (mkMesh [] [] [])) (calls w) (uniforms w) ch) = Ok tt wo ->
  uniforms wo = u1 :: u2 :: u3 :: u4 :: u5 :: u6 :: u7 :: u8 :: rest ->
  unit_draws [u1; u2; u3; u4; u5; u6; u7; u8] ->
  0 < u1 + u2 + u3 + u4 ->
  (forall r, max3 (dimensions (transform_apply E (with_rotation r (focus wo)))) <> 0) ->
  sides_at_least 0.9 (shrunk (extent self)) ->
  exists w',
    add_random_shape E self shape_package w = Ok (List.length (focus w)) w'
    /\ uniforms w' = rest.
Proof.
  intros Hch Hcls Hus Hu Hsum Hdim Hroomy.
  inversion Hu as [| ? ? A1 Hu1]. inversion Hu1 as [| ? ? A2 Hu2].
  inversion Hu2 as [| ? ? A3 Hu3]. inversion Hu3 as [| ? ? A4 Hu4].
  inversion Hu4 as [| ? ? A5 Hu5]. inversion Hu5 as [| ? ? A6 Hu6].
  inversion Hu6 as [| ? ? A7 Hu7]. inversion Hu7 as [| ? ? A8 _]. subst.
  unfold add_random_shape.
  destruct (shrunk (extent self)) as [[[[[x0 x1] y0] y1] z0] z1]. cbn in Hroomy.
  rewrite (bind_run _ _ _ _ _ Hch).
  erewrite bind_run.
  2:{ rewrite construct_run. cbn [focus calls uniforms choices]. rewrite Hcls.
      reflexivity. }
  pose proof (apply_random_rotation_run E
                (mkWorld (focus wo) (calls wo) (uniforms wo) (choices wo))
                u1 u2 u3 u4 (u5 :: u6 :: u7 :: u8 :: rest) Hus) as Hrot.
  cbv zeta in Hrot.
  specialize (Hrot (quaternion_norm_nonzero u1 u2 u3 u4 (proj1 A1) (proj1 A2) (proj1 A3)
                      (proj1 A4) Hsum)).
  erewrite bind_run.
  2:{ rewrite on_at. rewrite Hrot. reflexivity. }
  cbn [focus calls uniforms choices].
  erewrite bind_run by (apply uniform_run; reflexivity).
  cbn [focus calls uniforms choices].
  match goal with
  | |- context [mkWorld (focus w ++ [?o]) ?cs ?us ?chs] =>
      set (o_r := o); set (cs_r := cs);
      pose proof (rescale_run (0.75 + (0.9 - 0.75) * u5) (mkWorld o_r cs_r us chs)
                    (Hdim _)) as Hsc
  end.
  assert (Hidr : transform_is_identity o_r) by apply transform_apply_identity.
  pose proof Hsc as Hfacts.
  apply rescale_to_factor in Hfacts; [| exact Hidr | lra].
  cbn [focus uniforms] in Hfacts. destruct Hfacts as (Hmax & Hids & Hnes & _).
  erewrite bind_run.
  2:{ rewrite on_at. rewrite Hsc. reflexivity. }
  cbn [focus calls uniforms choices].
  match goal with
  | |- context [mkWorld (focus w ++ [?o]) ?cs ?us ?chs] =>
      set (o_s := o) in *; set (cs_s := cs)
  end.
  assert (Hfit : fits_box (x0, x1, y0, y1, z0, z1) o_s).
  { destruct (max3_upper (dimensions o_s)) as (Hx & Hy & Hz).
    rewrite Hmax in Hx, Hy, Hz. unfold fits_box. repeat split; lra. }
  assert (Hr : 0 < Rmax (y1 - y0) (z1 - z0)).
  { pose proof (Rmax_l (y1 - y0) (z1 - z0)). lra. }
  erewrite bind_run.
  2:{ rewrite on_at.
      rewrite (first_candidate_accepted E x0 x1 y0 y1 z0 z1 true
                 (mkWorld o_s cs_s (u6 :: u7 :: u8 :: rest) (choices wo)) u6 u7 u8 rest
                 Hids Hnes Hfit Hr eq_refl A6 A7 A8).
      reflexivity. }
  eexists. split; [reflexivity |]. reflexivity.
Qed.

(** [add_random_shape] returns, and never loops: once the constructor it
    picked has returned an entity that keeps some extent under rotation,
    eight draws in [[0, 1)] (the first four not all zero) are enough, and
    exactly these eight are used: four for the rotation, one for the scale
    factor, three for the shift.  The extent's shrunk sides are at least
    0.9, as for the default extent. *)
Theorem add_random_shape_returns (self : Scene) (shape_package : ShapePackage)
    (w : World (list BlenderObject)) (cls : ObjM unit) (ch : list nat)
    (wo : World BlenderObject) (u1 u2 u3 u4 u5 u6 u7 u8 : R) (rest : list R) :
  choice (ALL_SHAPES shape_package) w
    = Ok cls (mkWorld (focus w) (calls w) (uniforms w) ch) ->
  cls (mkWorld (new_object (mkMesh [] [] [])) (calls w) (uniforms w) ch) = Ok tt wo ->
  uniforms wo = u1 :: u2 :: u3 :: u4 :: u5 :: u6 :: u7 :: u8 :: rest ->
  unit_draws [u1; u2; u3; u4; u5; u6; u7; u8] ->
  0 < u1 + u2 + u3 + u4 ->
  (forall r, max3 (dimensions (transform_apply E (with_rotation r (focus wo)))) <> 0) ->
  sides_at_least 0.9 (shrunk (extent self)) ->
  exists w',
    add_random_shape E self shape_package w = Ok (List.length (focus w)) w'
    /\ uniforms w' = rest.
Proof. exact (random_shape_run self shape_package w cls ch wo u1 u2 u3 u4 u5 u6 u7 u8 rest). Qed.

End Returns.

(** *** A sphere in the default scene, on the small engine *)

Lemma max3_positive (o : BlenderObject) (v1 v2 : MeshVertex) :
  In v1 (vertices (data o)) -> In v2 (vertices (data o)) ->
  vx (co v1) <> vx (co v2) -> 0 < max3 (blender.dimensions o).
Proof.
  intros H1 H2 Hne.
  destruct (vertex_within_bounds o v1 H1) as (Hx1 & _).
  destruct (vertex_within_bounds o v2 H2) as (Hx2 & _).
  pose proof (Rmax_l (vx (blender.dimensions o))
                (Rmax (vy (blender.dimensions o)) (vz (blender.dimensions o)))) as Hm.
  unfold max3. unfold blender.dimensions, vsub in *. cbn [vx vy vz] in *. lra.
Qed.

Lemma default_scene_sides :
  sides_at_least 0.9 (scene_building.shrunk (scene_building.extent default_scene)).
Proof. unfold sides_at_least, default_scene. cbn. repeat split; lra. Qed.

Lemma toy_choice :
  choice (ALL_SHAPES (randomized.package toy.engine)) (toy.start empty_scene sphere_draws [0%nat])
  = Ok (randomized.Sphere toy.engine) (mkWorld empty_scene [] sphere_draws []).
Proof. reflexivity. Qed.

Lemma toy_sphere_run :
  randomized.Sphere toy.engine (mkWorld (new_object (mkMesh [] [] [])) [] sphere_draws [])
  = Ok tt (mkWorld
             (blender.transform_apply toy.engine
                (with_scale (vec 1.0 1.0 1.0) (new_object (toy.ico_sphere 5 0.5))))
             [primitive_ico_sphere_add 5 0.5;
              object_transform_apply (vec 0 0 0) identity_rotation (vec 1.0 1.0 1.0)]
             sphere_draws []).
Proof. unfold randomized.Sphere, fcc.Sphere. rewrite Ellipsoid_run. reflexivity. Qed.

Lemma toy_sphere_extent (r : Rotation) :
  max3 (blender.dimensions
          (blender.transform_apply toy.engine
             (with_rotation r
                (blender.transform_apply toy.engine
                   (with_scale (vec 1.0 1.0 1.0) (new_object (toy.ico_sphere 5 0.5)))))))
  <> 0.
Proof.
  apply Rgt_not_eq, Rlt_gt.
  eapply max3_positive.
  - unfold toy.ico_sphere, toy.vertex.
    cbn [blender.transform_apply map_co data vertices map with_rotation with_scale
         new_object In].
    right. left. reflexivity.
  - unfold toy.ico_sphere, toy.vertex.
    cbn [blender.transform_apply map_co data vertices map with_rotation with_scale
         new_object In].
    do 3 right. left. reflexivity.
  - cbn [co vx vy vz vadd vmul ob_location ob_rotation ob_scale toy.engine rotate_vector
         with_rotation with_scale new_object blender.transform_apply select].
    lra.
Qed.

Lemma sphere_draws_unit : unit_draws sphere_draws.
Proof. unfold sphere_draws. repeat constructor; lra. Qed.

Lemma toy_random_shape_run :
  exists w',
    scene_building.add_random_shape toy.engine default_scene (randomized.package toy.engine)
      (toy.start empty_scene sphere_draws [0%nat]) = Ok 0%nat w'.
Proof.
  destruct (random_shape_run toy.engine default_scene (randomized.package toy.engine)
              (toy.start empty_scene sphere_draws [0%nat]) (randomized.Sphere toy.engine) []
              _ (1 / 2) (1 / 2) (1 / 2) (1 / 2) 0 (1 / 2) (1 / 2) (1 / 2) []
              toy_choice toy_sphere_run eq_refl sphere_draws_unit ltac:(lra)
              toy_sphere_extent default_scene_sides) as (w' & Hrun & _).
  exists w'. exact Hrun.
Qed.

Lemma add_random_shape_returns_witness :
  exists w',
    scene_building.add_random_shape toy.engine default_scene (randomized.package toy.engine)
      (toy.start empty_scene sphere_draws [0%nat]) = Ok 0%nat w'
    /\ uniforms w' = [].
Proof.
  exact (add_random_shape_returns toy.engine default_scene (randomized.package toy.engine)
           (toy.start empty_scene sphere_draws [0%nat]) (randomized.Sphere toy.engine) []
           _ (1 / 2) (1 / 2) (1 / 2) (1 / 2) 0 (1 / 2) (1 / 2) (1 / 2) []
           toy_choice toy_sphere_run eq_refl sphere_draws_unit ltac:(lra)
           toy_sphere_extent default_scene_sides).
Defined.


(** ** Core and shell *)

Section SceneSteps.
Variable E : Engine.
Import blender scene_building.

Lemma on_ok {A : Type} (h : nat) (m : ObjM A) (w w' : World (list BlenderObject)) (a : A) :
  on h m w = Ok a w' ->
  exists o wo,
    nth_error (focus w) h = Some o
    /\ m (mkWorld o (calls w) (uniforms w) (choices w)) = Ok a wo
    /\ focus w' = store h (focus wo) (focus w)
    /\ calls w' = calls wo /\ uniforms w' = uniforms wo /\ choices w' = choices wo.
Proof.
  unfold on. destruct (nth_error (focus w) h) as [o |]; [| discriminate].
  destruct (m (mkWorld o (calls w) (uniforms w) (choices w))) as [a' wo |] eqn:Hm;
    [| discriminate].
  intros H. inversion H; subst. exists o, wo. cbn [focus calls uniforms choices].
  repeat split; first [reflexivity | exact Hm].
Qed.

Lemma construct_ok (cls : ObjM unit) (w w' : World (list BlenderObject)) (h : nat) :
  construct cls w = Ok h w' ->
  h = List.length (focus w)
  /\ exists wo,
       cls (mkWorld (new_object (mkMesh [] [] [])) (calls w) (uniforms w) (choices w))
       = Ok tt wo
       /\ focus w' = focus w ++ [focus wo]
       /\ calls w' = calls wo /\ uniforms w' = uniforms wo /\ choices w' = choices wo.
Proof.
  rewrite construct_run.
  destruct (cls _) as [[] wo |] eqn:Hc; [| discriminate].
  intros H. inversion H; subst. split; [reflexivity |]. exists wo.
  cbn [focus calls uniforms choices]. repeat split; first [reflexivity | exact Hc].
Qed.

Lemma entity_ok (h : nat) (w w' : World (list BlenderObject)) (o : BlenderObject) :
  entity h w = Ok o w' -> nth_error (focus w) h = Some o /\ w' = w.
Proof.
  unfold entity. destruct (nth_error (focus w) h) as [o' |]; [| discriminate].
  intros H. inversion H; subst. auto.
Qed.

Lemma copy_ok (h h' : nat) (w w' : World (list BlenderObject)) :
  copy h w = Ok h' w' ->
  exists o,
    nth_error (focus w) h = Some o
    /\ h' = List.length (focus w)
    /\ focus w' = focus w ++ [o]
    /\ calls w' = calls w ++ [object_duplicate]
    /\ uniforms w' = uniforms w.
Proof.
  unfold copy. intros H. peel H as o w1 He. apply entity_ok in He. destruct He as [Hn ->].
  unfold bind, log, get, modify, ret in H. cbn [focus calls uniforms choices] in H.
  inversion H; subst. exists o. cbn [focus calls uniforms]. repeat split; auto.
Qed.

Lemma apply_boolean_run (other : BlenderObject) (op : BooleanOperation)
    (w : World BlenderObject) :
  apply_boolean E other op w
  = Ok tt (mkWorld (with_data (boolean_modifier E op (data (focus w)) (data other))
                              (focus w))
                   (calls w ++ [object_modifier_boolean op (data other)])
                   (uniforms w) (choices w)).
Proof. reflexivity. Qed.

Lemma nth_error_at1 (pre l2 : list BlenderObject) (a a' o : BlenderObject) :
  nth_error (pre ++ a :: o :: l2) (List.length (pre ++ [a'])) = Some o.
Proof.
  replace (List.length (pre ++ [a'])) with (List.length (pre ++ [a]))
    by (rewrite !length_app; reflexivity).
  replace (pre ++ a :: o :: l2) with ((pre ++ [a]) ++ o :: l2)
    by (rewrite <- app_assoc; reflexivity).
  apply nth_error_at.
Qed.

Lemma store_at1 (pre l2 : list BlenderObject) (a a' o o' : BlenderObject) :
  store (List.length (pre ++ [a'])) o' (pre ++ a :: o :: l2) = pre ++ a :: o' :: l2.
Proof.
  replace (List.length (pre ++ [a'])) with (List.length (pre ++ [a]))
    by (rewrite !length_app; reflexivity).
  replace (pre ++ a :: o :: l2) with ((pre ++ [a]) ++ o :: l2)
    by (rewrite <- app_assoc; reflexivity).
  rewrite store_at. rewrite <- app_assoc. reflexivity.
Qed.

Lemma nth_error_at2 (pre l2 : list BlenderObject) (a a' b b' o : BlenderObject) :
  nth_error (pre ++ a :: b :: o :: l2) (List.length (pre ++ [a'; b'])) = Some o.
Proof.
  replace (List.length (pre ++ [a'; b'])) with (List.length (pre ++ [a; b]))
    by (rewrite !length_app; reflexivity).
  replace (pre ++ a :: b :: o :: l2) with ((pre ++ [a; b]) ++ o :: l2)
    by (rewrite <- app_assoc; reflexivity).
  apply nth_error_at.
Qed.

Lemma diameter_some_vertices (o : BlenderObject) (d : R) :
  diameter_of o = Some d -> vertices (data o) <> [].
Proof.
  unfold diameter_of. intros H Hnil. rewrite Hnil in H. discriminate.
Qed.

End SceneSteps.

Section CoreShell.
Variable E : Engine.
Import blender scene_building.

Lemma translated_diameter (v : Vector) (o : BlenderObject) :
  transform_is_identity o -> vertices (data o) <> [] ->
  diameter_of (translated E v o) = diameter_of o.
Proof.
  intros Hid Hne.
  destruct (translation_spec E v (mkWorld o [] [] []) Hid Hne) as (w' & Hrun & _ & _ & _ & Hd).
  rewrite translate_run in Hrun. inversion Hrun; subst w'. exact Hd.
Qed.

Lemma scaled_to_fraction (f d c : R) :
  0 < f -> 0 <= d -> 0 <= c -> c <> 0 -> Rabs (f * d / c) * c = f * d.
Proof.
  intros Hf Hd Hc Hne. destruct (Req_dec_T d 0) as [-> | Hd0].
  - replace (f * 0 / c) with 0 by (field; exact Hne). rewrite Rabs_R0. ring.
  - apply Rabs_quotient; [nra | exact Hc | exact Hne].
Qed.

Ltac at_shell N F o :=
  rewrite nth_error_at in N; injection N as N; subst o; rewrite store_at in F.
Ltac at_core N F o :=
  rewrite nth_error_at1 in N; injection N as N; subst o; rewrite store_at1 in F.

(** Everything [add_random_core_shell_shape] has done when it returns. *)
Lemma core_shell_facts (self : Scene) (shape_package : ShapePackage)
    (w w' : World (list BlenderObject)) (core shell : nat) :
  add_random_core_shell_shape E self shape_package w = Ok (core, shell) w' ->
  shell = List.length (focus w) /\ core = S (List.length (focus w))
  /\ exists (shell1 core1 : BlenderObject) (a b c d ks kc : R) (shift : Vector)
            (log0 : list Call),
       let rot := rotation_quaternion a b c d in
       let shell0 :=
         translated E shift (scaled E ks (transform_apply E (with_rotation rot shell1))) in
       let core0 :=
         translated E shift (scaled E kc (transform_apply E (with_rotation rot core1))) in
       a * a + b * b + c * c + d * d = 1
       /\ focus w'
          = focus w
            ++ [with_data (boolean_modifier E DIFFERENCE (data shell0) (data core0)) shell0;
                with_data (boolean_modifier E INTERSECT (data core0) (data shell0)) core0;
                core0]
       /\ calls w'
          = log0 ++ [object_duplicate;
                     object_modifier_boolean INTERSECT (data shell0);
                     object_modifier_boolean DIFFERENCE (data core0)]
       /\ ((forall cls, In cls (CORE_SHELL_SUITABLE_SHAPES shape_package) -> consumes cls) ->
           unit_draws (uniforms w) ->
           sides_at_least 0.9 (shrunk (extent self)) ->
           exists pre u dm,
             uniforms w = pre ++ u :: uniforms w'
             /\ 0 <= u < 1
             /\ diameter_of shell0 = Some dm
             /\ diameter_of core0 = Some ((0.5 + (0.9 - 0.5) * u) * dm)
             /\ 0.75 <= max3 (dimensions shell0) < 0.9
             /\ inside_box (shrunk (extent self)) shell0)
       /\ (exists (cls_s cls_c : ObjM unit)
                  (w0s ws w0c wc wr0 wr wp0 wp : World BlenderObject),
             In cls_s (CORE_SHELL_SUITABLE_SHAPES shape_package)
             /\ cls_s w0s = Ok tt ws /\ focus ws = shell1
             /\ In cls_c (CORE_SHELL_SUITABLE_SHAPES shape_package)
             /\ cls_c w0c = Ok tt wc /\ focus wc = core1
             /\ focus wr0 = shell1
             /\ apply_random_rotation E wr0 = Ok (a, b, c, d) wr
             /\ position_randomly E (shrunk (extent self)) true wp0 = Ok shift wp
             /\ focus wp = shell0).
Proof.
  intros H. unfold add_random_core_shell_shape in H.
  (* shell *)
  peel H as cls1 w1 H1. apply choice_ok in H1. destruct H1 as (Hin1 & n1 & ch1 & _ & ->).
  peel H as sh w2 H2. apply construct_ok in H2. cbn [focus calls uniforms choices] in H2.
  destruct H2 as (Hsh & ws & Hcls1 & F2 & C2 & U2 & Ch2). subst sh.
  peel H as q w3 H3. apply on_ok in H3.
  destruct H3 as (o3 & wr & N3 & Hrot & F3 & C3 & U3 & Ch3).
  rewrite F2 in N3, F3. at_shell N3 F3 o3.
  destruct q as [[[qa qb] qc] qd].
  pose proof (random_rotation_spec E _ _ _ Hrot) as Hq.
  destruct Hq as (Hunit & (q1 & q2 & q3 & q4 & E3) & _ & Hs3).
  cbn [uniforms focus] in E3, Hs3.
  assert (Hidr : transform_is_identity (focus wr))
    by (rewrite Hs3; apply transform_apply_identity).
  peel H as sf w4 H4. apply uniform_ok in H4. destruct H4 as (u4 & us4 & Hus4 & Hsf & ->).
  peel H as a5 w5 H5. apply on_ok in H5. cbn [focus calls uniforms choices] in H5.
  destruct H5 as (o5 & wsc & N5 & Hsc & F5 & C5 & U5 & Ch5).
  rewrite F3 in N5, F5. at_shell N5 F5 o5. destruct a5.
  pose proof (rescale_to_factor_focus E _ _ _ Hsc) as Hs5. cbn [focus] in Hs5.
  pose proof (rescale_to_factor_draws E _ _ _ Hsc) as E5. cbn [uniforms] in E5.
  peel H as shift w6 H6. apply on_ok in H6.
  destruct H6 as (o6 & wp & N6 & Hp & F6 & C6 & U6 & Ch6).
  rewrite F5 in N6, F6. at_shell N6 F6 o6.
  pose proof (position_randomly_focus E _ _ _ _ _ Hp) as Hs6. cbn [focus] in Hs6.
  destruct (consumes_position_randomly E _ _ _ _ _ Hp) as (usedp & E6).
  cbn [uniforms] in E6.
  (* core *)
  peel H as cls2 w7 H7. apply choice_ok in H7. destruct H7 as (Hin2 & n2 & ch2 & _ & ->).
  peel H as co w8 H8. apply construct_ok in H8. cbn [focus calls uniforms choices] in H8.
  destruct H8 as (Hco & wc & Hcls2 & F8 & C8 & U8 & Ch8).
  rewrite F6 in F8, Hco. rewrite <- app_assoc in F8. cbn [List.app] in F8. subst co.
  peel H as a9 w9 H9. apply on_ok in H9.
  destruct H9 as (o9 & wc2 & N9 & Hrt & F9 & C9 & U9 & Ch9).
  rewrite F8 in N9, F9. at_core N9 F9 o9.
  rewrite rotate_run in Hrt. cbn [focus assigned_rotation] in Hrt.
  assert (Hc9 : focus wc2
                = transform_apply E (with_rotation (rotation_quaternion qa qb qc qd)
                                                   (focus wc)))
    by (inversion Hrt; subst; reflexivity).
  assert (Hid9 : transform_is_identity (focus wc2))
    by (rewrite Hc9; apply transform_apply_identity).
  assert (Uc2 : uniforms wc2 = uniforms w8) by (inversion Hrt; subst; reflexivity).
  clear Hrt.
  peel H as csf w10 H10. apply uniform_ok in H10.
  destruct H10 as (u10 & us10 & Hus10 & Hcsf & ->).
  peel H as sd w11 H11. apply on_ok in H11. cbn [focus calls uniforms choices] in H11.
  destruct H11 as (o11 & wd & N11 & Hsd & F11 & C11 & U11 & Ch11).
  rewrite F9 in N11, F11. at_shell N11 F11 o11.
  rewrite enclosing_sphere_diameter_run in Hsd. cbn [focus] in Hsd.
  destruct (diameter_of (focus wp)) as [dm |] eqn:Hds; [| discriminate].
  injection Hsd as Hsd Hwd. subst sd wd. cbn [focus calls uniforms choices] in F11, C11, U11, Ch11.
  peel H as cd w12 H12. apply on_ok in H12.
  destruct H12 as (o12 & wd & N12 & Hcd & F12 & C12 & U12 & Ch12).
  rewrite F11 in N12, F12. at_core N12 F12 o12.
  rewrite enclosing_sphere_diameter_run in Hcd. cbn [focus] in Hcd.
  destruct (diameter_of (focus wc2)) as [dc |] eqn:Hdc; [| discriminate].
  injection Hcd as Hcd Hwd. subst cd wd. cbn [focus calls uniforms choices] in F12, C12, U12, Ch12.
  peel H as k w13 H13. apply pydiv_ok in H13. destruct H13 as (Hne & Hk & ->).
  peel H as a14 w14 H14. apply on_ok in H14.
  destruct H14 as (o14 & wsc2 & N14 & Hs2 & F14 & C14 & U14 & Ch14).
  rewrite F12 in N14, F14. at_core N14 F14 o14.
  rewrite scale_run in Hs2. injection Hs2 as Hs2. subst wsc2.
  cbn [focus calls uniforms choices] in F14, C14, U14, Ch14.
  peel H as a15 w15 H15. apply on_ok in H15.
  destruct H15 as (o15 & wt & N15 & Htr & F15 & C15 & U15 & Ch15).
  rewrite F14 in N15, F15. at_core N15 F15 o15.
  rewrite translate_run in Htr. injection Htr as Htr. subst wt.
  cbn [focus calls uniforms choices] in F15, C15, U15, Ch15.
  (* booleans *)
  peel H as cp w16 H16. apply copy_ok in H16.
  destruct H16 as (o16 & N16 & Hcp & F16 & C16 & U16).
  rewrite F15 in N16, F16, Hcp. rewrite nth_error_at1 in N16. injection N16 as N16. subst o16.
  rewrite <- app_assoc in F16. cbn [List.app] in F16. subst cp.
  peel H as other1 w17 H17. apply entity_ok in H17. destruct H17 as (N17 & ->).
  rewrite F16 in N17. rewrite nth_error_at in N17. injection N17 as N17. subst other1.
  peel H as a18 w18 H18. apply on_ok in H18.
  destruct H18 as (o18 & wb & N18 & Hb1 & F18 & C18 & U18 & Ch18).
  rewrite F16 in N18, F18. at_core N18 F18 o18.
  rewrite apply_boolean_run in Hb1. injection Hb1 as Hb1. subst wb.
  cbn [focus calls uniforms choices] in F18, C18, U18, Ch18.
  peel H as other2 w19 H19. apply entity_ok in H19. destruct H19 as (N19 & ->).
  rewrite F18 in N19. rewrite nth_error_at2 in N19. injection N19 as N19. subst other2.
  peel H as a20 w20 H20. apply on_ok in H20.
  destruct H20 as (o20 & wb & N20 & Hb2 & F20 & C20 & U20 & Ch20).
  rewrite F18 in N20, F20. at_shell N20 F20 o20.
  rewrite apply_boolean_run in Hb2. injection Hb2 as Hb2. subst wb.
  cbn [focus calls uniforms choices] in F20, C20, U20, Ch20.
  injection H as Hcore Hshell Hw. subst core shell w20.
  split; [reflexivity |]. split; [rewrite length_app; simpl; lia |].
  assert (Hshell0 : focus wp
            = translated E shift
                (scaled E
                   (sf / max3 (dimensions
                                 (transform_apply E
                                    (with_rotation (rotation_quaternion qa qb qc qd)
                                                   (focus ws)))))
                   (transform_apply E
                      (with_rotation (rotation_quaternion qa qb qc qd) (focus ws))))).
  { rewrite Hs6, Hs5, Hs3. reflexivity. }
  exists (focus ws), (focus wc), qa, qb, qc, qd,
         (sf / max3 (dimensions
                       (transform_apply E
                          (with_rotation (rotation_quaternion qa qb qc qd) (focus ws))))),
         k, shift, (calls w15).
  cbv zeta. rewrite <- Hshell0, <- Hc9.
  split; [exact Hunit |].
  split; [exact F20 |]. split.
  { rewrite C20, C18, C16. rewrite <- !app_assoc. reflexivity. }
  split.
  2:{ exists cls1, cls2. eexists. exists ws. eexists. exists wc. eexists. exists wr.
      eexists. exists wp.
      split; [exact Hin1 |]. split; [exact Hcls1 |]. split; [reflexivity |].
      split; [exact Hin2 |]. split; [exact Hcls2 |]. split; [reflexivity |].
      split; [| split; [exact Hrot |]]; [reflexivity |].
      split; [exact Hp | reflexivity]. }
  intros Hcons Hu Hsides.
  (* draws *)
  destruct (Hcons cls1 Hin1 _ _ _ Hcls1) as (used1 & E1). cbn [uniforms] in E1.
  destruct (Hcons cls2 Hin2 _ _ _ Hcls2) as (used2 & E8). cbn [uniforms] in E8.
  assert (Hall : uniforms w
                 = (used1 ++ q1 :: q2 :: q3 :: q4 :: u4 :: usedp ++ used2)
                   ++ u10 :: uniforms w').
  { rewrite E1, <- U2, E3, <- U3, Hus4.
    rewrite <- E5, <- U5, E6, <- U6, E8, <- U8, <- Uc2, <- U9, Hus10.
    rewrite U20, U18, U16, U15, U14, U12, U11.
    rewrite <- !app_assoc. cbn [List.app]. rewrite <- !app_assoc. reflexivity. }
  assert (Hu10 : 0 <= u10 < 1).
  { rewrite Hall in Hu. apply unit_draws_app in Hu. destruct Hu as [_ Hu].
    inversion Hu. assumption. }
  assert (Hu4 : 0 <= u4 < 1 /\ unit_draws (uniforms w5)).
  { rewrite E1, <- U2, E3, <- U3, Hus4 in Hu.
    apply unit_draws_app in Hu. destruct Hu as [_ Hu].
    inversion Hu as [| ? ? _ A1]. inversion A1 as [| ? ? _ A2].
    inversion A2 as [| ? ? _ A3]. inversion A3 as [| ? ? _ A4].
    inversion A4 as [| ? ? A5 A6]. split; [exact A5 |].
    rewrite U5, E5. exact A6. }
  destruct Hu4 as [Hu4 D5].
  pose proof Hsc as Hfacts.
  apply rescale_to_factor in Hfacts; [| exact Hidr | lra].
  cbn [focus uniforms] in Hfacts. destruct Hfacts as (Hmax & Hids & Hnes & _).
  assert (Hfit : fits_box (shrunk (extent self)) (focus wsc)).
  { destruct (max3_upper (dimensions (focus wsc))) as (Hx & Hy & Hz).
    rewrite Hmax in Hx, Hy, Hz. unfold sides_at_least in Hsides. unfold fits_box.
    destruct (shrunk (extent self)) as [[[[[x0 x1] y0] y1] z0] z1].
    repeat split; lra. }
  apply placement_spec in Hp; [| exact Hids | exact Hnes | exact D5 | exact Hfit].
  cbn [focus] in Hp. destruct Hp as (Hcoords & _ & Hidp & Hbox & _).
  exists (used1 ++ q1 :: q2 :: q3 :: q4 :: u4 :: usedp ++ used2), u10, dm.
  split; [exact Hall |]. split; [exact Hu10 |]. split; [exact Hds |]. split.
  - rewrite translated_diameter.
    + rewrite scaled_diameter by exact Hid9. rewrite Hdc. cbn [option_map]. f_equal.
      subst k csf. apply scaled_to_fraction.
      * lra.
      * apply (diameter_nonneg (focus wp)). exact Hds.
      * apply (diameter_nonneg (focus wc2)). exact Hdc.
      * exact Hne.
    + apply scaled_identity.
    + apply (diameter_some_vertices _ (Rabs k * dc)).
      rewrite scaled_diameter by exact Hid9. rewrite Hdc. reflexivity.
  - split; [| exact Hbox].
    rewrite (dimensions_shifted _ _ _ Hcoords), Hmax. lra.
Qed.

End CoreShell.

(** *** A core-shell pair in the default scene, on the small engine *)

Section SceneRuns.
Import blender scene_building.

Lemma on_at1 {A : Type} (m : ObjM A) (pre l2 : list BlenderObject)
    (a a' o : BlenderObject) (cs : list Call) (us : list R) (ch : list nat) :
  on (List.length (pre ++ [a'])) m (mkWorld (pre ++ a :: o :: l2) cs us ch)
  = match m (mkWorld o cs us ch) with
    | Ok x wo =>
        Ok x (mkWorld (pre ++ a :: focus wo :: l2) (calls wo) (uniforms wo) (choices wo))
    | Stop h => Stop h
    end.
Proof.
  unfold on. cbn [focus calls uniforms choices]. rewrite nth_error_at1.
  destruct (m (mkWorld o cs us ch)); [rewrite store_at1 |]; reflexivity.
Qed.

Lemma entity_at (pre l2 : list BlenderObject) (o : BlenderObject)
    (cs : list Call) (us : list R) (ch : list nat) :
  entity (List.length pre) (mkWorld (pre ++ o :: l2) cs us ch)
  = Ok o (mkWorld (pre ++ o :: l2) cs us ch).
Proof. unfold entity. cbn [focus]. rewrite nth_error_at. reflexivity. Qed.

Lemma entity_at2 (pre l2 : list BlenderObject) (a a' b b' o : BlenderObject)
    (cs : list Call) (us : list R) (ch : list nat) :
  entity (List.length (pre ++ [a'; b'])) (mkWorld (pre ++ a :: b :: o :: l2) cs us ch)
  = Ok o (mkWorld (pre ++ a :: b :: o :: l2) cs us ch).
Proof. unfold entity. cbn [focus]. rewrite nth_error_at2. reflexivity. Qed.

Lemma copy_at1 (pre : list BlenderObject) (a a' o : BlenderObject)
    (cs : list Call) (us : list R) (ch : list nat) :
  copy (List.length (pre ++ [a'])) (mkWorld (pre ++ [a; o]) cs us ch)
  = Ok (List.length (pre ++ [a; o]))
       (mkWorld (pre ++ [a; o; o]) (cs ++ [object_duplicate]) us ch).
Proof.
  unfold copy, bind, entity, log, get, modify, ret. cbn [focus calls uniforms choices].
  rewrite nth_error_at1. cbn [focus calls uniforms choices List.length].
  rewrite <- app_assoc. reflexivity.
Qed.

Lemma choice_first {X A : Type} (a : A) (tl : list A) (rest : list nat) (w : World X) :
  choices w = 0%nat :: rest ->
  choice (a :: tl) w = Ok a (mkWorld (focus w) (calls w) (uniforms w) rest).
Proof.
  intros H. unfold choice. rewrite H. rewrite Nat.Div0.mod_0_l. reflexivity.
Qed.

Lemma toy_sphere_builds (w : World BlenderObject) :
  randomized.Sphere toy.engine w
  = Ok tt (mkWorld toy_sphere
             (calls w ++ [primitive_ico_sphere_add 5 0.5;
                          object_transform_apply (vec 0 0 0) identity_rotation
                            (vec 1.0 1.0 1.0)])
             (uniforms w) (choices w)).
Proof. unfold randomized.Sphere, fcc.Sphere. rewrite Ellipsoid_run. reflexivity. Qed.

Lemma toy_sphere_diameter (r : Rotation) :
  exists c,
    diameter_of (transform_apply toy.engine (with_rotation r toy_sphere)) = Some c
    /\ 0 < c.
Proof.
  eapply diameter_positive.
  - unfold toy_sphere, toy.ico_sphere, toy.vertex.
    cbn [transform_apply map_co data vertices map with_rotation with_scale
         new_object In].
    right. left. reflexivity.
  - unfold toy_sphere, toy.ico_sphere, toy.vertex.
    cbn [transform_apply map_co data vertices map with_rotation with_scale
         new_object In].
    do 3 right. left. reflexivity.
  - cbn [co vx vy vz vadd vmul ob_location ob_rotation ob_scale toy.engine rotate_vector
         with_rotation with_scale new_object transform_apply select].
    lra.
Qed.

Lemma transform_apply_vertices (E : Engine) (o : BlenderObject) :
  vertices (data o) <> [] -> vertices (data (transform_apply E o)) <> [].
Proof.
  intros H Hn. apply H. unfold transform_apply, map_co in Hn. cbn [data vertices] in Hn.
  apply map_eq_nil in Hn. exact Hn.
Qed.

Lemma diameter_exists (o : BlenderObject) :
  vertices (data o) <> [] -> exists d, diameter_of o = Some d.
Proof.
  intros H. unfold diameter_of. destruct (vertices (data o)) as [| v vs]; [contradiction |].
  cbn [map]. eexists. reflexivity.
Qed.

Lemma core_shell_draws_unit : unit_draws core_shell_draws.
Proof. unfold core_shell_draws. repeat constructor; lra. Qed.

Lemma toy_core_shell_run :
  exists w',
    add_random_core_shell_shape toy.engine default_scene (randomized.package toy.engine)
      (toy.start empty_scene core_shell_draws [0%nat; 0%nat])
    = Ok (1%nat, 0%nat) w'.
Proof.
  unfold add_random_core_shell_shape.
  cbn [CORE_SHELL_SUITABLE_SHAPES randomized.package].
  unfold toy.start, core_shell_draws.
  pose proof default_scene_sides as Hsides.
  destruct (shrunk (extent default_scene)) as [[[[[x0 x1] y0] y1] z0] z1].
  cbn in Hsides.
  (* shell *)
  erewrite bind_run by (apply choice_first; reflexivity).
  cbn [focus calls uniforms choices].
  erewrite bind_run.
  2:{ rewrite construct_run. cbn [focus calls uniforms choices].
      rewrite toy_sphere_builds. reflexivity. }
  cbn [focus calls uniforms choices].
  match goal with
  | |- context [mkWorld (empty_scene ++ [toy_sphere]) ?cs ?us ?chs] =>
      pose proof (apply_random_rotation_run toy.engine (mkWorld toy_sphere cs us chs)
                    (1 / 2) (1 / 2) (1 / 2) (1 / 2) [0; 1 / 2; 1 / 2; 1 / 2; 1 / 2]
                    eq_refl) as Hrot
  end.
  cbv zeta in Hrot.
  specialize (Hrot (quaternion_norm_nonzero (1 / 2) (1 / 2) (1 / 2) (1 / 2)
                      ltac:(lra) ltac:(lra) ltac:(lra) ltac:(lra) ltac:(lra))).
  erewrite bind_run.
  2:{ rewrite on_at. rewrite Hrot. reflexivity. }
  clear Hrot. cbn [focus calls uniforms choices].
  erewrite bind_run by (apply uniform_run; reflexivity).
  cbn [focus calls uniforms choices].
  match goal with
  | |- context [mkWorld (empty_scene ++ [?o]) ?cs ?us ?chs] =>
      set (s3 := o); set (cs3 := cs);
      pose proof (rescale_run toy.engine (0.75 + (0.9 - 0.75) * 0) (mkWorld s3 cs3 us chs)
                    (toy_sphere_extent _)) as Hsc
  end.
  assert (Hid3 : transform_is_identity s3) by apply transform_apply_identity.
  pose proof Hsc as Hfacts.
  apply rescale_to_factor in Hfacts; [| exact Hid3 | lra].
  cbn [focus uniforms] in Hfacts. destruct Hfacts as (Hmax & Hid5 & Hne5 & _).
  erewrite bind_run.
  2:{ rewrite on_at. rewrite Hsc. reflexivity. }
  clear Hsc. cbn [focus calls uniforms choices].
  match goal with
  | |- context [mkWorld (empty_scene ++ [?o]) ?cs ?us ?chs] =>
      set (s5 := o) in *; set (cs5 := cs)
  end.
  assert (Hfit : fits_box (x0, x1, y0, y1, z0, z1) s5).
  { destruct (max3_upper (dimensions s5)) as (Hx & Hy & Hz).
    rewrite Hmax in Hx, Hy, Hz. unfold fits_box. repeat split; lra. }
  assert (Hr : 0 < Rmax (y1 - y0) (z1 - z0)).
  { pose proof (Rmax_l (y1 - y0) (z1 - z0)). lra. }
  erewrite bind_run.
  2:{ rewrite on_at.
      rewrite (first_candidate_accepted toy.engine x0 x1 y0 y1 z0 z1 true
                 (mkWorld s5 cs5 [1 / 2; 1 / 2; 1 / 2; 1 / 2] [0%nat])
                 (1 / 2) (1 / 2) (1 / 2) [1 / 2]
                 Hid5 Hne5 Hfit Hr eq_refl ltac:(lra) ltac:(lra) ltac:(lra)).
      reflexivity. }
  cbn [focus calls uniforms choices].
  match goal with
  | |- context [mkWorld (empty_scene ++ [?o]) ?cs ?us ?chs] =>
      set (s6 := o) in *; set (cs6 := cs);
      match o with translated _ ?sh _ => set (shift := sh) in * end
  end.
  assert (Hne6 : vertices (data s6) <> []) by (apply transform_apply_vertices; exact Hne5).
  destruct (diameter_exists s6 Hne6) as (d & Hds).
  (* core *)
  erewrite bind_run by (apply choice_first; reflexivity).
  cbn [focus calls uniforms choices].
  erewrite bind_run.
  2:{ rewrite construct_run. cbn [focus calls uniforms choices].
      rewrite toy_sphere_builds. reflexivity. }
  cbn [focus calls uniforms choices]. rewrite <- app_assoc. cbn [List.app].
  erewrite bind_run.
  2:{ rewrite on_at1. rewrite rotate_run. reflexivity. }
  cbn [focus calls uniforms choices].
  match goal with
  | |- context [mkWorld (empty_scene ++ [s6; ?o]) ?cs ?us ?chs] =>
      set (c9 := o); set (cs9 := cs)
  end.
  destruct (toy_sphere_diameter
              (assigned_rotation None
                 (Some ((0 + (1 - 0) * (1 / 2))
                        / sqrt ((0 + (1 - 0) * (1 / 2)) * (0 + (1 - 0) * (1 / 2))
                                + (0 + (1 - 0) * (1 / 2)) * (0 + (1 - 0) * (1 / 2))
                                + (0 + (1 - 0) * (1 / 2)) * (0 + (1 - 0) * (1 / 2))
                                + (0 + (1 - 0) * (1 / 2)) * (0 + (1 - 0) * (1 / 2))),
                        (0 + (1 - 0) * (1 / 2))
                        / sqrt ((0 + (1 - 0) * (1 / 2)) * (0 + (1 - 0) * (1 / 2))
                                + (0 + (1 - 0) * (1 / 2)) * (0 + (1 - 0) * (1 / 2))
                                + (0 + (1 - 0) * (1 / 2)) * (0 + (1 - 0) * (1 / 2))
                                + (0 + (1 - 0) * (1 / 2)) * (0 + (1 - 0) * (1 / 2))),
                        (0 + (1 - 0) * (1 / 2))
                        / sqrt ((0 + (1 - 0) * (1 / 2)) * (0 + (1 - 0) * (1 / 2))
                                + (0 + (1 - 0) * (1 / 2)) * (0 + (1 - 0) * (1 / 2))
                                + (0 + (1 - 0) * (1 / 2)) * (0 + (1 - 0) * (1 / 2))
                                + (0 + (1 - 0) * (1 / 2)) * (0 + (1 - 0) * (1 / 2))),
                        (0 + (1 - 0) * (1 / 2))
                        / sqrt ((0 + (1 - 0) * (1 / 2)) * (0 + (1 - 0) * (1 / 2))
                                + (0 + (1 - 0) * (1 / 2)) * (0 + (1 - 0) * (1 / 2))
                                + (0 + (1 - 0) * (1 / 2)) * (0 + (1 - 0) * (1 / 2))
                                + (0 + (1 - 0) * (1 / 2)) * (0 + (1 - 0) * (1 / 2)))))
                 (ob_rotation toy_sphere))) as (c & Hdc & Hc).
  fold c9 in Hdc.
  erewrite bind_run by (apply uniform_run; reflexivity).
  cbn [focus calls uniforms choices].
  erewrite bind_run.
  2:{ rewrite on_at. rewrite enclosing_sphere_diameter_run. cbn [focus]. rewrite Hds.
      reflexivity. }
  cbn [focus calls uniforms choices].
  erewrite bind_run.
  2:{ rewrite on_at1. rewrite enclosing_sphere_diameter_run. cbn [focus]. rewrite Hdc.
      reflexivity. }
  cbn [focus calls uniforms choices].
  erewrite bind_run by (apply pydiv_run; lra).
  erewrite bind_run.
  2:{ rewrite on_at1. rewrite scale_run. reflexivity. }
  cbn [focus calls uniforms choices].
  erewrite bind_run.
  2:{ rewrite on_at1. rewrite translate_run. reflexivity. }
  cbn [focus calls uniforms choices].
  (* booleans *)
  erewrite bind_run by apply copy_at1.
  erewrite bind_run by apply entity_at.
  erewrite bind_run.
  2:{ rewrite on_at1. rewrite apply_boolean_run. reflexivity. }
  cbn [focus calls uniforms choices].
  erewrite bind_run by apply entity_at2.
  erewrite bind_run.
  2:{ rewrite on_at. rewrite apply_boolean_run. reflexivity. }
  eexists. reflexivity.
Qed.

End SceneRuns.

Section CoreShellTheorems.
Variable E : Engine.
Import blender scene_building.

(** [add_random_core_shell_shape], when it returns: it has added three
    entities to the scene, not two.  The shell comes first, the core second,
    and the duplicate of the core that was made before any cut stays in the
    scene as a third entity ([del] only unbinds the local name).  The last
    three operator calls are the duplication, the intersection of the core
    with the uncut shell and the difference of the shell with the uncut
    duplicate, in this order.  Entities that were in the scene before are
    untouched. *)
Theorem core_shell_booleans (self : Scene) (shape_package : ShapePackage)
    (w w' : World (list BlenderObject)) (core shell : nat) :
  add_random_core_shell_shape E self shape_package w = Ok (core, shell) w' ->
  shell = List.length (focus w) /\ core = S (List.length (focus w))
  /\ exists shell0 core0 log0,
       focus w'
       = focus w
         ++ [with_data (boolean_modifier E DIFFERENCE (data shell0) (data core0)) shell0;
             with_data (boolean_modifier E INTERSECT (data core0) (data shell0)) core0;
             core0]
       /\ calls w'
          = log0 ++ [object_duplicate;
                     object_modifier_boolean INTERSECT (data shell0);
                     object_modifier_boolean DIFFERENCE (data core0)].
Proof.
  intros H. destruct (core_shell_facts E self shape_package w w' core shell H)
    as (Hs & Hc & shell1 & core1 & a & b & c & d & ks & kc & shift & log0 & Hfacts).
  cbv zeta in Hfacts. destruct Hfacts as (_ & Hf & Hl & _).
  split; [exact Hs |]. split; [exact Hc |].
  eexists. eexists. exists log0. split; [exact Hf | exact Hl].
Qed.

(** [add_random_core_shell_shape], sizes: with draws in [[0, 1)], a package
    whose constructors only consume draws and an extent whose shrunk sides
    are at least 0.9, the uncut core's enclosing-sphere diameter is the
    drawn [core_scale_factor] times the uncut shell's, where the factor is
    [0.5 + (0.9 - 0.5) * u] for the last draw [u] the call consumes, so it
    lies in [[0.5, 0.9)]; the uncut shell's largest dimension is in
    [[0.75, 0.9)] and its bounding box lies inside the shrunk extent. *)
Theorem core_shell_sizes (self : Scene) (shape_package : ShapePackage)
    (w w' : World (list BlenderObject)) (core shell : nat) :
  (forall cls, In cls (CORE_SHELL_SUITABLE_SHAPES shape_package) -> consumes cls) ->
  unit_draws (uniforms w) ->
  sides_at_least 0.9 (shrunk (extent self)) ->
  add_random_core_shell_shape E self shape_package w = Ok (core, shell) w' ->
  exists shell0 core0 pre u d,
    focus w'
    = focus w
      ++ [with_data (boolean_modifier E DIFFERENCE (data shell0) (data core0)) shell0;
          with_data (boolean_modifier E INTERSECT (data core0) (data shell0)) core0;
          core0]
    /\ uniforms w = pre ++ u :: uniforms w'
    /\ 0 <= u < 1
    /\ diameter_of shell0 = Some d
    /\ diameter_of core0 = Some ((0.5 + (0.9 - 0.5) * u) * d)
    /\ 0.75 <= max3 (dimensions shell0) < 0.9
    /\ inside_box (shrunk (extent self)) shell0.
Proof.
  intros Hk Hu Hsides H.
  destruct (core_shell_facts E self shape_package w w' core shell H)
    as (_ & _ & shell1 & core1 & a & b & c & d & ks & kc & shift & log0 & Hfacts).
  cbv zeta in Hfacts. destruct Hfacts as (_ & Hf & _ & Hsz & _).
  destruct (Hsz Hk Hu Hsides) as (pre & u & dm & Hall & Hu1 & Hd & Hc & Hm & Hb).
  eexists. eexists. exists pre, u, dm.
  split; [exact Hf |]. split; [exact Hall |]. split; [exact Hu1 |].
  split; [exact Hd |]. split; [exact Hc |]. split; [exact Hm | exact Hb].
Qed.

End CoreShellTheorems.

Lemma core_shell_booleans_witness :
  exists w' shell0 core0 log0,
    scene_building.add_random_core_shell_shape toy.engine default_scene
      (randomized.package toy.engine)
      (toy.start empty_scene core_shell_draws [0%nat; 0%nat])
    = Ok (1%nat, 0%nat) w'
    /\ focus w'
       = [with_data (boolean_modifier toy.engine DIFFERENCE (data shell0) (data core0))
                    shell0;
          with_data (boolean_modifier toy.engine INTERSECT (data core0) (data shell0))
                    core0;
          core0]
    /\ calls w'
       = log0 ++ [object_duplicate;
                  object_modifier_boolean INTERSECT (data shell0);
                  object_modifier_boolean DIFFERENCE (data core0)].
Proof.
  destruct toy_core_shell_run as (w' & Hrun).
  destruct (core_shell_booleans toy.engine default_scene (randomized.package toy.engine)
              (toy.start empty_scene core_shell_draws [0%nat; 0%nat]) w' 1%nat 0%nat Hrun)
    as (_ & _ & shell0 & core0 & log0 & Hf & Hl).
  exists w', shell0, core0, log0. split; [exact Hrun |]. split; [exact Hf | exact Hl].
Defined.

Lemma core_shell_sizes_witness :
  exists w' shell0 core0 pre u d,
    scene_building.add_random_core_shell_shape toy.engine default_scene
      (randomized.package toy.engine)
      (toy.start empty_scene core_shell_draws [0%nat; 0%nat])
    = Ok (1%nat, 0%nat) w'
    /\ core_shell_draws = pre ++ u :: uniforms w'
    /\ diameter_of shell0 = Some d
    /\ diameter_of core0 = Some ((0.5 + (0.9 - 0.5) * u) * d).
Proof.
  destruct toy_core_shell_run as (w' & Hrun).
  destruct (core_shell_sizes toy.engine default_scene (randomized.package toy.engine)
              (toy.start empty_scene core_shell_draws [0%nat; 0%nat]) w' 1%nat 0%nat
              (randomized_core_shell_consumes toy.engine)
              core_shell_draws_unit default_scene_sides Hrun)
    as (shell0 & core0 & pre & u & d & _ & Hall & _ & Hd & Hc & _).
  exists w', shell0, core0, pre, u, d.
  split; [exact Hrun |]. split; [exact Hall |]. split; [exact Hd | exact Hc].
Defined.

(** ** Randomized shapes *)

Section Randomized.
Variable E : Engine.
Import blender.

(** Every constructor of [shapes/randomized/fcc.py] whose family is rescaled:
    whenever it returns without having divided by zero, the shape has
    nominal size exactly 1.0 in the metric of its family, whatever
    parameters it drew.  On a zero planar diagonal the constructors of
    Triangle, TruncatedTriangle, Square, Hexagon and Decahedron scale by inf
    in the source and return a shape that is not finite, a run the model
    ends with [non_finite], so the theorem says nothing of it. *)
Theorem randomized_unit_size (f : families.Family) (w w' : World BlenderObject) :
  randomized_builder E f w = Ok tt w' ->
  families.size_metric f (focus w') = Some 1.0.
Proof.
  assert (H1 : 0 < 1.0) by lra.
  intros H. destruct f; unfold randomized_builder in H.
  - unfold randomized.Cube in H. cbv zeta in H. peel H as sd w1 Hd.
    exact (metric_Cube E 1.0 (families.mkParameters 0 0 sd 0 0 0) w1 w' H1 H).
  - unfold randomized.Octahedron in H. cbv zeta in H. peel H as sd w1 Hd.
    exact (metric_Octahedron E 1.0 (families.mkParameters 0 0 sd 0 0 0) w1 w' H1 H).
  - unfold randomized.TruncatedOctahedron in H. cbv zeta in H.
    peel H as t w1 Hd. peel H as sd w2 Hd2.
    exact (metric_TruncatedOctahedron E 1.0 (families.mkParameters 0 t sd 0 0 0) w2 w'
             H1 H).
  - unfold randomized.Icosahedron in H. cbv zeta in H. peel H as sd w1 Hd.
    exact (metric_Icosahedron E 1.0 (families.mkParameters 0 0 sd 0 0 0) w1 w' H1 H).
  - unfold randomized.Triangle in H. cbv zeta in H.
    peel H as h w1 Hd. peel H as ts w2 Hd2. peel H as es w3 Hd3.
    exact (metric_Triangle E 1.0 (families.mkParameters h 0 0 ts es 0) w3 w' H1 H).
  - unfold randomized.TruncatedTriangle in H. cbv zeta in H.
    peel H as h w1 Hd. peel H as t w2 Hd2. peel H as ts w3 Hd3. peel H as es w4 Hd4.
    exact (metric_TruncatedTriangle E 1.0 (families.mkParameters h t 0 ts es 0) w4 w'
             H1 H).
  - unfold randomized.Square in H. cbv zeta in H.
    peel H as h w1 Hd. cbv zeta in H. peel H as ts w2 Hd2. peel H as es w3 Hd3.
    exact (metric_Square E 1.0 (families.mkParameters h 0.0 0 ts es 0) w3 w' H1 H).
  - unfold randomized.Hexagon in H. cbv zeta in H.
    peel H as h w1 Hd. cbv zeta in H. peel H as ts w2 Hd2. peel H as es w3 Hd3.
    exact (metric_Hexagon E 1.0 (families.mkParameters h 0.0 0 ts es 0) w3 w' H1 H).
  - unfold randomized.Decahedron in H. cbv zeta in H. peel H as sd w1 Hd.
    exact (metric_Decahedron E 1.0 (families.mkParameters 0 0 sd 0 0 0) w1 w' H1 H).
  - unfold randomized.Bipyramid in H. cbv zeta in H. peel H as sd w1 Hd.
    exact (metric_Bipyramid E 1.0 (families.mkParameters 0 0 sd 0 0 sd) w1 w' H1 H).
Qed.

End Randomized.

Lemma toy_box_extent :
  max3 (blender.dimensions
          (blender.transform_apply toy.engine
             (with_scale (vec 1.0 1.0 1.0) (new_object (toy.cube 1)))))
  <> 0.
Proof.
  apply Rgt_not_eq, Rlt_gt.
  eapply max3_positive.
  - unfold toy.cube, toy.vertex.
    cbn [blender.transform_apply map_co data vertices map with_scale new_object In].
    left. reflexivity.
  - unfold toy.cube, toy.vertex.
    cbn [blender.transform_apply map_co data vertices map with_scale new_object In].
    do 4 right. left. reflexivity.
  - cbn [co vx vy vz vadd vmul ob_location ob_rotation ob_scale toy.engine rotate_vector
         with_scale new_object blender.transform_apply select].
    lra.
Qed.

Lemma toy_random_cube_run :
  exists w',
    randomized_builder toy.engine families.Cube (toy.start toy.nothing [0] []) = Ok tt w'.
Proof.
  unfold randomized_builder, randomized.Cube. cbv zeta.
  erewrite bind_run by (apply uniform_run; reflexivity).
  rewrite Cube_eq. unfold basic.Box.
  erewrite bind_run.
  2:{ rewrite (bind_run _ _ _ _ _ (primitive_add_run _ _ _)).
      apply scale_vector_run. }
  cbn [focus calls uniforms choices toy.start toy.engine cube].
  erewrite bind_run.
  2:{ apply smooth_edges_skip. cbn [focus]. unfold BLENDER_EPS. lra. }
  eexists. apply rescale_run. cbn [focus]. exact toy_box_extent.
Qed.

Lemma randomized_unit_size_witness :
  exists w',
    randomized_builder toy.engine families.Cube (toy.start toy.nothing [0] []) = Ok tt w'
    /\ max3 (blender.dimensions (focus w')) = 1.0.
Proof.
  destruct toy_random_cube_run as (w' & Hrun).
  exists w'. split; [exact Hrun |].
  pose proof (randomized_unit_size toy.engine families.Cube _ w' Hrun) as H.
  cbn [families.size_metric] in H. congruence.
Defined.

(** ** The bipyramid *)

Section BipyramidRecipe.
Variable E : Engine.
Import blender.

Lemma coords_selecting (f : MeshVertex -> bool) (m : Mesh) :
  coords (selecting f m) = coords m.
Proof.
  unfold coords, selecting. cbn [vertices]. rewrite map_map.
  apply map_ext. intros v. destruct (f _); reflexivity.
Qed.

Lemma selected_edges_selecting (f : MeshVertex -> bool) (m : Mesh) :
  selected_edges (selecting f m) = [].
Proof.
  unfold selected_edges, selecting, indices_where. cbn [edges].
  rewrite indices_from_map. apply indices_from_none. reflexivity.
Qed.

Lemma basic_Bipyramid_eq (n : nat) (d h t : R) :
  basic.Bipyramid E n d h t
  = (ops.primitive_add (primitive_circle_add n (d / 2)) (circle E n (d / 2)) ;;
     modify (fun o => with_data (mesh_select_all true (data o)) o) ;;
     ops.extrude_region_move E (vec 0 0 (h / 2)) ;;
     ops.transform_resize E (vec 0 0 0) ;;
     select_vertices (fun v => ltb (vz (co v)) BLENDER_EPS) ;;
     ops.extrude_region_move E (vec 0 0 (- h / 2)) ;;
     ops.transform_resize E (vec 0 0 0) ;;
     remove_duplicate_vertices E ;;
     if ltb 0 t then
       select_vertices basic.is_vertex_out_of_plane ;;
       o <- get ;;
       if ltb (t * max3 (dimensions o)) BLENDER_EPS then ret tt
       else
         ops.mesh_bevel E (tip_bevel (t * max3 (dimensions o))) ;;
         remove_duplicate_vertices E
     else ret tt).
Proof. reflexivity. Qed.

Lemma modify_run {X : Type} (f : X -> X) (w : World X) :
  modify f w = Ok tt (mkWorld (f (focus w)) (calls w) (uniforms w) (choices w)).
Proof. reflexivity. Qed.

(** The bipyramid before the tips are looked at, and what follows. *)
Lemma bipyramid_body (n : nat) (d h : R) (k : ObjM unit) (w : World BlenderObject) :
  (ops.primitive_add (primitive_circle_add n (d / 2)) (circle E n (d / 2)) ;;
   modify (fun o => with_data (mesh_select_all true (data o)) o) ;;
   ops.extrude_region_move E (vec 0 0 (h / 2)) ;;
   ops.transform_resize E (vec 0 0 0) ;;
   select_vertices (fun v => ltb (vz (co v)) BLENDER_EPS) ;;
   ops.extrude_region_move E (vec 0 0 (- h / 2)) ;;
   ops.transform_resize E (vec 0 0 0) ;;
   remove_duplicate_vertices E ;;
   k) w
  = k (mkWorld (new_object (bipyramid_mesh E n d h))
               (calls w ++ bipyramid_calls E n d h) (uniforms w) (choices w)).
Proof.
  rewrite (bind_run _ _ _ _ _ (primitive_add_run _ _ _)).
  rewrite (bind_run _ _ _ _ _ (modify_run _ _)). norm.
  rewrite (bind_run _ _ _ _ _ (extrude_region_move_run E _ _)). norm.
  rewrite (bind_run _ _ _ _ _ (transform_resize_run E _ _)). norm.
  rewrite (bind_run _ _ _ _ _ (select_vertices_selecting _ _)). norm.
  rewrite (bind_run _ _ _ _ _ (extrude_region_move_run E _ _)). norm.
  rewrite (bind_run _ _ _ _ _ (transform_resize_run E _ _)). norm.
  rewrite (bind_run _ _ _ _ _ (remove_duplicate_vertices_run E _)). norm.
  unfold bipyramid_calls, bipyramid_mesh, bipyramid_lower_selection, bipyramid_upper,
    welded.
  rewrite <- !app_assoc. reflexivity.
Qed.

Lemma bipyramid_tips (n : nat) (d h t : R) (w : World BlenderObject) :
  let o := new_object (bipyramid_mesh E n d h) in
  let width := t * max3 (dimensions o) in
  exists w',
    basic.Bipyramid E n d h t w = Ok tt w'
    /\ (((t <= 0 \/ width < BLENDER_EPS)
         /\ calls w' = calls w ++ bipyramid_calls E n d h
         /\ coords (data (focus w')) = coords (bipyramid_mesh E n d h))
        \/ (0 < t /\ BLENDER_EPS <= width
            /\ calls w'
               = calls w ++ bipyramid_calls E n d h
                 ++ [mesh_bevel
                       (indices_where
                          (fun v => basic.is_vertex_out_of_plane (mkVertex (co v) false))
                          (vertices (bipyramid_mesh E n d h)))
                       [] (tip_bevel width);
                     mesh_remove_doubles]
            /\ data (focus w')
               = welded E (bevel E (tip_bevel width)
                             (selecting basic.is_vertex_out_of_plane
                                        (bipyramid_mesh E n d h))))).
Proof.
  intros o width. rewrite basic_Bipyramid_eq.
  rewrite bipyramid_body. fold o.
  destruct (Rlt_dec 0 t) as [Ht | Ht].
  - rewrite (ltb_true 0 t Ht).
    rewrite (bind_run _ _ _ _ _ (select_vertices_selecting _ _)). norm.
    rewrite (bind_run _ _ _ _ _ (get_run _)). norm.
    assert (Hdim : dimensions (with_data (selecting basic.is_vertex_out_of_plane (data o)) o)
                   = dimensions o).
    { apply dimensions_of_coords. cbn [data with_data]. apply coords_selecting. }
    rewrite Hdim. fold width.
    destruct (Rlt_dec width BLENDER_EPS) as [Hw | Hw].
    + rewrite (ltb_true _ _ Hw). eexists. split; [reflexivity |]. left.
      cbn [focus calls data with_data]. split; [right; exact Hw |].
      split; [reflexivity |]. apply coords_selecting.
    + rewrite (ltb_false _ _ Hw).
      rewrite (bind_run _ _ _ _ _ (mesh_bevel_run E _ _)). norm.
      rewrite remove_duplicate_vertices_run. norm.
      eexists. split; [reflexivity |]. right.
      cbn [focus calls data with_data new_object].
      split; [exact Ht |]. split; [lra |]. split.
      * unfold o. cbn [data new_object].
        rewrite selected_vertices_selecting, selected_edges_selecting.
        rewrite <- !app_assoc. reflexivity.
      * reflexivity.
  - rewrite (ltb_false 0 t Ht). eexists. split; [reflexivity |]. left.
    cbn [focus calls data new_object]. split; [left; lra |]. split; reflexivity.
Qed.

(** [basic.Bipyramid] always returns.  It first builds the welded bipyramid
    with six operator calls.  The tips are then bevelled, with the vertices
    off the base plane selected and no edge selected, exactly when
    [tips_truncation_degree > 0] and the width
    [tips_truncation_degree * max(dimensions)] is at least [BLENDER_EPS];
    otherwise the vertex coordinates are those of the welded bipyramid. *)
Theorem basic_Bipyramid_tips (n : nat) (d h t : R) (w : World BlenderObject) :
  let o := new_object (bipyramid_mesh E n d h) in
  let width := t * max3 (dimensions o) in
  exists w',
    basic.Bipyramid E n d h t w = Ok tt w'
    /\ (((t <= 0 \/ width < BLENDER_EPS)
         /\ calls w' = calls w ++ bipyramid_calls E n d h
         /\ coords (data (focus w')) = coords (bipyramid_mesh E n d h))
        \/ (0 < t /\ BLENDER_EPS <= width
            /\ calls w'
               = calls w ++ bipyramid_calls E n d h
                 ++ [mesh_bevel
                       (indices_where
                          (fun v => basic.is_vertex_out_of_plane (mkVertex (co v) false))
                          (vertices (bipyramid_mesh E n d h)))
                       [] (tip_bevel width);
                     mesh_remove_doubles]
            /\ data (focus w')
               = welded E (bevel E (tip_bevel width)
                             (selecting basic.is_vertex_out_of_plane
                                        (bipyramid_mesh E n d h))))).
Proof. exact (bipyramid_tips n d h t w). Qed.

End BipyramidRecipe.

(** ** Recipes: truncation, the guards against small widths, zero degrees *)

Section RecipeProperties.
Variable E : Engine.
Import blender.

Lemma bind_cong_run {X A B : Type} (c1 c2 : M X A) (k1 k2 : A -> M X B) (w : World X) :
  c1 w = c2 w -> (forall a w', k1 a w' = k2 a w') ->
  bind c1 k1 w = bind c2 k2 w.
Proof.
  intros Hc Hk. unfold bind. rewrite Hc. destruct (c2 w); [apply Hk | reflexivity].
Qed.

Lemma smooth_edges_zero (n : nat) (w : World BlenderObject) :
  smooth_edges E 0 n w = Ok tt w.
Proof. apply smooth_edges_skip. rewrite Rmult_0_l. unfold BLENDER_EPS. lra. Qed.

Lemma skip_smoothing {B : Type} (n : nat) (k : ObjM B) (w : World BlenderObject) :
  (smooth_edges E 0 n ;; k) w = k w.
Proof. rewrite (bind_run _ _ _ _ _ (smooth_edges_zero n w)). reflexivity. Qed.

Lemma basic_Octahedron_zero (size : R) (w : World BlenderObject) :
  basic.Octahedron E size 0 w = base.Octahedron E size w.
Proof.
  unfold basic.Octahedron, base.Octahedron, base.rescale_diameter.
  rewrite (ltb_false 0 0) by lra. reflexivity.
Qed.

Lemma basic_Prism_zero (n : nat) (size h : R) (segs : nat) (w : World BlenderObject) :
  basic.Prism E n size h 0 0 0 segs w = base.Prism E n size h w.
Proof.
  unfold basic.Prism, base.Prism, base.rescale_diagonal.
  rewrite (ltb_false 0 0) by lra. reflexivity.
Qed.

Lemma basic_Bipyramid_zero (n : nat) (d h : R) (w : World BlenderObject) :
  basic.Bipyramid E n d h 0 w = base.Bipyramid E n d h w.
Proof.
  unfold basic.Bipyramid, base.Bipyramid.
  rewrite (ltb_false 0 0) by lra.
  repeat (apply bind_cong_run; [reflexivity | intros]).
  unfold bind, ret. destruct (remove_duplicate_vertices E w') as [[] w1 |]; reflexivity.
Qed.

Lemma builder_zero (f : families.Family) (s h : R) (w : World BlenderObject) :
  families.builder E f s (families.mkParameters h 0 0 0 0 0) w = base.builder E f s h w.
Proof.
  destruct f; unfold families.builder, base.builder;
    cbn [families.height families.truncation_degree families.smoothing_degree
         families.tips_smoothing_degree families.edges_smoothing_degree
         families.tips_truncation_degree].
  - unfold fcc.Cube. apply bind_cong_run; [reflexivity | intros].
    apply skip_smoothing.
  - unfold fcc.Octahedron. apply bind_cong_run; [apply basic_Octahedron_zero | intros].
    apply skip_smoothing.
  - unfold fcc.TruncatedOctahedron.
    apply bind_cong_run; [apply basic_Octahedron_zero | intros]. apply skip_smoothing.
  - unfold fcc.Icosahedron. apply bind_cong_run; [reflexivity | intros].
    apply skip_smoothing.
  - unfold fcc.Triangle. cbv zeta.
    apply bind_cong_run; [apply basic_Prism_zero | reflexivity].
  - unfold fcc.TruncatedTriangle. cbv zeta. apply basic_Prism_zero.
  - unfold fcc.Square. cbv zeta. apply basic_Prism_zero.
  - unfold fcc.Hexagon. cbv zeta. apply basic_Prism_zero.
  - unfold fcc.Decahedron. cbv zeta.
    apply bind_cong_run; [apply basic_Bipyramid_zero | intros]. apply skip_smoothing.
  - unfold fcc.Bipyramid. cbv zeta.
    apply bind_cong_run; [apply basic_Bipyramid_zero | intros]. apply skip_smoothing.
Qed.

Lemma prism_zero_outcome (n : nat) (size h : R) (segs : nat)
    (w w' : World BlenderObject) :
  basic.Prism E n size h 0 0 0 segs w = Ok tt w' ->
  exists k,
    calls w' = calls w ++ [primitive_cylinder_add n (size / 2) h;
                           object_transform_apply (vec 0 0 0) identity_rotation
                             (vec k k k)]
    /\ focus w' = scaled E k (new_object (cylinder E n (size / 2) h)).
Proof.
  rewrite basic_Prism_zero. unfold base.Prism, base.rescale_diagonal. intros H.
  peel H as a1 w1 H1. rewrite primitive_add_run in H1. inversion H1; subst a1 w1. clear H1.
  peel H as o w2 Hget. rewrite get_run in Hget. inversion Hget; subst o w2. clear Hget.
  peel H as k w2 Hdiv. apply npdiv_ok in Hdiv. destruct Hdiv as (_ & _ & ->).
  rewrite scale_run in H. inversion H; subst w'. clear H.
  exists k. cbn [calls focus new_object ob_location ob_rotation ob_scale].
  rewrite <- app_assoc. split; reflexivity.
Qed.

Lemma octahedron_zero_outcome (size : R) (w w' : World BlenderObject) :
  basic.Octahedron E size 0 w = Ok tt w' ->
  exists k,
    calls w'
    = calls w
      ++ [primitive_cube_add 1;
          object_modifier_bevel (mkBevelModifier (Some PERCENT) None (Some 100) None);
          mesh_remove_doubles;
          object_transform_apply (vec 0 0 0) identity_rotation (vec k k k)]
    /\ focus w'
       = scaled E k
           (new_object
              (welded E
                 (bevel_modifier E (mkBevelModifier (Some PERCENT) None (Some 100) None)
                    (cube E 1)))).
Proof.
  intros H. rewrite octahedron_outcome in H.
  destruct (diameter_of (new_object (octahedron_mesh E 0))) as [d |]; [| discriminate].
  destruct (eqb0 d); [discriminate |].
  inversion H; subst w'. clear H. exists (size / d). cbn [calls focus].
  unfold octahedron_calls, octahedron_mesh, rescale_call, percent_bevel.
  rewrite (ltb_false 0 0) by lra. split; reflexivity.
Qed.

(** C8: at [truncation_degree = 0] and smoothing degrees [0] every builder
    of [shapes/fcc.py] runs exactly as the base shape of its family, which
    has no truncation bevel, no smoothing bevel and no weld of theirs: the
    same operator calls, the same entity, the same outcome.
    [smooth_edges(0)] leaves the state as it is.  At degree zero
    [basic.Octahedron] calls the cube, the bevel at 100 percent, one weld
    and the rescale, and returns the welded bevelled cube rescaled;
    [basic.Prism] calls the cylinder and the rescale and returns the
    cylinder rescaled; [basic.Bipyramid] makes the six calls of the welded
    bipyramid and no bevel.  In particular
    [Square(size=1.0, height=0.2, truncation_degree=0)] is the cylinder on
    four sides, rescaled. *)
Theorem C8_zero_degrees (w : World BlenderObject) :
  (forall f s h,
     families.builder E f s (families.mkParameters h 0 0 0 0 0) w = base.builder E f s h w)
  /\ (forall n, smooth_edges E 0 n w = Ok tt w)
  /\ (forall size w',
        basic.Octahedron E size 0 w = Ok tt w' ->
        exists k,
          calls w'
          = calls w
            ++ [primitive_cube_add 1;
                object_modifier_bevel (mkBevelModifier (Some PERCENT) None (Some 100) None);
                mesh_remove_doubles;
                object_transform_apply (vec 0 0 0) identity_rotation (vec k k k)]
          /\ focus w'
             = scaled E k
                 (new_object
                    (welded E
                       (bevel_modifier E
                          (mkBevelModifier (Some PERCENT) None (Some 100) None)
                          (cube E 1)))))
  /\ (forall n size h segs w',
        basic.Prism E n size h 0 0 0 segs w = Ok tt w' ->
        exists k,
          calls w' = calls w ++ [primitive_cylinder_add n (size / 2) h;
                                 object_transform_apply (vec 0 0 0) identity_rotation
                                   (vec k k k)]
          /\ focus w' = scaled E k (new_object (cylinder E n (size / 2) h)))
  /\ (forall n d h,
        exists w',
          basic.Bipyramid E n d h 0 w = Ok tt w'
          /\ calls w' = calls w ++ bipyramid_calls E n d h
          /\ coords (data (focus w')) = coords (bipyramid_mesh E n d h))
  /\ (forall w',
        fcc.Square E 1.0 0.2 0 0 0 w = Ok tt w' ->
        exists k,
          calls w' = calls w ++ [primitive_cylinder_add 4 (1.0 / 2) 0.2;
                                 object_transform_apply (vec 0 0 0) identity_rotation
                                   (vec k k k)]
          /\ focus w' = scaled E k (new_object (cylinder E 4 (1.0 / 2) 0.2))).
Proof.
  split; [intros; apply builder_zero |].
  split; [intros; apply smooth_edges_zero |].
  split; [intros size w' H; exact (octahedron_zero_outcome size w w' H) |].
  split; [intros n size h segs w' H; exact (prism_zero_outcome n size h segs w w' H) |].
  split.
  - intros n d h.
    destruct (bipyramid_tips E n d h 0 w) as (w' & Hrun & Hcase). cbv zeta in Hcase.
    exists w'. split; [exact Hrun |].
    destruct Hcase as [(_ & Hc & Hco) | (Hpos & _)]; [split; assumption | lra].
  - intros w' H. unfold fcc.Square in H. cbv zeta in H.
    exact (prism_zero_outcome 4 1.0 0.2 3 w w' H).
Qed.


Lemma octahedron_truncation_calls (size t : R) (w w' : World BlenderObject) :
  0 < t ->
  basic.Octahedron E size t w = Ok tt w' ->
  exists k,
    calls w'
    = calls w
      ++ [primitive_cube_add 1;
          object_modifier_bevel (mkBevelModifier (Some PERCENT) None (Some 100) None);
          mesh_remove_doubles;
          object_modifier_bevel
            (mkBevelModifier (Some PERCENT) None (Some (100 * t / 3)) None);
          mesh_remove_doubles;
          object_transform_apply (vec 0 0 0) identity_rotation (vec k k k)]
    /\ focus w'
       = scaled E k
           (new_object
              (welded E
                 (bevel_modifier E
                    (mkBevelModifier (Some PERCENT) None (Some (100 * t / 3)) None)
                    (welded E
                       (bevel_modifier E
                          (mkBevelModifier (Some PERCENT) None (Some 100) None)
                          (cube E 1)))))).
Proof.
  intros Ht H. rewrite octahedron_outcome in H.
  destruct (diameter_of (new_object (octahedron_mesh E t))) as [d |]; [| discriminate].
  destruct (eqb0 d); [discriminate |].
  inversion H; subst w'. clear H. exists (size / d). cbn [calls focus].
  unfold octahedron_calls, octahedron_mesh, rescale_call, percent_bevel.
  rewrite (ltb_true 0 t Ht).
  replace (100 * (t / 3)) with (100 * t / 3) by lra.
  split; reflexivity.
Qed.

(** C7: with [truncation_degree > 0], [basic.Octahedron] makes, after the
    cube, its bevel at 100 percent and the weld, a second bevel at
    [100 * truncation_degree / 3] percent and a second weld, and then only
    rescales; [basic.Prism] bevels, right after the cylinder, exactly its
    vertical edges (both endpoints share x and y within [BLENDER_EPS]; no
    vertex is selected) at [100 * truncation_degree / 2] percent, then
    welds. *)
Theorem C7_truncation (n : nat) (size h t ts es : R) (segs : nat)
    (w wo wp : World BlenderObject) :
  0 < t ->
  (basic.Octahedron E size t w = Ok tt wo ->
   exists k,
     calls wo
     = calls w
       ++ [primitive_cube_add 1;
           object_modifier_bevel (mkBevelModifier (Some PERCENT) None (Some 100) None);
           mesh_remove_doubles;
           object_modifier_bevel
             (mkBevelModifier (Some PERCENT) None (Some (100 * t / 3)) None);
           mesh_remove_doubles;
           object_transform_apply (vec 0 0 0) identity_rotation (vec k k k)]
     /\ focus wo
        = scaled E k
            (new_object
               (welded E
                  (bevel_modifier E
                     (mkBevelModifier (Some PERCENT) None (Some (100 * t / 3)) None)
                     (welded E
                        (bevel_modifier E
                           (mkBevelModifier (Some PERCENT) None (Some 100) None)
                           (cube E 1)))))))
  /\ (basic.Prism E n size h t ts es segs w = Ok tt wp ->
      exists sel rest,
        calls wp
        = calls w
          ++ [primitive_cylinder_add n (size / 2) h;
              mesh_bevel [] sel
                (mkBevelOperator None (Some PERCENT) None (Some (100 * t / 2))
                                 None (Some true));
              mesh_remove_doubles]
          ++ rest
        /\ (forall i, In i sel
                      <-> exists e, nth_error (edges (cylinder E n (size / 2) h)) i = Some e
                                    /\ vertical (cylinder E n (size / 2) h) e)).
Proof.
  intros Ht. split.
  - apply octahedron_truncation_calls, Ht.
  - apply prism_truncation_calls, Ht.
Qed.

(** *** The guards against small widths *)




(** C6, corrected: the tolerances have the other sign.  [Rod] extrudes
    exactly the vertices with [z > -BLENDER_EPS] of the ellipsoid upwards by
    [(height - diameter) / 2] and then moves exactly the vertices with
    [z < BLENDER_EPS] downwards by the same amount, so the vertices within
    the tolerance of the equator are in both selections. *)
Theorem C6_rod_caps (height diameter : R) (w : World BlenderObject) :
  let msh := height - diameter in
  let m0 := ellipsoid_mesh E diameter 5 in
  let m1 := extruded_cap_mesh E diameter msh 5 in
  exists w',
    fcc.Rod E height diameter w = Ok tt w'
    /\ calls w'
       = calls w
         ++ [primitive_ico_sphere_add 5 0.5;
             object_transform_apply (vec 0 0 0) identity_rotation
               (vec diameter diameter diameter);
             mesh_extrude_region_move
               (indices_where (fun v => ltb (- BLENDER_EPS) (vz (co v))) (vertices m0))
               (vec 0 0 (msh / 2));
             transform_translate
               (indices_where (fun v => ltb (vz (co v)) BLENDER_EPS) (vertices m1))
               (vec 0 0 (- msh / 2))]
    /\ coords (data (focus w'))
       = map (fun p => if ltb (vz p) BLENDER_EPS
                       then vadd p (vec 0 0 (- msh / 2)) else p)
             (coords m1)
    /\ transform_is_identity (focus w').
Proof. exact (rod_run E height diameter w). Qed.

End RecipeProperties.

(** *** The recipes on the small engine *)

Lemma toy_octahedron_returns (size t : R) :
  exists wo, basic.Octahedron toy.engine size t (toy.start toy.nothing [] []) = Ok tt wo.
Proof.
  set (o := new_object (octahedron_mesh toy.engine t)).
  assert (Hd : exists d, diameter_of o = Some d /\ 0 < d).
  { apply (diameter_positive o (mkVertex (vec (- (1 / 2)) (- (1 / 2)) (- (1 / 2))) true)
             (mkVertex (vec (1 / 2) (- (1 / 2)) (- (1 / 2))) true)).
    - unfold o, octahedron_mesh. destruct (ltb 0 t); cbn; left; reflexivity.
    - unfold o, octahedron_mesh. destruct (ltb 0 t); cbn; do 4 right; left; reflexivity.
    - cbn [co vx]. lra. }
  destruct Hd as (d & Hd & Hpos).
  rewrite octahedron_outcome. fold o. rewrite Hd. rewrite eqb0_false by lra.
  eexists. reflexivity.
Qed.

Lemma C7_witness :
  exists wo wp k sel rest,
    basic.Octahedron toy.engine 1 0.5 (toy.start toy.nothing [] []) = Ok tt wo
    /\ calls wo
       = [primitive_cube_add 1;
          object_modifier_bevel (mkBevelModifier (Some PERCENT) None (Some 100) None);
          mesh_remove_doubles;
          object_modifier_bevel
            (mkBevelModifier (Some PERCENT) None (Some (100 * 0.5 / 3)) None);
          mesh_remove_doubles;
          object_transform_apply (vec 0 0 0) identity_rotation (vec k k k)]
    /\ basic.Prism toy.engine 4 1 1 0.5 0 0 3 (toy.start toy.nothing [] []) = Ok tt wp
    /\ calls wp
       = [primitive_cylinder_add 4 (1 / 2) 1;
          mesh_bevel [] sel
            (mkBevelOperator None (Some PERCENT) None (Some (100 * 0.5 / 2))
                             None (Some true));
          mesh_remove_doubles] ++ rest.
Proof.
  assert (Ht : 0 < 0.5) by lra.
  destruct (toy_octahedron_returns 1 0.5) as (wo & Ho).
  destruct (Prism_truncated_returns 0.5 Ht) as (wp & Hp).
  destruct (C7_truncation toy.engine 4 1 1 0.5 0 0 3 (toy.start toy.nothing [] []) wo wp Ht)
    as [HO HP].
  destruct (HO Ho) as (k & Hk & _). destruct (HP Hp) as (sel & rest & Hc & _).
  exists wo, wp, k, sel, rest.
  split; [exact Ho |]. split; [exact Hk |]. split; [exact Hp | exact Hc].
Defined.


(** A rod on the small engine: vertex 1 of the ellipsoid lies on the
    equator, at height 0, which is neither above [BLENDER_EPS] nor below
    [- BLENDER_EPS]; it is extruded upwards and moved downwards all the
    same. *)
Lemma C6_counterexample :
  exists w' up down v v',
    fcc.Rod toy.engine 1 0.5 (toy.start toy.nothing [] []) = Ok tt w'
    /\ calls w'
       = [primitive_ico_sphere_add 5 0.5;
          object_transform_apply (vec 0 0 0) identity_rotation (vec 0.5 0.5 0.5);
          mesh_extrude_region_move up (vec 0 0 ((1 - 0.5) / 2));
          transform_translate down (vec 0 0 (- (1 - 0.5) / 2))]
    /\ nth_error (vertices (ellipsoid_mesh toy.engine 0.5 5)) 1 = Some v
    /\ vz (co v) = 0 /\ In 1%nat up
    /\ nth_error (vertices (extruded_cap_mesh toy.engine 0.5 (1 - 0.5) 5)) 1 = Some v'
    /\ vz (co v') = 0 /\ In 1%nat down.
Proof.
  destruct (rod_run toy.engine 1 0.5 (toy.start toy.nothing [] [])) as (w' & Hrun & Hcalls & _).
  cbv zeta in Hcalls.
  assert (Hz : ltb (- BLENDER_EPS) (0 + 0.5 * 0) = true)
    by (apply ltb_true; unfold BLENDER_EPS; lra).
  exists w'.
  exists (indices_where (fun v => ltb (- BLENDER_EPS) (vz (co v)))
            (vertices (ellipsoid_mesh toy.engine 0.5 5))).
  exists (indices_where (fun v => ltb (vz (co v)) BLENDER_EPS)
            (vertices (extruded_cap_mesh toy.engine 0.5 (1 - 0.5) 5))).
  exists (mkVertex (vec (0 + 0.5 * 0.5) (0 + 0.5 * 0) (0 + 0.5 * 0)) false).
  exists (mkVertex (vec (0 + 0.5 * 0.5) (0 + 0.5 * 0) (0 + 0.5 * 0)) false).
  split; [exact Hrun |]. split; [exact Hcalls |].
  assert (H1 : nth_error (vertices (ellipsoid_mesh toy.engine 0.5 5)) 1
               = Some (mkVertex (vec (0 + 0.5 * 0.5) (0 + 0.5 * 0) (0 + 0.5 * 0)) false))
    by reflexivity.
  assert (H2 : nth_error (vertices (extruded_cap_mesh toy.engine 0.5 (1 - 0.5) 5)) 1
               = Some (mkVertex (vec (0 + 0.5 * 0.5) (0 + 0.5 * 0) (0 + 0.5 * 0)) false)).
  { unfold extruded_cap_mesh, selecting.
    cbn [extrude_region toy.engine toy.extrude_region vertices].
    rewrite nth_error_app1.
    - rewrite nth_error_map, nth_error_map, H1. cbn [option_map co].
      destruct (ltb _ _); reflexivity.
    - rewrite !length_map. cbn. lia. }
  split; [exact H1 |]. split; [cbn [co vz]; lra |]. split.
  - unfold indices_where. apply indices_from_In. split; [lia |].
    eexists. split; [exact H1 |]. cbn [co vz]. exact Hz.
  - split; [exact H2 |]. split; [cbn [co vz]; lra |].
    unfold indices_where. apply indices_from_In. split; [lia |].
    eexists. split; [exact H2 |]. cbn [co vz]. apply ltb_true. unfold BLENDER_EPS. lra.
Qed.


(** ** Placement and scenes *)

Section SceneProperties.
Variable E : Engine.
Import blender scene_building.

(** C2: for an entity whose bounding box fits the supplied box on every
    axis, every shift [position_randomly] returns puts the bounding box of
    the translated entity inside the box; with [fit_in_cylinder] every
    vertex then lies strictly inside the circle of radius
    [max(y_max - y_min, z_max - z_min)] about the (y, z) centre of the box;
    and the value returned is the shift that was applied, as one baked
    translation of every vertex.  The entity has vertices and an identity
    transform, as every entity has after a builder, and the draws of the
    oracle lie in [[0, 1)]. *)
Theorem C2_placement (box : R * R * R * R * R * R) (fit : bool)
    (w w' : World BlenderObject) (shift : Vector) :
  transform_is_identity (focus w) ->
  vertices (data (focus w)) <> [] ->
  unit_draws (uniforms w) ->
  fits_box box (focus w) ->
  position_randomly E box fit w = Ok shift w' ->
  inside_box box (focus w')
  /\ (fit = true ->
      forall v, In v (vertices (data (focus w'))) -> inside_cylinder box (co v))
  /\ coords (data (focus w')) = map (vadd shift) (coords (data (focus w)))
  /\ calls w' = calls w ++ [object_transform_apply shift identity_rotation (vec 1 1 1)]
  /\ transform_is_identity (focus w').
Proof.
  intros Hid Hne Hu Hfit H.
  destruct (placement_spec E box fit w w' shift Hid Hne Hu Hfit H)
    as (Hco & Hcalls & Hid' & Hbox & Hcyl).
  split; [exact Hbox |]. split; [exact Hcyl |]. split; [exact Hco |].
  split; [exact Hcalls | exact Hid'].
Qed.

(** C5, corrected: [add_random_shape] takes from the given pool the
    constructor at the index [random.choice] draws and calls it with no
    arguments, on a fresh reference: the parameters are the constructor's
    own, and the constructors of the default pool, [shapes.randomized.fcc],
    draw theirs at random ([used] are the draws the constructor consumed).
    It then rotates the entity by the quaternion of the next four draws
    divided by their norm, scales it so that its largest dimension is
    [0.75 + (0.9 - 0.75) * u] for the next draw [u], in [[0.75, 0.9)], and
    translates it by the shift [position_randomly] returns for the extent
    with every bound multiplied by 0.95 and [fit_in_cylinder] set: the
    bounding box lies inside that box and every vertex inside its cylinder.
    After the constructor the call log holds exactly these three baked
    transforms.  The draws lie in [[0, 1)], the constructors of the pool
    only consume draws, and the sides of the shrunk extent are at least
    0.9, as those of the default extent are. *)
Theorem C5_add_random_shape (self : Scene) (shape_package : ShapePackage)
    (w w' : World (list BlenderObject)) (shape : nat) :
  (forall cls, In cls (ALL_SHAPES shape_package) -> consumes cls) ->
  unit_draws (uniforms w) ->
  sides_at_least 0.9 (shrunk (extent self)) ->
  add_random_shape E self shape_package w = Ok shape w' ->
  shape = List.length (focus w)
  /\ exists (cls : ObjM unit) (n : nat) (ch : list nat) (wo : World BlenderObject)
            (used : list R) (q1 q2 q3 q4 u : R) (more : list R) (shift : Vector),
       let norm := sqrt (q1 * q1 + q2 * q2 + q3 * q3 + q4 * q4) in
       let rot := rotation_quaternion (q1 / norm) (q2 / norm) (q3 / norm) (q4 / norm) in
       let rotated := transform_apply E (with_rotation rot (focus wo)) in
       let scale_factor := 0.75 + (0.9 - 0.75) * u in
       let o := translated E shift
                  (scaled E (scale_factor / max3 (dimensions rotated)) rotated) in
       In cls (ALL_SHAPES shape_package)
       /\ choices w = n :: ch
       /\ nth_error (ALL_SHAPES shape_package)
                    (n mod List.length (ALL_SHAPES shape_package)) = Some cls
       /\ cls (mkWorld (new_object (mkMesh [] [] [])) (calls w) (uniforms w) ch) = Ok tt wo
       /\ uniforms w = used ++ uniforms wo
       /\ uniforms wo = q1 :: q2 :: q3 :: q4 :: u :: more ++ uniforms w'
       /\ focus w' = focus w ++ [o]
       /\ max3 (dimensions o) = scale_factor
       /\ 0.75 <= scale_factor < 0.9
       /\ transform_is_identity o
       /\ inside_box (shrunk (extent self)) o
       /\ (forall v, In v (vertices (data o)) ->
             inside_cylinder (shrunk (extent self)) (co v))
       /\ calls w'
          = calls wo
            ++ [object_transform_apply (ob_location (focus wo)) rot (ob_scale (focus wo));
                object_transform_apply (vec 0 0 0) identity_rotation
                  (vec (scale_factor / max3 (dimensions rotated))
                       (scale_factor / max3 (dimensions rotated))
                       (scale_factor / max3 (dimensions rotated)));
                object_transform_apply shift identity_rotation (vec 1 1 1)].
Proof. exact (random_shape_facts E self shape_package w w' shape). Qed.


End SceneProperties.

(** *** On the small engine *)

Lemma C2_witness :
  exists shift w',
    blender.position_randomly toy.engine (-2, 2, -2, 2, -2, 2) true
      (toy.start toy.segment [1 / 2; 1 / 2; 1 / 2] []) = Ok shift w'
    /\ inside_box (-2, 2, -2, 2, -2, 2) (focus w')
    /\ (forall v, In v (vertices (data (focus w'))) ->
                  inside_cylinder (-2, 2, -2, 2, -2, 2) (co v))
    /\ calls w' = [object_transform_apply shift identity_rotation (vec 1 1 1)].
Proof.
  eexists. eexists. split; [exact segment_placement_run |].
  assert (Hid : transform_is_identity
                  (focus (toy.start toy.segment [1 / 2; 1 / 2; 1 / 2] [])))
    by (repeat split).
  assert (Hne : vertices (data (focus (toy.start toy.segment [1 / 2; 1 / 2; 1 / 2] [])))
                <> []) by discriminate.
  assert (Hu : unit_draws (uniforms (toy.start toy.segment [1 / 2; 1 / 2; 1 / 2] [])))
    by (repeat constructor; lra).
  assert (Hfit : fits_box (-2, 2, -2, 2, -2, 2)
                   (focus (toy.start toy.segment [1 / 2; 1 / 2; 1 / 2] []))).
  { unfold fits_box. cbn [focus toy.start]. rewrite segment_dimensions.
    cbn [vx vy vz]. repeat split; lra. }
  destruct (C2_placement toy.engine (-2, 2, -2, 2, -2, 2) true _ _ _
              Hid Hne Hu Hfit segment_placement_run) as (Hbox & Hcyl & _ & Hcalls & _).
  split; [exact Hbox |]. split; [exact (Hcyl eq_refl) | exact Hcalls].
Defined.

Lemma C5_witness :
  exists w' o u,
    scene_building.add_random_shape toy.engine default_scene (randomized.package toy.engine)
      (toy.start empty_scene sphere_draws [0%nat]) = Ok 0%nat w'
    /\ focus w' = [o]
    /\ max3 (blender.dimensions o) = 0.75 + (0.9 - 0.75) * u
    /\ inside_box (scene_building.shrunk (scene_building.extent default_scene)) o.
Proof.
  destruct toy_random_shape_run as (w' & Hrun).
  destruct (C5_add_random_shape toy.engine default_scene (randomized.package toy.engine)
              (toy.start empty_scene sphere_draws [0%nat]) w' 0%nat
              (randomized_consumes toy.engine) sphere_draws_unit
              default_scene_sides Hrun)
    as (_ & cls & n & ch & wo & used & q1 & q2 & q3 & q4 & u & more & shift & Hfacts).
  cbv zeta in Hfacts.
  destruct Hfacts as (_ & _ & _ & _ & _ & _ & Hf & Hmax & _ & _ & Hbox & _).
  exists w'. eexists. exists u.
  split; [exact Hrun |]. split; [exact Hf |]. split; [exact Hmax | exact Hbox].
Defined.

Lemma toy_cube_choice :
  choice (ALL_SHAPES (randomized.package toy.engine))
         (toy.start empty_scene cube_draws [1%nat])
  = Ok (randomized.Cube toy.engine) (mkWorld empty_scene [] cube_draws []).
Proof. reflexivity. Qed.

Lemma toy_box_dimensions :
  blender.dimensions
    (blender.transform_apply toy.engine
       (with_scale (vec 1.0 1.0 1.0) (new_object (toy.cube 1))))
  = vec 1 1 1.
Proof.
  unfold blender.transform_apply, map_co, toy.cube, toy.vertex.
  cbn [with_scale new_object data vertices map co select ob_location ob_rotation ob_scale
       toy.engine rotate_vector vadd vmul vx vy vz].
  eval_bounds. unfold vsub; cbn [vx vy vz]. f_equal; lra.
Qed.

(** [Cube()] of the default pool on the draw 1/2: the smoothing degree is
    0.05 and the cube is bevelled. *)
Lemma toy_cube_run :
  exists wo width,
    randomized.Cube toy.engine (mkWorld (new_object (mkMesh [] [] [])) [] cube_draws [])
    = Ok tt wo
    /\ uniforms wo = sphere_draws
    /\ BLENDER_EPS <= width
    /\ In (object_modifier_bevel (mkBevelModifier None (Some width) None (Some 3%nat)))
          (calls wo)
    /\ (forall r, max3 (blender.dimensions
                          (blender.transform_apply toy.engine (with_rotation r (focus wo))))
                  <> 0).
Proof.
  unfold randomized.Cube. cbv zeta.
  erewrite bind_run by (apply uniform_run; reflexivity).
  rewrite Cube_eq. unfold basic.Box.
  erewrite bind_run.
  2:{ rewrite (bind_run _ _ _ _ _ (primitive_add_run _ _ _)).
      apply scale_vector_run. }
  cbn [focus calls uniforms choices toy.engine cube].
  set (B := blender.transform_apply _ _).
  assert (HB : blender.dimensions B = vec 1 1 1) by apply toy_box_dimensions.
  erewrite bind_run.
  2:{ apply smooth_edges_bevel. cbn [focus]. rewrite HB. unfold max3. cbn [vx vy vz].
      eval_extrema. unfold BLENDER_EPS. lra. }
  cbv zeta. cbn [focus calls uniforms choices].
  match goal with
  | |- context [mkWorld ?o ?cs sphere_draws []] => set (B1 := o); set (cs1 := cs)
  end.
  assert (HB1 : blender.dimensions B1 = vec 1 1 1).
  { rewrite <- HB. apply dimensions_of_coords. reflexivity. }
  assert (Hm : max3 (blender.dimensions B1) = 1).
  { rewrite HB1. unfold max3. cbn [vx vy vz]. eval_extrema. reflexivity. }
  assert (Hne : max3 (blender.dimensions (focus (mkWorld B1 cs1 sphere_draws []))) <> 0)
    by (cbn [focus]; rewrite Hm; lra).
  pose proof (rescale_run toy.engine 1.0 (mkWorld B1 cs1 sphere_draws []) Hne) as Hrun.
  cbn [focus calls uniforms choices] in Hrun. rewrite Hm in Hrun.
  eexists. exists ((0.0 + (0.1 - 0.0) * (1 / 2)) * max3 (blender.dimensions B)).
  split; [exact Hrun |]. cbn [uniforms calls focus].
  split; [reflexivity |]. split.
  { rewrite HB. unfold max3. cbn [vx vy vz]. eval_extrema. unfold BLENDER_EPS. lra. }
  split.
  { unfold cs1. apply in_or_app. left. apply in_or_app. right. left. reflexivity. }
  intros r. apply Rgt_not_eq, Rlt_gt.
  eapply max3_positive.
  - unfold B1, B, scaled, toy.cube, toy.vertex.
    cbn [blender.transform_apply map_co data vertices map with_rotation with_scale
         with_data new_object In toy.engine bevel_modifier].
    left. reflexivity.
  - unfold B1, B, scaled, toy.cube, toy.vertex.
    cbn [blender.transform_apply map_co data vertices map with_rotation with_scale
         with_data new_object In toy.engine bevel_modifier].
    do 4 right. left. reflexivity.
  - cbn [co vx vy vz vadd vmul ob_location ob_rotation ob_scale toy.engine rotate_vector
         with_rotation with_scale with_data new_object blender.transform_apply select].
    lra.
Qed.

Lemma cube_draws_unit : unit_draws cube_draws.
Proof. unfold cube_draws, sphere_draws. repeat constructor; lra. Qed.

(** A call of [add_random_shape] on the default pool that picks [Cube]: the
    constructor takes the first draw, 1/2, for its smoothing degree and
    bevels the cube with it, so nine draws are used and the call log holds
    a smoothing bevel.  Built with the default [smoothing_degree = 0.0] a
    cube is never bevelled. *)
Lemma C5_counterexample :
  exists w' width,
    scene_building.add_random_shape toy.engine default_scene (randomized.package toy.engine)
      (toy.start empty_scene cube_draws [1%nat]) = Ok 0%nat w'
    /\ uniforms w' = []
    /\ BLENDER_EPS <= width
    /\ In (object_modifier_bevel (mkBevelModifier None (Some width) None (Some 3%nat)))
          (calls w').
Proof.
  destruct toy_cube_run as (wo & width & Hcube & Huw & Hwidth & Hin & Hext).
  destruct (random_shape_run toy.engine default_scene (randomized.package toy.engine)
              (toy.start empty_scene cube_draws [1%nat]) (randomized.Cube toy.engine) []
              wo (1 / 2) (1 / 2) (1 / 2) (1 / 2) 0 (1 / 2) (1 / 2) (1 / 2) []
              toy_cube_choice Hcube Huw sphere_draws_unit ltac:(lra)
              Hext default_scene_sides) as (w' & Hrun & Hrest).
  exists w', width. split; [exact Hrun |]. split; [exact Hrest |].
  split; [exact Hwidth |].
  destruct (random_shape_facts toy.engine default_scene (randomized.package toy.engine)
              (toy.start empty_scene cube_draws [1%nat]) w' 0%nat
              (randomized_consumes toy.engine) cube_draws_unit
              default_scene_sides Hrun)
    as (_ & cls & n & ch & wo' & used & q1 & q2 & q3 & q4 & u & more & shift & Hfacts).
  cbv zeta in Hfacts.
  destruct Hfacts as (_ & Hch & Hnth & Hcls & _ & _ & _ & _ & _ & _ & _ & _ & Hcalls).
  cbn [choices toy.start] in Hch. injection Hch as Hn Hch0. subst n ch.
  cbn in Hnth. injection Hnth as Hc. subst cls.
  cbn [calls uniforms toy.start] in Hcls. rewrite Hcube in Hcls.
  injection Hcls as Hwo. subst wo'.
  rewrite Hcalls. apply in_or_app. left. exact Hin.
Qed.


